(** * CreepDir: a shallow embedding of [creepdir.py]

    [scan_folder_for_filetypes] asks for a folder, walks it, groups the
    relative path of every file under the lower-cased extension of its
    name, and writes the groups, sorted by extension, to
    [<script dir>/output/<folder name>.txt].

    Modelling conventions.
    - A Python [str] is a list of code points, [str]; a code point is a
      number, [char].  A name read from the file system may hold the lone
      surrogates U+DC80..U+DCFF that stand for bytes that are not UTF-8.
      Literals are written [lit "..."].
    - [str.lower] follows [unicodeobject.c]: the full lower-case mapping of
      the Unicode database and the rule of the final sigma.
    - Python integers (string indices) are [Z]; [str.rfind] answers [-1]
      when the character is absent, as in Python.
    - [os.path] is [posixpath]: the separator is [/], there is no
      alternative separator.
    - The file system holds directories and regular files, no symbolic
      links, no special files, no permissions; [os.getcwd()] is an absolute
      path.  The system follows a path component by component
      ([FS.resolve]): a path through a directory that does not exist leads
      nowhere, even if a [..] comes back from it.
    - A file opened with [encoding="utf-8"] encodes each text written, and
      raises [UnicodeEncodeError] on a lone surrogate.  The standard output
      accepts every text, and Tk has a display to open its window on. *)

From Stdlib Require Import ZArith NArith List String Ascii Bool Lia.
From Stdlib Require Import Sorting.Sorted Sorting.Permutation.
Import ListNotations.

Local Open Scope string_scope.
Local Open Scope list_scope.
Local Open Scope Z_scope.

(** A code point, a text, the bytes of a file. *)
Abbreviation char := N (only parsing).
Abbreviation str := (list N) (only parsing).
Abbreviation bytes := (list N) (only parsing).

(** The text of a literal: one code point per character of the literal. *)
Definition lit (s : string) : str := map N_of_ascii (list_ascii_of_string s).

(** ** The Unicode character database

    Unicode 14.0.0, the data of CPython 3.11: what [_PyUnicode_ToLowerFull],
    [_PyUnicode_IsCased], [_PyUnicode_IsCaseIgnorable] and
    [_PyUnicode_IsUppercase] answer. *)

Module Unicode.

(** The code points that [_PyUnicode_ToLowerFull] changes, each with what
    it becomes. *)
Definition lower_table : list (N * list N) :=
  [
   (0x41, [0x61]); (0x42, [0x62]); (0x43, [0x63]); (0x44, [0x64]);
   (0x45, [0x65]); (0x46, [0x66]); (0x47, [0x67]); (0x48, [0x68]);
   (0x49, [0x69]); (0x4A, [0x6A]); (0x4B, [0x6B]); (0x4C, [0x6C]);
   (0x4D, [0x6D]); (0x4E, [0x6E]); (0x4F, [0x6F]); (0x50, [0x70]);
   (0x51, [0x71]); (0x52, [0x72]); (0x53, [0x73]); (0x54, [0x74]);
   (0x55, [0x75]); (0x56, [0x76]); (0x57, [0x77]); (0x58, [0x78]);
   (0x59, [0x79]); (0x5A, [0x7A]); (0xC0, [0xE0]); (0xC1, [0xE1]);
   (0xC2, [0xE2]); (0xC3, [0xE3]); (0xC4, [0xE4]); (0xC5, [0xE5]);
   (0xC6, [0xE6]); (0xC7, [0xE7]); (0xC8, [0xE8]); (0xC9, [0xE9]);
   (0xCA, [0xEA]); (0xCB, [0xEB]); (0xCC, [0xEC]); (0xCD, [0xED]);
   (0xCE, [0xEE]); (0xCF, [0xEF]); (0xD0, [0xF0]); (0xD1, [0xF1]);
   (0xD2, [0xF2]); (0xD3, [0xF3]); (0xD4, [0xF4]); (0xD5, [0xF5]);
   (0xD6, [0xF6]); (0xD8, [0xF8]); (0xD9, [0xF9]); (0xDA, [0xFA]);
   (0xDB, [0xFB]); (0xDC, [0xFC]); (0xDD, [0xFD]); (0xDE, [0xFE]);
   (0x100, [0x101]); (0x102, [0x103]); (0x104, [0x105]); (0x106, [0x107]);
   (0x108, [0x109]); (0x10A, [0x10B]); (0x10C, [0x10D]); (0x10E, [0x10F]);
   (0x110, [0x111]); (0x112, [0x113]); (0x114, [0x115]); (0x116, [0x117]);
   (0x118, [0x119]); (0x11A, [0x11B]); (0x11C, [0x11D]); (0x11E, [0x11F]);
   (0x120, [0x121]); (0x122, [0x123]); (0x124, [0x125]); (0x126, [0x127]);
   (0x128, [0x129]); (0x12A, [0x12B]); (0x12C, [0x12D]); (0x12E, [0x12F]);
   (0x130, [0x69; 0x307]); (0x132, [0x133]); (0x134, [0x135]); (0x136, [0x137]);
   (0x139, [0x13A]); (0x13B, [0x13C]); (0x13D, [0x13E]); (0x13F, [0x140]);
   (0x141, [0x142]); (0x143, [0x144]); (0x145, [0x146]); (0x147, [0x148]);
   (0x14A, [0x14B]); (0x14C, [0x14D]); (0x14E, [0x14F]); (0x150, [0x151]);
   (0x152, [0x153]); (0x154, [0x155]); (0x156, [0x157]); (0x158, [0x159]);
   (0x15A, [0x15B]); (0x15C, [0x15D]); (0x15E, [0x15F]); (0x160, [0x161]);
   (0x162, [0x163]); (0x164, [0x165]); (0x166, [0x167]); (0x168, [0x169]);
   (0x16A, [0x16B]); (0x16C, [0x16D]); (0x16E, [0x16F]); (0x170, [0x171]);
   (0x172, [0x173]); (0x174, [0x175]); (0x176, [0x177]); (0x178, [0xFF]);
   (0x179, [0x17A]); (0x17B, [0x17C]); (0x17D, [0x17E]); (0x181, [0x253]);
   (0x182, [0x183]); (0x184, [0x185]); (0x186, [0x254]); (0x187, [0x188]);
   (0x189, [0x256]); (0x18A, [0x257]); (0x18B, [0x18C]); (0x18E, [0x1DD]);
   (0x18F, [0x259]); (0x190, [0x25B]); (0x191, [0x192]); (0x193, [0x260]);
   (0x194, [0x263]); (0x196, [0x269]); (0x197, [0x268]); (0x198, [0x199]);
   (0x19C, [0x26F]); (0x19D, [0x272]); (0x19F, [0x275]); (0x1A0, [0x1A1]);
   (0x1A2, [0x1A3]); (0x1A4, [0x1A5]); (0x1A6, [0x280]); (0x1A7, [0x1A8]);
   (0x1A9, [0x283]); (0x1AC, [0x1AD]); (0x1AE, [0x288]); (0x1AF, [0x1B0]);
   (0x1B1, [0x28A]); (0x1B2, [0x28B]); (0x1B3, [0x1B4]); (0x1B5, [0x1B6]);
   (0x1B7, [0x292]); (0x1B8, [0x1B9]); (0x1BC, [0x1BD]); (0x1C4, [0x1C6]);
   (0x1C5, [0x1C6]); (0x1C7, [0x1C9]); (0x1C8, [0x1C9]); (0x1CA, [0x1CC]);
   (0x1CB, [0x1CC]); (0x1CD, [0x1CE]); (0x1CF, [0x1D0]); (0x1D1, [0x1D2]);
   (0x1D3, [0x1D4]); (0x1D5, [0x1D6]); (0x1D7, [0x1D8]); (0x1D9, [0x1DA]);
   (0x1DB, [0x1DC]); (0x1DE, [0x1DF]); (0x1E0, [0x1E1]); (0x1E2, [0x1E3]);
   (0x1E4, [0x1E5]); (0x1E6, [0x1E7]); (0x1E8, [0x1E9]); (0x1EA, [0x1EB]);
   (0x1EC, [0x1ED]); (0x1EE, [0x1EF]); (0x1F1, [0x1F3]); (0x1F2, [0x1F3]);
   (0x1F4, [0x1F5]); (0x1F6, [0x195]); (0x1F7, [0x1BF]); (0x1F8, [0x1F9]);
   (0x1FA, [0x1FB]); (0x1FC, [0x1FD]); (0x1FE, [0x1FF]); (0x200, [0x201]);
   (0x202, [0x203]); (0x204, [0x205]); (0x206, [0x207]); (0x208, [0x209]);
   (0x20A, [0x20B]); (0x20C, [0x20D]); (0x20E, [0x20F]); (0x210, [0x211]);
   (0x212, [0x213]); (0x214, [0x215]); (0x216, [0x217]); (0x218, [0x219]);
   (0x21A, [0x21B]); (0x21C, [0x21D]); (0x21E, [0x21F]); (0x220, [0x19E]);
   (0x222, [0x223]); (0x224, [0x225]); (0x226, [0x227]); (0x228, [0x229]);
   (0x22A, [0x22B]); (0x22C, [0x22D]); (0x22E, [0x22F]); (0x230, [0x231]);
   (0x232, [0x233]); (0x23A, [0x2C65]); (0x23B, [0x23C]); (0x23D, [0x19A]);
   (0x23E, [0x2C66]); (0x241, [0x242]); (0x243, [0x180]); (0x244, [0x289]);
   (0x245, [0x28C]); (0x246, [0x247]); (0x248, [0x249]); (0x24A, [0x24B]);
   (0x24C, [0x24D]); (0x24E, [0x24F]); (0x370, [0x371]); (0x372, [0x373]);
   (0x376, [0x377]); (0x37F, [0x3F3]); (0x386, [0x3AC]); (0x388, [0x3AD]);
   (0x389, [0x3AE]); (0x38A, [0x3AF]); (0x38C, [0x3CC]); (0x38E, [0x3CD]);
   (0x38F, [0x3CE]); (0x391, [0x3B1]); (0x392, [0x3B2]); (0x393, [0x3B3]);
   (0x394, [0x3B4]); (0x395, [0x3B5]); (0x396, [0x3B6]); (0x397, [0x3B7]);
   (0x398, [0x3B8]); (0x399, [0x3B9]); (0x39A, [0x3BA]); (0x39B, [0x3BB]);
   (0x39C, [0x3BC]); (0x39D, [0x3BD]); (0x39E, [0x3BE]); (0x39F, [0x3BF]);
   (0x3A0, [0x3C0]); (0x3A1, [0x3C1]); (0x3A3, [0x3C3]); (0x3A4, [0x3C4]);
   (0x3A5, [0x3C5]); (0x3A6, [0x3C6]); (0x3A7, [0x3C7]); (0x3A8, [0x3C8]);
   (0x3A9, [0x3C9]); (0x3AA, [0x3CA]); (0x3AB, [0x3CB]); (0x3CF, [0x3D7]);
   (0x3D8, [0x3D9]); (0x3DA, [0x3DB]); (0x3DC, [0x3DD]); (0x3DE, [0x3DF]);
   (0x3E0, [0x3E1]); (0x3E2, [0x3E3]); (0x3E4, [0x3E5]); (0x3E6, [0x3E7]);
   (0x3E8, [0x3E9]); (0x3EA, [0x3EB]); (0x3EC, [0x3ED]); (0x3EE, [0x3EF]);
   (0x3F4, [0x3B8]); (0x3F7, [0x3F8]); (0x3F9, [0x3F2]); (0x3FA, [0x3FB]);
   (0x3FD, [0x37B]); (0x3FE, [0x37C]); (0x3FF, [0x37D]); (0x400, [0x450]);
   (0x401, [0x451]); (0x402, [0x452]); (0x403, [0x453]); (0x404, [0x454]);
   (0x405, [0x455]); (0x406, [0x456]); (0x407, [0x457]); (0x408, [0x458]);
   (0x409, [0x459]); (0x40A, [0x45A]); (0x40B, [0x45B]); (0x40C, [0x45C]);
   (0x40D, [0x45D]); (0x40E, [0x45E]); (0x40F, [0x45F]); (0x410, [0x430]);
   (0x411, [0x431]); (0x412, [0x432]); (0x413, [0x433]); (0x414, [0x434]);
   (0x415, [0x435]); (0x416, [0x436]); (0x417, [0x437]); (0x418, [0x438]);
   (0x419, [0x439]); (0x41A, [0x43A]); (0x41B, [0x43B]); (0x41C, [0x43C]);
   (0x41D, [0x43D]); (0x41E, [0x43E]); (0x41F, [0x43F]); (0x420, [0x440]);
   (0x421, [0x441]); (0x422, [0x442]); (0x423, [0x443]); (0x424, [0x444]);
   (0x425, [0x445]); (0x426, [0x446]); (0x427, [0x447]); (0x428, [0x448]);
   (0x429, [0x449]); (0x42A, [0x44A]); (0x42B, [0x44B]); (0x42C, [0x44C]);
   (0x42D, [0x44D]); (0x42E, [0x44E]); (0x42F, [0x44F]); (0x460, [0x461]);
   (0x462, [0x463]); (0x464, [0x465]); (0x466, [0x467]); (0x468, [0x469]);
   (0x46A, [0x46B]); (0x46C, [0x46D]); (0x46E, [0x46F]); (0x470, [0x471]);
   (0x472, [0x473]); (0x474, [0x475]); (0x476, [0x477]); (0x478, [0x479]);
   (0x47A, [0x47B]); (0x47C, [0x47D]); (0x47E, [0x47F]); (0x480, [0x481]);
   (0x48A, [0x48B]); (0x48C, [0x48D]); (0x48E, [0x48F]); (0x490, [0x491]);
   (0x492, [0x493]); (0x494, [0x495]); (0x496, [0x497]); (0x498, [0x499]);
   (0x49A, [0x49B]); (0x49C, [0x49D]); (0x49E, [0x49F]); (0x4A0, [0x4A1]);
   (0x4A2, [0x4A3]); (0x4A4, [0x4A5]); (0x4A6, [0x4A7]); (0x4A8, [0x4A9]);
   (0x4AA, [0x4AB]); (0x4AC, [0x4AD]); (0x4AE, [0x4AF]); (0x4B0, [0x4B1]);
   (0x4B2, [0x4B3]); (0x4B4, [0x4B5]); (0x4B6, [0x4B7]); (0x4B8, [0x4B9]);
   (0x4BA, [0x4BB]); (0x4BC, [0x4BD]); (0x4BE, [0x4BF]); (0x4C0, [0x4CF]);
   (0x4C1, [0x4C2]); (0x4C3, [0x4C4]); (0x4C5, [0x4C6]); (0x4C7, [0x4C8]);
   (0x4C9, [0x4CA]); (0x4CB, [0x4CC]); (0x4CD, [0x4CE]); (0x4D0, [0x4D1]);
   (0x4D2, [0x4D3]); (0x4D4, [0x4D5]); (0x4D6, [0x4D7]); (0x4D8, [0x4D9]);
   (0x4DA, [0x4DB]); (0x4DC, [0x4DD]); (0x4DE, [0x4DF]); (0x4E0, [0x4E1]);
   (0x4E2, [0x4E3]); (0x4E4, [0x4E5]); (0x4E6, [0x4E7]); (0x4E8, [0x4E9]);
   (0x4EA, [0x4EB]); (0x4EC, [0x4ED]); (0x4EE, [0x4EF]); (0x4F0, [0x4F1]);
   (0x4F2, [0x4F3]); (0x4F4, [0x4F5]); (0x4F6, [0x4F7]); (0x4F8, [0x4F9]);
   (0x4FA, [0x4FB]); (0x4FC, [0x4FD]); (0x4FE, [0x4FF]); (0x500, [0x501]);
   (0x502, [0x503]); (0x504, [0x505]); (0x506, [0x507]); (0x508, [0x509]);
   (0x50A, [0x50B]); (0x50C, [0x50D]); (0x50E, [0x50F]); (0x510, [0x511]);
   (0x512, [0x513]); (0x514, [0x515]); (0x516, [0x517]); (0x518, [0x519]);
   (0x51A, [0x51B]); (0x51C, [0x51D]); (0x51E, [0x51F]); (0x520, [0x521]);
   (0x522, [0x523]); (0x524, [0x525]); (0x526, [0x527]); (0x528, [0x529]);
   (0x52A, [0x52B]); (0x52C, [0x52D]); (0x52E, [0x52F]); (0x531, [0x561]);
   (0x532, [0x562]); (0x533, [0x563]); (0x534, [0x564]); (0x535, [0x565]);
   (0x536, [0x566]); (0x537, [0x567]); (0x538, [0x568]); (0x539, [0x569]);
   (0x53A, [0x56A]); (0x53B, [0x56B]); (0x53C, [0x56C]); (0x53D, [0x56D]);
   (0x53E, [0x56E]); (0x53F, [0x56F]); (0x540, [0x570]); (0x541, [0x571]);
   (0x542, [0x572]); (0x543, [0x573]); (0x544, [0x574]); (0x545, [0x575]);
   (0x546, [0x576]); (0x547, [0x577]); (0x548, [0x578]); (0x549, [0x579]);
   (0x54A, [0x57A]); (0x54B, [0x57B]); (0x54C, [0x57C]); (0x54D, [0x57D]);
   (0x54E, [0x57E]); (0x54F, [0x57F]); (0x550, [0x580]); (0x551, [0x581]);
   (0x552, [0x582]); (0x553, [0x583]); (0x554, [0x584]); (0x555, [0x585]);
   (0x556, [0x586]); (0x10A0, [0x2D00]); (0x10A1, [0x2D01]); (0x10A2, [0x2D02]);
   (0x10A3, [0x2D03]); (0x10A4, [0x2D04]); (0x10A5, [0x2D05]); (0x10A6, [0x2D06]);
   (0x10A7, [0x2D07]); (0x10A8, [0x2D08]); (0x10A9, [0x2D09]); (0x10AA, [0x2D0A]);
   (0x10AB, [0x2D0B]); (0x10AC, [0x2D0C]); (0x10AD, [0x2D0D]); (0x10AE, [0x2D0E]);
   (0x10AF, [0x2D0F]); (0x10B0, [0x2D10]); (0x10B1, [0x2D11]); (0x10B2, [0x2D12]);
   (0x10B3, [0x2D13]); (0x10B4, [0x2D14]); (0x10B5, [0x2D15]); (0x10B6, [0x2D16]);
   (0x10B7, [0x2D17]); (0x10B8, [0x2D18]); (0x10B9, [0x2D19]); (0x10BA, [0x2D1A]);
   (0x10BB, [0x2D1B]); (0x10BC, [0x2D1C]); (0x10BD, [0x2D1D]); (0x10BE, [0x2D1E]);
   (0x10BF, [0x2D1F]); (0x10C0, [0x2D20]); (0x10C1, [0x2D21]); (0x10C2, [0x2D22]);
   (0x10C3, [0x2D23]); (0x10C4, [0x2D24]); (0x10C5, [0x2D25]); (0x10C7, [0x2D27]);
   (0x10CD, [0x2D2D]); (0x13A0, [0xAB70]); (0x13A1, [0xAB71]); (0x13A2, [0xAB72]);
   (0x13A3, [0xAB73]); (0x13A4, [0xAB74]); (0x13A5, [0xAB75]); (0x13A6, [0xAB76]);
   (0x13A7, [0xAB77]); (0x13A8, [0xAB78]); (0x13A9, [0xAB79]); (0x13AA, [0xAB7A]);
   (0x13AB, [0xAB7B]); (0x13AC, [0xAB7C]); (0x13AD, [0xAB7D]); (0x13AE, [0xAB7E]);
   (0x13AF, [0xAB7F]); (0x13B0, [0xAB80]); (0x13B1, [0xAB81]); (0x13B2, [0xAB82]);
   (0x13B3, [0xAB83]); (0x13B4, [0xAB84]); (0x13B5, [0xAB85]); (0x13B6, [0xAB86]);
   (0x13B7, [0xAB87]); (0x13B8, [0xAB88]); (0x13B9, [0xAB89]); (0x13BA, [0xAB8A]);
   (0x13BB, [0xAB8B]); (0x13BC, [0xAB8C]); (0x13BD, [0xAB8D]); (0x13BE, [0xAB8E]);
   (0x13BF, [0xAB8F]); (0x13C0, [0xAB90]); (0x13C1, [0xAB91]); (0x13C2, [0xAB92]);
   (0x13C3, [0xAB93]); (0x13C4, [0xAB94]); (0x13C5, [0xAB95]); (0x13C6, [0xAB96]);
   (0x13C7, [0xAB97]); (0x13C8, [0xAB98]); (0x13C9, [0xAB99]); (0x13CA, [0xAB9A]);
   (0x13CB, [0xAB9B]); (0x13CC, [0xAB9C]); (0x13CD, [0xAB9D]); (0x13CE, [0xAB9E]);
   (0x13CF, [0xAB9F]); (0x13D0, [0xABA0]); (0x13D1, [0xABA1]); (0x13D2, [0xABA2]);
   (0x13D3, [0xABA3]); (0x13D4, [0xABA4]); (0x13D5, [0xABA5]); (0x13D6, [0xABA6]);
   (0x13D7, [0xABA7]); (0x13D8, [0xABA8]); (0x13D9, [0xABA9]); (0x13DA, [0xABAA]);
   (0x13DB, [0xABAB]); (0x13DC, [0xABAC]); (0x13DD, [0xABAD]); (0x13DE, [0xABAE]);
   (0x13DF, [0xABAF]); (0x13E0, [0xABB0]); (0x13E1, [0xABB1]); (0x13E2, [0xABB2]);
   (0x13E3, [0xABB3]); (0x13E4, [0xABB4]); (0x13E5, [0xABB5]); (0x13E6, [0xABB6]);
   (0x13E7, [0xABB7]); (0x13E8, [0xABB8]); (0x13E9, [0xABB9]); (0x13EA, [0xABBA]);
   (0x13EB, [0xABBB]); (0x13EC, [0xABBC]); (0x13ED, [0xABBD]); (0x13EE, [0xABBE]);
   (0x13EF, [0xABBF]); (0x13F0, [0x13F8]); (0x13F1, [0x13F9]); (0x13F2, [0x13FA]);
   (0x13F3, [0x13FB]); (0x13F4, [0x13FC]); (0x13F5, [0x13FD]); (0x1C90, [0x10D0]);
   (0x1C91, [0x10D1]); (0x1C92, [0x10D2]); (0x1C93, [0x10D3]); (0x1C94, [0x10D4]);
   (0x1C95, [0x10D5]); (0x1C96, [0x10D6]); (0x1C97, [0x10D7]); (0x1C98, [0x10D8]);
   (0x1C99, [0x10D9]); (0x1C9A, [0x10DA]); (0x1C9B, [0x10DB]); (0x1C9C, [0x10DC]);
   (0x1C9D, [0x10DD]); (0x1C9E, [0x10DE]); (0x1C9F, [0x10DF]); (0x1CA0, [0x10E0]);
   (0x1CA1, [0x10E1]); (0x1CA2, [0x10E2]); (0x1CA3, [0x10E3]); (0x1CA4, [0x10E4]);
   (0x1CA5, [0x10E5]); (0x1CA6, [0x10E6]); (0x1CA7, [0x10E7]); (0x1CA8, [0x10E8]);
   (0x1CA9, [0x10E9]); (0x1CAA, [0x10EA]); (0x1CAB, [0x10EB]); (0x1CAC, [0x10EC]);
   (0x1CAD, [0x10ED]); (0x1CAE, [0x10EE]); (0x1CAF, [0x10EF]); (0x1CB0, [0x10F0]);
   (0x1CB1, [0x10F1]); (0x1CB2, [0x10F2]); (0x1CB3, [0x10F3]); (0x1CB4, [0x10F4]);
   (0x1CB5, [0x10F5]); (0x1CB6, [0x10F6]); (0x1CB7, [0x10F7]); (0x1CB8, [0x10F8]);
   (0x1CB9, [0x10F9]); (0x1CBA, [0x10FA]); (0x1CBD, [0x10FD]); (0x1CBE, [0x10FE]);
   (0x1CBF, [0x10FF]); (0x1E00, [0x1E01]); (0x1E02, [0x1E03]); (0x1E04, [0x1E05]);
   (0x1E06, [0x1E07]); (0x1E08, [0x1E09]); (0x1E0A, [0x1E0B]); (0x1E0C, [0x1E0D]);
   (0x1E0E, [0x1E0F]); (0x1E10, [0x1E11]); (0x1E12, [0x1E13]); (0x1E14, [0x1E15]);
   (0x1E16, [0x1E17]); (0x1E18, [0x1E19]); (0x1E1A, [0x1E1B]); (0x1E1C, [0x1E1D]);
   (0x1E1E, [0x1E1F]); (0x1E20, [0x1E21]); (0x1E22, [0x1E23]); (0x1E24, [0x1E25]);
   (0x1E26, [0x1E27]); (0x1E28, [0x1E29]); (0x1E2A, [0x1E2B]); (0x1E2C, [0x1E2D]);
   (0x1E2E, [0x1E2F]); (0x1E30, [0x1E31]); (0x1E32, [0x1E33]); (0x1E34, [0x1E35]);
   (0x1E36, [0x1E37]); (0x1E38, [0x1E39]); (0x1E3A, [0x1E3B]); (0x1E3C, [0x1E3D]);
   (0x1E3E, [0x1E3F]); (0x1E40, [0x1E41]); (0x1E42, [0x1E43]); (0x1E44, [0x1E45]);
   (0x1E46, [0x1E47]); (0x1E48, [0x1E49]); (0x1E4A, [0x1E4B]); (0x1E4C, [0x1E4D]);
   (0x1E4E, [0x1E4F]); (0x1E50, [0x1E51]); (0x1E52, [0x1E53]); (0x1E54, [0x1E55]);
   (0x1E56, [0x1E57]); (0x1E58, [0x1E59]); (0x1E5A, [0x1E5B]); (0x1E5C, [0x1E5D]);
   (0x1E5E, [0x1E5F]); (0x1E60, [0x1E61]); (0x1E62, [0x1E63]); (0x1E64, [0x1E65]);
   (0x1E66, [0x1E67]); (0x1E68, [0x1E69]); (0x1E6A, [0x1E6B]); (0x1E6C, [0x1E6D]);
   (0x1E6E, [0x1E6F]); (0x1E70, [0x1E71]); (0x1E72, [0x1E73]); (0x1E74, [0x1E75]);
   (0x1E76, [0x1E77]); (0x1E78, [0x1E79]); (0x1E7A, [0x1E7B]); (0x1E7C, [0x1E7D]);
   (0x1E7E, [0x1E7F]); (0x1E80, [0x1E81]); (0x1E82, [0x1E83]); (0x1E84, [0x1E85]);
   (0x1E86, [0x1E87]); (0x1E88, [0x1E89]); (0x1E8A, [0x1E8B]); (0x1E8C, [0x1E8D]);
   (0x1E8E, [0x1E8F]); (0x1E90, [0x1E91]); (0x1E92, [0x1E93]); (0x1E94, [0x1E95]);
   (0x1E9E, [0xDF]); (0x1EA0, [0x1EA1]); (0x1EA2, [0x1EA3]); (0x1EA4, [0x1EA5]);
   (0x1EA6, [0x1EA7]); (0x1EA8, [0x1EA9]); (0x1EAA, [0x1EAB]); (0x1EAC, [0x1EAD]);
   (0x1EAE, [0x1EAF]); (0x1EB0, [0x1EB1]); (0x1EB2, [0x1EB3]); (0x1EB4, [0x1EB5]);
   (0x1EB6, [0x1EB7]); (0x1EB8, [0x1EB9]); (0x1EBA, [0x1EBB]); (0x1EBC, [0x1EBD]);
   (0x1EBE, [0x1EBF]); (0x1EC0, [0x1EC1]); (0x1EC2, [0x1EC3]); (0x1EC4, [0x1EC5]);
   (0x1EC6, [0x1EC7]); (0x1EC8, [0x1EC9]); (0x1ECA, [0x1ECB]); (0x1ECC, [0x1ECD]);
   (0x1ECE, [0x1ECF]); (0x1ED0, [0x1ED1]); (0x1ED2, [0x1ED3]); (0x1ED4, [0x1ED5]);
   (0x1ED6, [0x1ED7]); (0x1ED8, [0x1ED9]); (0x1EDA, [0x1EDB]); (0x1EDC, [0x1EDD]);
   (0x1EDE, [0x1EDF]); (0x1EE0, [0x1EE1]); (0x1EE2, [0x1EE3]); (0x1EE4, [0x1EE5]);
   (0x1EE6, [0x1EE7]); (0x1EE8, [0x1EE9]); (0x1EEA, [0x1EEB]); (0x1EEC, [0x1EED]);
   (0x1EEE, [0x1EEF]); (0x1EF0, [0x1EF1]); (0x1EF2, [0x1EF3]); (0x1EF4, [0x1EF5]);
   (0x1EF6, [0x1EF7]); (0x1EF8, [0x1EF9]); (0x1EFA, [0x1EFB]); (0x1EFC, [0x1EFD]);
   (0x1EFE, [0x1EFF]); (0x1F08, [0x1F00]); (0x1F09, [0x1F01]); (0x1F0A, [0x1F02]);
   (0x1F0B, [0x1F03]); (0x1F0C, [0x1F04]); (0x1F0D, [0x1F05]); (0x1F0E, [0x1F06]);
   (0x1F0F, [0x1F07]); (0x1F18, [0x1F10]); (0x1F19, [0x1F11]); (0x1F1A, [0x1F12]);
   (0x1F1B, [0x1F13]); (0x1F1C, [0x1F14]); (0x1F1D, [0x1F15]); (0x1F28, [0x1F20]);
   (0x1F29, [0x1F21]); (0x1F2A, [0x1F22]); (0x1F2B, [0x1F23]); (0x1F2C, [0x1F24]);
   (0x1F2D, [0x1F25]); (0x1F2E, [0x1F26]); (0x1F2F, [0x1F27]); (0x1F38, [0x1F30]);
   (0x1F39, [0x1F31]); (0x1F3A, [0x1F32]); (0x1F3B, [0x1F33]); (0x1F3C, [0x1F34]);
   (0x1F3D, [0x1F35]); (0x1F3E, [0x1F36]); (0x1F3F, [0x1F37]); (0x1F48, [0x1F40]);
   (0x1F49, [0x1F41]); (0x1F4A, [0x1F42]); (0x1F4B, [0x1F43]); (0x1F4C, [0x1F44]);
   (0x1F4D, [0x1F45]); (0x1F59, [0x1F51]); (0x1F5B, [0x1F53]); (0x1F5D, [0x1F55]);
   (0x1F5F, [0x1F57]); (0x1F68, [0x1F60]); (0x1F69, [0x1F61]); (0x1F6A, [0x1F62]);
   (0x1F6B, [0x1F63]); (0x1F6C, [0x1F64]); (0x1F6D, [0x1F65]); (0x1F6E, [0x1F66]);
   (0x1F6F, [0x1F67]); (0x1F88, [0x1F80]); (0x1F89, [0x1F81]); (0x1F8A, [0x1F82]);
   (0x1F8B, [0x1F83]); (0x1F8C, [0x1F84]); (0x1F8D, [0x1F85]); (0x1F8E, [0x1F86]);
   (0x1F8F, [0x1F87]); (0x1F98, [0x1F90]); (0x1F99, [0x1F91]); (0x1F9A, [0x1F92]);
   (0x1F9B, [0x1F93]); (0x1F9C, [0x1F94]); (0x1F9D, [0x1F95]); (0x1F9E, [0x1F96]);
   (0x1F9F, [0x1F97]); (0x1FA8, [0x1FA0]); (0x1FA9, [0x1FA1]); (0x1FAA, [0x1FA2]);
   (0x1FAB, [0x1FA3]); (0x1FAC, [0x1FA4]); (0x1FAD, [0x1FA5]); (0x1FAE, [0x1FA6]);
   (0x1FAF, [0x1FA7]); (0x1FB8, [0x1FB0]); (0x1FB9, [0x1FB1]); (0x1FBA, [0x1F70]);
   (0x1FBB, [0x1F71]); (0x1FBC, [0x1FB3]); (0x1FC8, [0x1F72]); (0x1FC9, [0x1F73]);
   (0x1FCA, [0x1F74]); (0x1FCB, [0x1F75]); (0x1FCC, [0x1FC3]); (0x1FD8, [0x1FD0]);
   (0x1FD9, [0x1FD1]); (0x1FDA, [0x1F76]); (0x1FDB, [0x1F77]); (0x1FE8, [0x1FE0]);
   (0x1FE9, [0x1FE1]); (0x1FEA, [0x1F7A]); (0x1FEB, [0x1F7B]); (0x1FEC, [0x1FE5]);
   (0x1FF8, [0x1F78]); (0x1FF9, [0x1F79]); (0x1FFA, [0x1F7C]); (0x1FFB, [0x1F7D]);
   (0x1FFC, [0x1FF3]); (0x2126, [0x3C9]); (0x212A, [0x6B]); (0x212B, [0xE5]);
   (0x2132, [0x214E]); (0x2160, [0x2170]); (0x2161, [0x2171]); (0x2162, [0x2172]);
   (0x2163, [0x2173]); (0x2164, [0x2174]); (0x2165, [0x2175]); (0x2166, [0x2176]);
   (0x2167, [0x2177]); (0x2168, [0x2178]); (0x2169, [0x2179]); (0x216A, [0x217A]);
   (0x216B, [0x217B]); (0x216C, [0x217C]); (0x216D, [0x217D]); (0x216E, [0x217E]);
   (0x216F, [0x217F]); (0x2183, [0x2184]); (0x24B6, [0x24D0]); (0x24B7, [0x24D1]);
   (0x24B8, [0x24D2]); (0x24B9, [0x24D3]); (0x24BA, [0x24D4]); (0x24BB, [0x24D5]);
   (0x24BC, [0x24D6]); (0x24BD, [0x24D7]); (0x24BE, [0x24D8]); (0x24BF, [0x24D9]);
   (0x24C0, [0x24DA]); (0x24C1, [0x24DB]); (0x24C2, [0x24DC]); (0x24C3, [0x24DD]);
   (0x24C4, [0x24DE]); (0x24C5, [0x24DF]); (0x24C6, [0x24E0]); (0x24C7, [0x24E1]);
   (0x24C8, [0x24E2]); (0x24C9, [0x24E3]); (0x24CA, [0x24E4]); (0x24CB, [0x24E5]);
   (0x24CC, [0x24E6]); (0x24CD, [0x24E7]); (0x24CE, [0x24E8]); (0x24CF, [0x24E9]);
   (0x2C00, [0x2C30]); (0x2C01, [0x2C31]); (0x2C02, [0x2C32]); (0x2C03, [0x2C33]);
   (0x2C04, [0x2C34]); (0x2C05, [0x2C35]); (0x2C06, [0x2C36]); (0x2C07, [0x2C37]);
   (0x2C08, [0x2C38]); (0x2C09, [0x2C39]); (0x2C0A, [0x2C3A]); (0x2C0B, [0x2C3B]);
   (0x2C0C, [0x2C3C]); (0x2C0D, [0x2C3D]); (0x2C0E, [0x2C3E]); (0x2C0F, [0x2C3F]);
   (0x2C10, [0x2C40]); (0x2C11, [0x2C41]); (0x2C12, [0x2C42]); (0x2C13, [0x2C43]);
   (0x2C14, [0x2C44]); (0x2C15, [0x2C45]); (0x2C16, [0x2C46]); (0x2C17, [0x2C47]);
   (0x2C18, [0x2C48]); (0x2C19, [0x2C49]); (0x2C1A, [0x2C4A]); (0x2C1B, [0x2C4B]);
   (0x2C1C, [0x2C4C]); (0x2C1D, [0x2C4D]); (0x2C1E, [0x2C4E]); (0x2C1F, [0x2C4F]);
   (0x2C20, [0x2C50]); (0x2C21, [0x2C51]); (0x2C22, [0x2C52]); (0x2C23, [0x2C53]);
   (0x2C24, [0x2C54]); (0x2C25, [0x2C55]); (0x2C26, [0x2C56]); (0x2C27, [0x2C57]);
   (0x2C28, [0x2C58]); (0x2C29, [0x2C59]); (0x2C2A, [0x2C5A]); (0x2C2B, [0x2C5B]);
   (0x2C2C, [0x2C5C]); (0x2C2D, [0x2C5D]); (0x2C2E, [0x2C5E]); (0x2C2F, [0x2C5F]);
   (0x2C60, [0x2C61]); (0x2C62, [0x26B]); (0x2C63, [0x1D7D]); (0x2C64, [0x27D]);
   (0x2C67, [0x2C68]); (0x2C69, [0x2C6A]); (0x2C6B, [0x2C6C]); (0x2C6D, [0x251]);
   (0x2C6E, [0x271]); (0x2C6F, [0x250]); (0x2C70, [0x252]); (0x2C72, [0x2C73]);
   (0x2C75, [0x2C76]); (0x2C7E, [0x23F]); (0x2C7F, [0x240]); (0x2C80, [0x2C81]);
   (0x2C82, [0x2C83]); (0x2C84, [0x2C85]); (0x2C86, [0x2C87]); (0x2C88, [0x2C89]);
   (0x2C8A, [0x2C8B]); (0x2C8C, [0x2C8D]); (0x2C8E, [0x2C8F]); (0x2C90, [0x2C91]);
   (0x2C92, [0x2C93]); (0x2C94, [0x2C95]); (0x2C96, [0x2C97]); (0x2C98, [0x2C99]);
   (0x2C9A, [0x2C9B]); (0x2C9C, [0x2C9D]); (0x2C9E, [0x2C9F]); (0x2CA0, [0x2CA1]);
   (0x2CA2, [0x2CA3]); (0x2CA4, [0x2CA5]); (0x2CA6, [0x2CA7]); (0x2CA8, [0x2CA9]);
   (0x2CAA, [0x2CAB]); (0x2CAC, [0x2CAD]); (0x2CAE, [0x2CAF]); (0x2CB0, [0x2CB1]);
   (0x2CB2, [0x2CB3]); (0x2CB4, [0x2CB5]); (0x2CB6, [0x2CB7]); (0x2CB8, [0x2CB9]);
   (0x2CBA, [0x2CBB]); (0x2CBC, [0x2CBD]); (0x2CBE, [0x2CBF]); (0x2CC0, [0x2CC1]);
   (0x2CC2, [0x2CC3]); (0x2CC4, [0x2CC5]); (0x2CC6, [0x2CC7]); (0x2CC8, [0x2CC9]);
   (0x2CCA, [0x2CCB]); (0x2CCC, [0x2CCD]); (0x2CCE, [0x2CCF]); (0x2CD0, [0x2CD1]);
   (0x2CD2, [0x2CD3]); (0x2CD4, [0x2CD5]); (0x2CD6, [0x2CD7]); (0x2CD8, [0x2CD9]);
   (0x2CDA, [0x2CDB]); (0x2CDC, [0x2CDD]); (0x2CDE, [0x2CDF]); (0x2CE0, [0x2CE1]);
   (0x2CE2, [0x2CE3]); (0x2CEB, [0x2CEC]); (0x2CED, [0x2CEE]); (0x2CF2, [0x2CF3]);
   (0xA640, [0xA641]); (0xA642, [0xA643]); (0xA644, [0xA645]); (0xA646, [0xA647]);
   (0xA648, [0xA649]); (0xA64A, [0xA64B]); (0xA64C, [0xA64D]); (0xA64E, [0xA64F]);
   (0xA650, [0xA651]); (0xA652, [0xA653]); (0xA654, [0xA655]); (0xA656, [0xA657]);
   (0xA658, [0xA659]); (0xA65A, [0xA65B]); (0xA65C, [0xA65D]); (0xA65E, [0xA65F]);
   (0xA660, [0xA661]); (0xA662, [0xA663]); (0xA664, [0xA665]); (0xA666, [0xA667]);
   (0xA668, [0xA669]); (0xA66A, [0xA66B]); (0xA66C, [0xA66D]); (0xA680, [0xA681]);
   (0xA682, [0xA683]); (0xA684, [0xA685]); (0xA686, [0xA687]); (0xA688, [0xA689]);
   (0xA68A, [0xA68B]); (0xA68C, [0xA68D]); (0xA68E, [0xA68F]); (0xA690, [0xA691]);
   (0xA692, [0xA693]); (0xA694, [0xA695]); (0xA696, [0xA697]); (0xA698, [0xA699]);
   (0xA69A, [0xA69B]); (0xA722, [0xA723]); (0xA724, [0xA725]); (0xA726, [0xA727]);
   (0xA728, [0xA729]); (0xA72A, [0xA72B]); (0xA72C, [0xA72D]); (0xA72E, [0xA72F]);
   (0xA732, [0xA733]); (0xA734, [0xA735]); (0xA736, [0xA737]); (0xA738, [0xA739]);
   (0xA73A, [0xA73B]); (0xA73C, [0xA73D]); (0xA73E, [0xA73F]); (0xA740, [0xA741]);
   (0xA742, [0xA743]); (0xA744, [0xA745]); (0xA746, [0xA747]); (0xA748, [0xA749]);
   (0xA74A, [0xA74B]); (0xA74C, [0xA74D]); (0xA74E, [0xA74F]); (0xA750, [0xA751]);
   (0xA752, [0xA753]); (0xA754, [0xA755]); (0xA756, [0xA757]); (0xA758, [0xA759]);
   (0xA75A, [0xA75B]); (0xA75C, [0xA75D]); (0xA75E, [0xA75F]); (0xA760, [0xA761]);
   (0xA762, [0xA763]); (0xA764, [0xA765]); (0xA766, [0xA767]); (0xA768, [0xA769]);
   (0xA76A, [0xA76B]); (0xA76C, [0xA76D]); (0xA76E, [0xA76F]); (0xA779, [0xA77A]);
   (0xA77B, [0xA77C]); (0xA77D, [0x1D79]); (0xA77E, [0xA77F]); (0xA780, [0xA781]);
   (0xA782, [0xA783]); (0xA784, [0xA785]); (0xA786, [0xA787]); (0xA78B, [0xA78C]);
   (0xA78D, [0x265]); (0xA790, [0xA791]); (0xA792, [0xA793]); (0xA796, [0xA797]);
   (0xA798, [0xA799]); (0xA79A, [0xA79B]); (0xA79C, [0xA79D]); (0xA79E, [0xA79F]);
   (0xA7A0, [0xA7A1]); (0xA7A2, [0xA7A3]); (0xA7A4, [0xA7A5]); (0xA7A6, [0xA7A7]);
   (0xA7A8, [0xA7A9]); (0xA7AA, [0x266]); (0xA7AB, [0x25C]); (0xA7AC, [0x261]);
   (0xA7AD, [0x26C]); (0xA7AE, [0x26A]); (0xA7B0, [0x29E]); (0xA7B1, [0x287]);
   (0xA7B2, [0x29D]); (0xA7B3, [0xAB53]); (0xA7B4, [0xA7B5]); (0xA7B6, [0xA7B7]);
   (0xA7B8, [0xA7B9]); (0xA7BA, [0xA7BB]); (0xA7BC, [0xA7BD]); (0xA7BE, [0xA7BF]);
   (0xA7C0, [0xA7C1]); (0xA7C2, [0xA7C3]); (0xA7C4, [0xA794]); (0xA7C5, [0x282]);
   (0xA7C6, [0x1D8E]); (0xA7C7, [0xA7C8]); (0xA7C9, [0xA7CA]); (0xA7D0, [0xA7D1]);
   (0xA7D6, [0xA7D7]); (0xA7D8, [0xA7D9]); (0xA7F5, [0xA7F6]); (0xFF21, [0xFF41]);
   (0xFF22, [0xFF42]); (0xFF23, [0xFF43]); (0xFF24, [0xFF44]); (0xFF25, [0xFF45]);
   (0xFF26, [0xFF46]); (0xFF27, [0xFF47]); (0xFF28, [0xFF48]); (0xFF29, [0xFF49]);
   (0xFF2A, [0xFF4A]); (0xFF2B, [0xFF4B]); (0xFF2C, [0xFF4C]); (0xFF2D, [0xFF4D]);
   (0xFF2E, [0xFF4E]); (0xFF2F, [0xFF4F]); (0xFF30, [0xFF50]); (0xFF31, [0xFF51]);
   (0xFF32, [0xFF52]); (0xFF33, [0xFF53]); (0xFF34, [0xFF54]); (0xFF35, [0xFF55]);
   (0xFF36, [0xFF56]); (0xFF37, [0xFF57]); (0xFF38, [0xFF58]); (0xFF39, [0xFF59]);
   (0xFF3A, [0xFF5A]); (0x10400, [0x10428]); (0x10401, [0x10429]); (0x10402, [0x1042A]);
   (0x10403, [0x1042B]); (0x10404, [0x1042C]); (0x10405, [0x1042D]); (0x10406, [0x1042E]);
   (0x10407, [0x1042F]); (0x10408, [0x10430]); (0x10409, [0x10431]); (0x1040A, [0x10432]);
   (0x1040B, [0x10433]); (0x1040C, [0x10434]); (0x1040D, [0x10435]); (0x1040E, [0x10436]);
   (0x1040F, [0x10437]); (0x10410, [0x10438]); (0x10411, [0x10439]); (0x10412, [0x1043A]);
   (0x10413, [0x1043B]); (0x10414, [0x1043C]); (0x10415, [0x1043D]); (0x10416, [0x1043E]);
   (0x10417, [0x1043F]); (0x10418, [0x10440]); (0x10419, [0x10441]); (0x1041A, [0x10442]);
   (0x1041B, [0x10443]); (0x1041C, [0x10444]); (0x1041D, [0x10445]); (0x1041E, [0x10446]);
   (0x1041F, [0x10447]); (0x10420, [0x10448]); (0x10421, [0x10449]); (0x10422, [0x1044A]);
   (0x10423, [0x1044B]); (0x10424, [0x1044C]); (0x10425, [0x1044D]); (0x10426, [0x1044E]);
   (0x10427, [0x1044F]); (0x104B0, [0x104D8]); (0x104B1, [0x104D9]); (0x104B2, [0x104DA]);
   (0x104B3, [0x104DB]); (0x104B4, [0x104DC]); (0x104B5, [0x104DD]); (0x104B6, [0x104DE]);
   (0x104B7, [0x104DF]); (0x104B8, [0x104E0]); (0x104B9, [0x104E1]); (0x104BA, [0x104E2]);
   (0x104BB, [0x104E3]); (0x104BC, [0x104E4]); (0x104BD, [0x104E5]); (0x104BE, [0x104E6]);
   (0x104BF, [0x104E7]); (0x104C0, [0x104E8]); (0x104C1, [0x104E9]); (0x104C2, [0x104EA]);
   (0x104C3, [0x104EB]); (0x104C4, [0x104EC]); (0x104C5, [0x104ED]); (0x104C6, [0x104EE]);
   (0x104C7, [0x104EF]); (0x104C8, [0x104F0]); (0x104C9, [0x104F1]); (0x104CA, [0x104F2]);
   (0x104CB, [0x104F3]); (0x104CC, [0x104F4]); (0x104CD, [0x104F5]); (0x104CE, [0x104F6]);
   (0x104CF, [0x104F7]); (0x104D0, [0x104F8]); (0x104D1, [0x104F9]); (0x104D2, [0x104FA]);
   (0x104D3, [0x104FB]); (0x10570, [0x10597]); (0x10571, [0x10598]); (0x10572, [0x10599]);
   (0x10573, [0x1059A]); (0x10574, [0x1059B]); (0x10575, [0x1059C]); (0x10576, [0x1059D]);
   (0x10577, [0x1059E]); (0x10578, [0x1059F]); (0x10579, [0x105A0]); (0x1057A, [0x105A1]);
   (0x1057C, [0x105A3]); (0x1057D, [0x105A4]); (0x1057E, [0x105A5]); (0x1057F, [0x105A6]);
   (0x10580, [0x105A7]); (0x10581, [0x105A8]); (0x10582, [0x105A9]); (0x10583, [0x105AA]);
   (0x10584, [0x105AB]); (0x10585, [0x105AC]); (0x10586, [0x105AD]); (0x10587, [0x105AE]);
   (0x10588, [0x105AF]); (0x10589, [0x105B0]); (0x1058A, [0x105B1]); (0x1058C, [0x105B3]);
   (0x1058D, [0x105B4]); (0x1058E, [0x105B5]); (0x1058F, [0x105B6]); (0x10590, [0x105B7]);
   (0x10591, [0x105B8]); (0x10592, [0x105B9]); (0x10594, [0x105BB]); (0x10595, [0x105BC]);
   (0x10C80, [0x10CC0]); (0x10C81, [0x10CC1]); (0x10C82, [0x10CC2]); (0x10C83, [0x10CC3]);
   (0x10C84, [0x10CC4]); (0x10C85, [0x10CC5]); (0x10C86, [0x10CC6]); (0x10C87, [0x10CC7]);
   (0x10C88, [0x10CC8]); (0x10C89, [0x10CC9]); (0x10C8A, [0x10CCA]); (0x10C8B, [0x10CCB]);
   (0x10C8C, [0x10CCC]); (0x10C8D, [0x10CCD]); (0x10C8E, [0x10CCE]); (0x10C8F, [0x10CCF]);
   (0x10C90, [0x10CD0]); (0x10C91, [0x10CD1]); (0x10C92, [0x10CD2]); (0x10C93, [0x10CD3]);
   (0x10C94, [0x10CD4]); (0x10C95, [0x10CD5]); (0x10C96, [0x10CD6]); (0x10C97, [0x10CD7]);
   (0x10C98, [0x10CD8]); (0x10C99, [0x10CD9]); (0x10C9A, [0x10CDA]); (0x10C9B, [0x10CDB]);
   (0x10C9C, [0x10CDC]); (0x10C9D, [0x10CDD]); (0x10C9E, [0x10CDE]); (0x10C9F, [0x10CDF]);
   (0x10CA0, [0x10CE0]); (0x10CA1, [0x10CE1]); (0x10CA2, [0x10CE2]); (0x10CA3, [0x10CE3]);
   (0x10CA4, [0x10CE4]); (0x10CA5, [0x10CE5]); (0x10CA6, [0x10CE6]); (0x10CA7, [0x10CE7]);
   (0x10CA8, [0x10CE8]); (0x10CA9, [0x10CE9]); (0x10CAA, [0x10CEA]); (0x10CAB, [0x10CEB]);
   (0x10CAC, [0x10CEC]); (0x10CAD, [0x10CED]); (0x10CAE, [0x10CEE]); (0x10CAF, [0x10CEF]);
   (0x10CB0, [0x10CF0]); (0x10CB1, [0x10CF1]); (0x10CB2, [0x10CF2]); (0x118A0, [0x118C0]);
   (0x118A1, [0x118C1]); (0x118A2, [0x118C2]); (0x118A3, [0x118C3]); (0x118A4, [0x118C4]);
   (0x118A5, [0x118C5]); (0x118A6, [0x118C6]); (0x118A7, [0x118C7]); (0x118A8, [0x118C8]);
   (0x118A9, [0x118C9]); (0x118AA, [0x118CA]); (0x118AB, [0x118CB]); (0x118AC, [0x118CC]);
   (0x118AD, [0x118CD]); (0x118AE, [0x118CE]); (0x118AF, [0x118CF]); (0x118B0, [0x118D0]);
   (0x118B1, [0x118D1]); (0x118B2, [0x118D2]); (0x118B3, [0x118D3]); (0x118B4, [0x118D4]);
   (0x118B5, [0x118D5]); (0x118B6, [0x118D6]); (0x118B7, [0x118D7]); (0x118B8, [0x118D8]);
   (0x118B9, [0x118D9]); (0x118BA, [0x118DA]); (0x118BB, [0x118DB]); (0x118BC, [0x118DC]);
   (0x118BD, [0x118DD]); (0x118BE, [0x118DE]); (0x118BF, [0x118DF]); (0x16E40, [0x16E60]);
   (0x16E41, [0x16E61]); (0x16E42, [0x16E62]); (0x16E43, [0x16E63]); (0x16E44, [0x16E64]);
   (0x16E45, [0x16E65]); (0x16E46, [0x16E66]); (0x16E47, [0x16E67]); (0x16E48, [0x16E68]);
   (0x16E49, [0x16E69]); (0x16E4A, [0x16E6A]); (0x16E4B, [0x16E6B]); (0x16E4C, [0x16E6C]);
   (0x16E4D, [0x16E6D]); (0x16E4E, [0x16E6E]); (0x16E4F, [0x16E6F]); (0x16E50, [0x16E70]);
   (0x16E51, [0x16E71]); (0x16E52, [0x16E72]); (0x16E53, [0x16E73]); (0x16E54, [0x16E74]);
   (0x16E55, [0x16E75]); (0x16E56, [0x16E76]); (0x16E57, [0x16E77]); (0x16E58, [0x16E78]);
   (0x16E59, [0x16E79]); (0x16E5A, [0x16E7A]); (0x16E5B, [0x16E7B]); (0x16E5C, [0x16E7C]);
   (0x16E5D, [0x16E7D]); (0x16E5E, [0x16E7E]); (0x16E5F, [0x16E7F]); (0x1E900, [0x1E922]);
   (0x1E901, [0x1E923]); (0x1E902, [0x1E924]); (0x1E903, [0x1E925]); (0x1E904, [0x1E926]);
   (0x1E905, [0x1E927]); (0x1E906, [0x1E928]); (0x1E907, [0x1E929]); (0x1E908, [0x1E92A]);
   (0x1E909, [0x1E92B]); (0x1E90A, [0x1E92C]); (0x1E90B, [0x1E92D]); (0x1E90C, [0x1E92E]);
   (0x1E90D, [0x1E92F]); (0x1E90E, [0x1E930]); (0x1E90F, [0x1E931]); (0x1E910, [0x1E932]);
   (0x1E911, [0x1E933]); (0x1E912, [0x1E934]); (0x1E913, [0x1E935]); (0x1E914, [0x1E936]);
   (0x1E915, [0x1E937]); (0x1E916, [0x1E938]); (0x1E917, [0x1E939]); (0x1E918, [0x1E93A]);
   (0x1E919, [0x1E93B]); (0x1E91A, [0x1E93C]); (0x1E91B, [0x1E93D]); (0x1E91C, [0x1E93E]);
   (0x1E91D, [0x1E93F]); (0x1E91E, [0x1E940]); (0x1E91F, [0x1E941]); (0x1E920, [0x1E942]);
   (0x1E921, [0x1E943])
  ]%N.

(** The code points with the property Cased, as ranges. *)
Definition cased_ranges : list (N * N) :=
  [
   (0x41, 0x5A); (0x61, 0x7A); (0xAA, 0xAA); (0xB5, 0xB5); (0xBA, 0xBA); (0xC0, 0xD6);
   (0xD8, 0xF6); (0xF8, 0x1BA); (0x1BC, 0x1BF); (0x1C4, 0x293); (0x295, 0x2B8); (0x2C0, 0x2C1);
   (0x2E0, 0x2E4); (0x345, 0x345); (0x370, 0x373); (0x376, 0x377); (0x37A, 0x37D); (0x37F, 0x37F);
   (0x386, 0x386); (0x388, 0x38A); (0x38C, 0x38C); (0x38E, 0x3A1); (0x3A3, 0x3F5); (0x3F7, 0x481);
   (0x48A, 0x52F); (0x531, 0x556); (0x560, 0x588); (0x10A0, 0x10C5); (0x10C7, 0x10C7); (0x10CD, 0x10CD);
   (0x10D0, 0x10FA); (0x10FD, 0x10FF); (0x13A0, 0x13F5); (0x13F8, 0x13FD); (0x1C80, 0x1C88); (0x1C90, 0x1CBA);
   (0x1CBD, 0x1CBF); (0x1D00, 0x1DBF); (0x1E00, 0x1F15); (0x1F18, 0x1F1D); (0x1F20, 0x1F45); (0x1F48, 0x1F4D);
   (0x1F50, 0x1F57); (0x1F59, 0x1F59); (0x1F5B, 0x1F5B); (0x1F5D, 0x1F5D); (0x1F5F, 0x1F7D); (0x1F80, 0x1FB4);
   (0x1FB6, 0x1FBC); (0x1FBE, 0x1FBE); (0x1FC2, 0x1FC4); (0x1FC6, 0x1FCC); (0x1FD0, 0x1FD3); (0x1FD6, 0x1FDB);
   (0x1FE0, 0x1FEC); (0x1FF2, 0x1FF4); (0x1FF6, 0x1FFC); (0x2071, 0x2071); (0x207F, 0x207F); (0x2090, 0x209C);
   (0x2102, 0x2102); (0x2107, 0x2107); (0x210A, 0x2113); (0x2115, 0x2115); (0x2119, 0x211D); (0x2124, 0x2124);
   (0x2126, 0x2126); (0x2128, 0x2128); (0x212A, 0x212D); (0x212F, 0x2134); (0x2139, 0x2139); (0x213C, 0x213F);
   (0x2145, 0x2149); (0x214E, 0x214E); (0x2160, 0x217F); (0x2183, 0x2184); (0x24B6, 0x24E9); (0x2C00, 0x2CE4);
   (0x2CEB, 0x2CEE); (0x2CF2, 0x2CF3); (0x2D00, 0x2D25); (0x2D27, 0x2D27); (0x2D2D, 0x2D2D); (0xA640, 0xA66D);
   (0xA680, 0xA69D); (0xA722, 0xA787); (0xA78B, 0xA78E); (0xA790, 0xA7CA); (0xA7D0, 0xA7D1); (0xA7D3, 0xA7D3);
   (0xA7D5, 0xA7D9); (0xA7F5, 0xA7F6); (0xA7F8, 0xA7FA); (0xAB30, 0xAB5A); (0xAB5C, 0xAB68); (0xAB70, 0xABBF);
   (0xFB00, 0xFB06); (0xFB13, 0xFB17); (0xFF21, 0xFF3A); (0xFF41, 0xFF5A); (0x10400, 0x1044F); (0x104B0, 0x104D3);
   (0x104D8, 0x104FB); (0x10570, 0x1057A); (0x1057C, 0x1058A); (0x1058C, 0x10592); (0x10594, 0x10595); (0x10597, 0x105A1);
   (0x105A3, 0x105B1); (0x105B3, 0x105B9); (0x105BB, 0x105BC); (0x10780, 0x10780); (0x10783, 0x10785); (0x10787, 0x107B0);
   (0x107B2, 0x107BA); (0x10C80, 0x10CB2); (0x10CC0, 0x10CF2); (0x118A0, 0x118DF); (0x16E40, 0x16E7F); (0x1D400, 0x1D454);
   (0x1D456, 0x1D49C); (0x1D49E, 0x1D49F); (0x1D4A2, 0x1D4A2); (0x1D4A5, 0x1D4A6); (0x1D4A9, 0x1D4AC); (0x1D4AE, 0x1D4B9);
   (0x1D4BB, 0x1D4BB); (0x1D4BD, 0x1D4C3); (0x1D4C5, 0x1D505); (0x1D507, 0x1D50A); (0x1D50D, 0x1D514); (0x1D516, 0x1D51C);
   (0x1D51E, 0x1D539); (0x1D53B, 0x1D53E); (0x1D540, 0x1D544); (0x1D546, 0x1D546); (0x1D54A, 0x1D550); (0x1D552, 0x1D6A5);
   (0x1D6A8, 0x1D6C0); (0x1D6C2, 0x1D6DA); (0x1D6DC, 0x1D6FA); (0x1D6FC, 0x1D714); (0x1D716, 0x1D734); (0x1D736, 0x1D74E);
   (0x1D750, 0x1D76E); (0x1D770, 0x1D788); (0x1D78A, 0x1D7A8); (0x1D7AA, 0x1D7C2); (0x1D7C4, 0x1D7CB); (0x1DF00, 0x1DF09);
   (0x1DF0B, 0x1DF1E); (0x1E900, 0x1E943); (0x1F130, 0x1F149); (0x1F150, 0x1F169); (0x1F170, 0x1F189)
  ]%N.

(** The code points with the property Case_Ignorable, as ranges. *)
Definition case_ignorable_ranges : list (N * N) :=
  [
   (0x27, 0x27); (0x2E, 0x2E); (0x3A, 0x3A); (0x5E, 0x5E); (0x60, 0x60); (0xA8, 0xA8);
   (0xAD, 0xAD); (0xAF, 0xAF); (0xB4, 0xB4); (0xB7, 0xB8); (0x2B0, 0x36F); (0x374, 0x375);
   (0x37A, 0x37A); (0x384, 0x385); (0x387, 0x387); (0x483, 0x489); (0x559, 0x559); (0x55F, 0x55F);
   (0x591, 0x5BD); (0x5BF, 0x5BF); (0x5C1, 0x5C2); (0x5C4, 0x5C5); (0x5C7, 0x5C7); (0x5F4, 0x5F4);
   (0x600, 0x605); (0x610, 0x61A); (0x61C, 0x61C); (0x640, 0x640); (0x64B, 0x65F); (0x670, 0x670);
   (0x6D6, 0x6DD); (0x6DF, 0x6E8); (0x6EA, 0x6ED); (0x70F, 0x70F); (0x711, 0x711); (0x730, 0x74A);
   (0x7A6, 0x7B0); (0x7EB, 0x7F5); (0x7FA, 0x7FA); (0x7FD, 0x7FD); (0x816, 0x82D); (0x859, 0x85B);
   (0x888, 0x888); (0x890, 0x891); (0x898, 0x89F); (0x8C9, 0x902); (0x93A, 0x93A); (0x93C, 0x93C);
   (0x941, 0x948); (0x94D, 0x94D); (0x951, 0x957); (0x962, 0x963); (0x971, 0x971); (0x981, 0x981);
   (0x9BC, 0x9BC); (0x9C1, 0x9C4); (0x9CD, 0x9CD); (0x9E2, 0x9E3); (0x9FE, 0x9FE); (0xA01, 0xA02);
   (0xA3C, 0xA3C); (0xA41, 0xA42); (0xA47, 0xA48); (0xA4B, 0xA4D); (0xA51, 0xA51); (0xA70, 0xA71);
   (0xA75, 0xA75); (0xA81, 0xA82); (0xABC, 0xABC); (0xAC1, 0xAC5); (0xAC7, 0xAC8); (0xACD, 0xACD);
   (0xAE2, 0xAE3); (0xAFA, 0xAFF); (0xB01, 0xB01); (0xB3C, 0xB3C); (0xB3F, 0xB3F); (0xB41, 0xB44);
   (0xB4D, 0xB4D); (0xB55, 0xB56); (0xB62, 0xB63); (0xB82, 0xB82); (0xBC0, 0xBC0); (0xBCD, 0xBCD);
   (0xC00, 0xC00); (0xC04, 0xC04); (0xC3C, 0xC3C); (0xC3E, 0xC40); (0xC46, 0xC48); (0xC4A, 0xC4D);
   (0xC55, 0xC56); (0xC62, 0xC63); (0xC81, 0xC81); (0xCBC, 0xCBC); (0xCBF, 0xCBF); (0xCC6, 0xCC6);
   (0xCCC, 0xCCD); (0xCE2, 0xCE3); (0xD00, 0xD01); (0xD3B, 0xD3C); (0xD41, 0xD44); (0xD4D, 0xD4D);
   (0xD62, 0xD63); (0xD81, 0xD81); (0xDCA, 0xDCA); (0xDD2, 0xDD4); (0xDD6, 0xDD6); (0xE31, 0xE31);
   (0xE34, 0xE3A); (0xE46, 0xE4E); (0xEB1, 0xEB1); (0xEB4, 0xEBC); (0xEC6, 0xEC6); (0xEC8, 0xECD);
   (0xF18, 0xF19); (0xF35, 0xF35); (0xF37, 0xF37); (0xF39, 0xF39); (0xF71, 0xF7E); (0xF80, 0xF84);
   (0xF86, 0xF87); (0xF8D, 0xF97); (0xF99, 0xFBC); (0xFC6, 0xFC6); (0x102D, 0x1030); (0x1032, 0x1037);
   (0x1039, 0x103A); (0x103D, 0x103E); (0x1058, 0x1059); (0x105E, 0x1060); (0x1071, 0x1074); (0x1082, 0x1082);
   (0x1085, 0x1086); (0x108D, 0x108D); (0x109D, 0x109D); (0x10FC, 0x10FC); (0x135D, 0x135F); (0x1712, 0x1714);
   (0x1732, 0x1733); (0x1752, 0x1753); (0x1772, 0x1773); (0x17B4, 0x17B5); (0x17B7, 0x17BD); (0x17C6, 0x17C6);
   (0x17C9, 0x17D3); (0x17D7, 0x17D7); (0x17DD, 0x17DD); (0x180B, 0x180F); (0x1843, 0x1843); (0x1885, 0x1886);
   (0x18A9, 0x18A9); (0x1920, 0x1922); (0x1927, 0x1928); (0x1932, 0x1932); (0x1939, 0x193B); (0x1A17, 0x1A18);
   (0x1A1B, 0x1A1B); (0x1A56, 0x1A56); (0x1A58, 0x1A5E); (0x1A60, 0x1A60); (0x1A62, 0x1A62); (0x1A65, 0x1A6C);
   (0x1A73, 0x1A7C); (0x1A7F, 0x1A7F); (0x1AA7, 0x1AA7); (0x1AB0, 0x1ACE); (0x1B00, 0x1B03); (0x1B34, 0x1B34);
   (0x1B36, 0x1B3A); (0x1B3C, 0x1B3C); (0x1B42, 0x1B42); (0x1B6B, 0x1B73); (0x1B80, 0x1B81); (0x1BA2, 0x1BA5);
   (0x1BA8, 0x1BA9); (0x1BAB, 0x1BAD); (0x1BE6, 0x1BE6); (0x1BE8, 0x1BE9); (0x1BED, 0x1BED); (0x1BEF, 0x1BF1);
   (0x1C2C, 0x1C33); (0x1C36, 0x1C37); (0x1C78, 0x1C7D); (0x1CD0, 0x1CD2); (0x1CD4, 0x1CE0); (0x1CE2, 0x1CE8);
   (0x1CED, 0x1CED); (0x1CF4, 0x1CF4); (0x1CF8, 0x1CF9); (0x1D2C, 0x1D6A); (0x1D78, 0x1D78); (0x1D9B, 0x1DFF);
   (0x1FBD, 0x1FBD); (0x1FBF, 0x1FC1); (0x1FCD, 0x1FCF); (0x1FDD, 0x1FDF); (0x1FED, 0x1FEF); (0x1FFD, 0x1FFE);
   (0x200B, 0x200F); (0x2018, 0x2019); (0x2024, 0x2024); (0x2027, 0x2027); (0x202A, 0x202E); (0x2060, 0x2064);
   (0x2066, 0x206F); (0x2071, 0x2071); (0x207F, 0x207F); (0x2090, 0x209C); (0x20D0, 0x20F0); (0x2C7C, 0x2C7D);
   (0x2CEF, 0x2CF1); (0x2D6F, 0x2D6F); (0x2D7F, 0x2D7F); (0x2DE0, 0x2DFF); (0x2E2F, 0x2E2F); (0x3005, 0x3005);
   (0x302A, 0x302D); (0x3031, 0x3035); (0x303B, 0x303B); (0x3099, 0x309E); (0x30FC, 0x30FE); (0xA015, 0xA015);
   (0xA4F8, 0xA4FD); (0xA60C, 0xA60C); (0xA66F, 0xA672); (0xA674, 0xA67D); (0xA67F, 0xA67F); (0xA69C, 0xA69F);
   (0xA6F0, 0xA6F1); (0xA700, 0xA721); (0xA770, 0xA770); (0xA788, 0xA78A); (0xA7F2, 0xA7F4); (0xA7F8, 0xA7F9);
   (0xA802, 0xA802); (0xA806, 0xA806); (0xA80B, 0xA80B); (0xA825, 0xA826); (0xA82C, 0xA82C); (0xA8C4, 0xA8C5);
   (0xA8E0, 0xA8F1); (0xA8FF, 0xA8FF); (0xA926, 0xA92D); (0xA947, 0xA951); (0xA980, 0xA982); (0xA9B3, 0xA9B3);
   (0xA9B6, 0xA9B9); (0xA9BC, 0xA9BD); (0xA9CF, 0xA9CF); (0xA9E5, 0xA9E6); (0xAA29, 0xAA2E); (0xAA31, 0xAA32);
   (0xAA35, 0xAA36); (0xAA43, 0xAA43); (0xAA4C, 0xAA4C); (0xAA70, 0xAA70); (0xAA7C, 0xAA7C); (0xAAB0, 0xAAB0);
   (0xAAB2, 0xAAB4); (0xAAB7, 0xAAB8); (0xAABE, 0xAABF); (0xAAC1, 0xAAC1); (0xAADD, 0xAADD); (0xAAEC, 0xAAED);
   (0xAAF3, 0xAAF4); (0xAAF6, 0xAAF6); (0xAB5B, 0xAB5F); (0xAB69, 0xAB6B); (0xABE5, 0xABE5); (0xABE8, 0xABE8);
   (0xABED, 0xABED); (0xFB1E, 0xFB1E); (0xFBB2, 0xFBC2); (0xFE00, 0xFE0F); (0xFE13, 0xFE13); (0xFE20, 0xFE2F);
   (0xFE52, 0xFE52); (0xFE55, 0xFE55); (0xFEFF, 0xFEFF); (0xFF07, 0xFF07); (0xFF0E, 0xFF0E); (0xFF1A, 0xFF1A);
   (0xFF3E, 0xFF3E); (0xFF40, 0xFF40); (0xFF70, 0xFF70); (0xFF9E, 0xFF9F); (0xFFE3, 0xFFE3); (0xFFF9, 0xFFFB);
   (0x101FD, 0x101FD); (0x102E0, 0x102E0); (0x10376, 0x1037A); (0x10780, 0x10785); (0x10787, 0x107B0); (0x107B2, 0x107BA);
   (0x10A01, 0x10A03); (0x10A05, 0x10A06); (0x10A0C, 0x10A0F); (0x10A38, 0x10A3A); (0x10A3F, 0x10A3F); (0x10AE5, 0x10AE6);
   (0x10D24, 0x10D27); (0x10EAB, 0x10EAC); (0x10F46, 0x10F50); (0x10F82, 0x10F85); (0x11001, 0x11001); (0x11038, 0x11046);
   (0x11070, 0x11070); (0x11073, 0x11074); (0x1107F, 0x11081); (0x110B3, 0x110B6); (0x110B9, 0x110BA); (0x110BD, 0x110BD);
   (0x110C2, 0x110C2); (0x110CD, 0x110CD); (0x11100, 0x11102); (0x11127, 0x1112B); (0x1112D, 0x11134); (0x11173, 0x11173);
   (0x11180, 0x11181); (0x111B6, 0x111BE); (0x111C9, 0x111CC); (0x111CF, 0x111CF); (0x1122F, 0x11231); (0x11234, 0x11234);
   (0x11236, 0x11237); (0x1123E, 0x1123E); (0x112DF, 0x112DF); (0x112E3, 0x112EA); (0x11300, 0x11301); (0x1133B, 0x1133C);
   (0x11340, 0x11340); (0x11366, 0x1136C); (0x11370, 0x11374); (0x11438, 0x1143F); (0x11442, 0x11444); (0x11446, 0x11446);
   (0x1145E, 0x1145E); (0x114B3, 0x114B8); (0x114BA, 0x114BA); (0x114BF, 0x114C0); (0x114C2, 0x114C3); (0x115B2, 0x115B5);
   (0x115BC, 0x115BD); (0x115BF, 0x115C0); (0x115DC, 0x115DD); (0x11633, 0x1163A); (0x1163D, 0x1163D); (0x1163F, 0x11640);
   (0x116AB, 0x116AB); (0x116AD, 0x116AD); (0x116B0, 0x116B5); (0x116B7, 0x116B7); (0x1171D, 0x1171F); (0x11722, 0x11725);
   (0x11727, 0x1172B); (0x1182F, 0x11837); (0x11839, 0x1183A); (0x1193B, 0x1193C); (0x1193E, 0x1193E); (0x11943, 0x11943);
   (0x119D4, 0x119D7); (0x119DA, 0x119DB); (0x119E0, 0x119E0); (0x11A01, 0x11A0A); (0x11A33, 0x11A38); (0x11A3B, 0x11A3E);
   (0x11A47, 0x11A47); (0x11A51, 0x11A56); (0x11A59, 0x11A5B); (0x11A8A, 0x11A96); (0x11A98, 0x11A99); (0x11C30, 0x11C36);
   (0x11C38, 0x11C3D); (0x11C3F, 0x11C3F); (0x11C92, 0x11CA7); (0x11CAA, 0x11CB0); (0x11CB2, 0x11CB3); (0x11CB5, 0x11CB6);
   (0x11D31, 0x11D36); (0x11D3A, 0x11D3A); (0x11D3C, 0x11D3D); (0x11D3F, 0x11D45); (0x11D47, 0x11D47); (0x11D90, 0x11D91);
   (0x11D95, 0x11D95); (0x11D97, 0x11D97); (0x11EF3, 0x11EF4); (0x13430, 0x13438); (0x16AF0, 0x16AF4); (0x16B30, 0x16B36);
   (0x16B40, 0x16B43); (0x16F4F, 0x16F4F); (0x16F8F, 0x16F9F); (0x16FE0, 0x16FE1); (0x16FE3, 0x16FE4); (0x1AFF0, 0x1AFF3);
   (0x1AFF5, 0x1AFFB); (0x1AFFD, 0x1AFFE); (0x1BC9D, 0x1BC9E); (0x1BCA0, 0x1BCA3); (0x1CF00, 0x1CF2D); (0x1CF30, 0x1CF46);
   (0x1D167, 0x1D169); (0x1D173, 0x1D182); (0x1D185, 0x1D18B); (0x1D1AA, 0x1D1AD); (0x1D242, 0x1D244); (0x1DA00, 0x1DA36);
   (0x1DA3B, 0x1DA6C); (0x1DA75, 0x1DA75); (0x1DA84, 0x1DA84); (0x1DA9B, 0x1DA9F); (0x1DAA1, 0x1DAAF); (0x1E000, 0x1E006);
   (0x1E008, 0x1E018); (0x1E01B, 0x1E021); (0x1E023, 0x1E024); (0x1E026, 0x1E02A); (0x1E130, 0x1E13D); (0x1E2AE, 0x1E2AE);
   (0x1E2EC, 0x1E2EF); (0x1E8D0, 0x1E8D6); (0x1E944, 0x1E94B); (0x1F3FB, 0x1F3FF); (0xE0001, 0xE0001); (0xE0020, 0xE007F);
   (0xE0100, 0xE01EF)
  ]%N.

(** The code points with the property Uppercase, as ranges: those on which
    [str.isupper] is true. *)
Definition uppercase_ranges : list (N * N) :=
  [
   (0x41, 0x5A); (0xC0, 0xD6); (0xD8, 0xDE); (0x100, 0x100); (0x102, 0x102); (0x104, 0x104);
   (0x106, 0x106); (0x108, 0x108); (0x10A, 0x10A); (0x10C, 0x10C); (0x10E, 0x10E); (0x110, 0x110);
   (0x112, 0x112); (0x114, 0x114); (0x116, 0x116); (0x118, 0x118); (0x11A, 0x11A); (0x11C, 0x11C);
   (0x11E, 0x11E); (0x120, 0x120); (0x122, 0x122); (0x124, 0x124); (0x126, 0x126); (0x128, 0x128);
   (0x12A, 0x12A); (0x12C, 0x12C); (0x12E, 0x12E); (0x130, 0x130); (0x132, 0x132); (0x134, 0x134);
   (0x136, 0x136); (0x139, 0x139); (0x13B, 0x13B); (0x13D, 0x13D); (0x13F, 0x13F); (0x141, 0x141);
   (0x143, 0x143); (0x145, 0x145); (0x147, 0x147); (0x14A, 0x14A); (0x14C, 0x14C); (0x14E, 0x14E);
   (0x150, 0x150); (0x152, 0x152); (0x154, 0x154); (0x156, 0x156); (0x158, 0x158); (0x15A, 0x15A);
   (0x15C, 0x15C); (0x15E, 0x15E); (0x160, 0x160); (0x162, 0x162); (0x164, 0x164); (0x166, 0x166);
   (0x168, 0x168); (0x16A, 0x16A); (0x16C, 0x16C); (0x16E, 0x16E); (0x170, 0x170); (0x172, 0x172);
   (0x174, 0x174); (0x176, 0x176); (0x178, 0x179); (0x17B, 0x17B); (0x17D, 0x17D); (0x181, 0x182);
   (0x184, 0x184); (0x186, 0x187); (0x189, 0x18B); (0x18E, 0x191); (0x193, 0x194); (0x196, 0x198);
   (0x19C, 0x19D); (0x19F, 0x1A0); (0x1A2, 0x1A2); (0x1A4, 0x1A4); (0x1A6, 0x1A7); (0x1A9, 0x1A9);
   (0x1AC, 0x1AC); (0x1AE, 0x1AF); (0x1B1, 0x1B3); (0x1B5, 0x1B5); (0x1B7, 0x1B8); (0x1BC, 0x1BC);
   (0x1C4, 0x1C4); (0x1C7, 0x1C7); (0x1CA, 0x1CA); (0x1CD, 0x1CD); (0x1CF, 0x1CF); (0x1D1, 0x1D1);
   (0x1D3, 0x1D3); (0x1D5, 0x1D5); (0x1D7, 0x1D7); (0x1D9, 0x1D9); (0x1DB, 0x1DB); (0x1DE, 0x1DE);
   (0x1E0, 0x1E0); (0x1E2, 0x1E2); (0x1E4, 0x1E4); (0x1E6, 0x1E6); (0x1E8, 0x1E8); (0x1EA, 0x1EA);
   (0x1EC, 0x1EC); (0x1EE, 0x1EE); (0x1F1, 0x1F1); (0x1F4, 0x1F4); (0x1F6, 0x1F8); (0x1FA, 0x1FA);
   (0x1FC, 0x1FC); (0x1FE, 0x1FE); (0x200, 0x200); (0x202, 0x202); (0x204, 0x204); (0x206, 0x206);
   (0x208, 0x208); (0x20A, 0x20A); (0x20C, 0x20C); (0x20E, 0x20E); (0x210, 0x210); (0x212, 0x212);
   (0x214, 0x214); (0x216, 0x216); (0x218, 0x218); (0x21A, 0x21A); (0x21C, 0x21C); (0x21E, 0x21E);
   (0x220, 0x220); (0x222, 0x222); (0x224, 0x224); (0x226, 0x226); (0x228, 0x228); (0x22A, 0x22A);
   (0x22C, 0x22C); (0x22E, 0x22E); (0x230, 0x230); (0x232, 0x232); (0x23A, 0x23B); (0x23D, 0x23E);
   (0x241, 0x241); (0x243, 0x246); (0x248, 0x248); (0x24A, 0x24A); (0x24C, 0x24C); (0x24E, 0x24E);
   (0x370, 0x370); (0x372, 0x372); (0x376, 0x376); (0x37F, 0x37F); (0x386, 0x386); (0x388, 0x38A);
   (0x38C, 0x38C); (0x38E, 0x38F); (0x391, 0x3A1); (0x3A3, 0x3AB); (0x3CF, 0x3CF); (0x3D2, 0x3D4);
   (0x3D8, 0x3D8); (0x3DA, 0x3DA); (0x3DC, 0x3DC); (0x3DE, 0x3DE); (0x3E0, 0x3E0); (0x3E2, 0x3E2);
   (0x3E4, 0x3E4); (0x3E6, 0x3E6); (0x3E8, 0x3E8); (0x3EA, 0x3EA); (0x3EC, 0x3EC); (0x3EE, 0x3EE);
   (0x3F4, 0x3F4); (0x3F7, 0x3F7); (0x3F9, 0x3FA); (0x3FD, 0x42F); (0x460, 0x460); (0x462, 0x462);
   (0x464, 0x464); (0x466, 0x466); (0x468, 0x468); (0x46A, 0x46A); (0x46C, 0x46C); (0x46E, 0x46E);
   (0x470, 0x470); (0x472, 0x472); (0x474, 0x474); (0x476, 0x476); (0x478, 0x478); (0x47A, 0x47A);
   (0x47C, 0x47C); (0x47E, 0x47E); (0x480, 0x480); (0x48A, 0x48A); (0x48C, 0x48C); (0x48E, 0x48E);
   (0x490, 0x490); (0x492, 0x492); (0x494, 0x494); (0x496, 0x496); (0x498, 0x498); (0x49A, 0x49A);
   (0x49C, 0x49C); (0x49E, 0x49E); (0x4A0, 0x4A0); (0x4A2, 0x4A2); (0x4A4, 0x4A4); (0x4A6, 0x4A6);
   (0x4A8, 0x4A8); (0x4AA, 0x4AA); (0x4AC, 0x4AC); (0x4AE, 0x4AE); (0x4B0, 0x4B0); (0x4B2, 0x4B2);
   (0x4B4, 0x4B4); (0x4B6, 0x4B6); (0x4B8, 0x4B8); (0x4BA, 0x4BA); (0x4BC, 0x4BC); (0x4BE, 0x4BE);
   (0x4C0, 0x4C1); (0x4C3, 0x4C3); (0x4C5, 0x4C5); (0x4C7, 0x4C7); (0x4C9, 0x4C9); (0x4CB, 0x4CB);
   (0x4CD, 0x4CD); (0x4D0, 0x4D0); (0x4D2, 0x4D2); (0x4D4, 0x4D4); (0x4D6, 0x4D6); (0x4D8, 0x4D8);
   (0x4DA, 0x4DA); (0x4DC, 0x4DC); (0x4DE, 0x4DE); (0x4E0, 0x4E0); (0x4E2, 0x4E2); (0x4E4, 0x4E4);
   (0x4E6, 0x4E6); (0x4E8, 0x4E8); (0x4EA, 0x4EA); (0x4EC, 0x4EC); (0x4EE, 0x4EE); (0x4F0, 0x4F0);
   (0x4F2, 0x4F2); (0x4F4, 0x4F4); (0x4F6, 0x4F6); (0x4F8, 0x4F8); (0x4FA, 0x4FA); (0x4FC, 0x4FC);
   (0x4FE, 0x4FE); (0x500, 0x500); (0x502, 0x502); (0x504, 0x504); (0x506, 0x506); (0x508, 0x508);
   (0x50A, 0x50A); (0x50C, 0x50C); (0x50E, 0x50E); (0x510, 0x510); (0x512, 0x512); (0x514, 0x514);
   (0x516, 0x516); (0x518, 0x518); (0x51A, 0x51A); (0x51C, 0x51C); (0x51E, 0x51E); (0x520, 0x520);
   (0x522, 0x522); (0x524, 0x524); (0x526, 0x526); (0x528, 0x528); (0x52A, 0x52A); (0x52C, 0x52C);
   (0x52E, 0x52E); (0x531, 0x556); (0x10A0, 0x10C5); (0x10C7, 0x10C7); (0x10CD, 0x10CD); (0x13A0, 0x13F5);
   (0x1C90, 0x1CBA); (0x1CBD, 0x1CBF); (0x1E00, 0x1E00); (0x1E02, 0x1E02); (0x1E04, 0x1E04); (0x1E06, 0x1E06);
   (0x1E08, 0x1E08); (0x1E0A, 0x1E0A); (0x1E0C, 0x1E0C); (0x1E0E, 0x1E0E); (0x1E10, 0x1E10); (0x1E12, 0x1E12);
   (0x1E14, 0x1E14); (0x1E16, 0x1E16); (0x1E18, 0x1E18); (0x1E1A, 0x1E1A); (0x1E1C, 0x1E1C); (0x1E1E, 0x1E1E);
   (0x1E20, 0x1E20); (0x1E22, 0x1E22); (0x1E24, 0x1E24); (0x1E26, 0x1E26); (0x1E28, 0x1E28); (0x1E2A, 0x1E2A);
   (0x1E2C, 0x1E2C); (0x1E2E, 0x1E2E); (0x1E30, 0x1E30); (0x1E32, 0x1E32); (0x1E34, 0x1E34); (0x1E36, 0x1E36);
   (0x1E38, 0x1E38); (0x1E3A, 0x1E3A); (0x1E3C, 0x1E3C); (0x1E3E, 0x1E3E); (0x1E40, 0x1E40); (0x1E42, 0x1E42);
   (0x1E44, 0x1E44); (0x1E46, 0x1E46); (0x1E48, 0x1E48); (0x1E4A, 0x1E4A); (0x1E4C, 0x1E4C); (0x1E4E, 0x1E4E);
   (0x1E50, 0x1E50); (0x1E52, 0x1E52); (0x1E54, 0x1E54); (0x1E56, 0x1E56); (0x1E58, 0x1E58); (0x1E5A, 0x1E5A);
   (0x1E5C, 0x1E5C); (0x1E5E, 0x1E5E); (0x1E60, 0x1E60); (0x1E62, 0x1E62); (0x1E64, 0x1E64); (0x1E66, 0x1E66);
   (0x1E68, 0x1E68); (0x1E6A, 0x1E6A); (0x1E6C, 0x1E6C); (0x1E6E, 0x1E6E); (0x1E70, 0x1E70); (0x1E72, 0x1E72);
   (0x1E74, 0x1E74); (0x1E76, 0x1E76); (0x1E78, 0x1E78); (0x1E7A, 0x1E7A); (0x1E7C, 0x1E7C); (0x1E7E, 0x1E7E);
   (0x1E80, 0x1E80); (0x1E82, 0x1E82); (0x1E84, 0x1E84); (0x1E86, 0x1E86); (0x1E88, 0x1E88); (0x1E8A, 0x1E8A);
   (0x1E8C, 0x1E8C); (0x1E8E, 0x1E8E); (0x1E90, 0x1E90); (0x1E92, 0x1E92); (0x1E94, 0x1E94); (0x1E9E, 0x1E9E);
   (0x1EA0, 0x1EA0); (0x1EA2, 0x1EA2); (0x1EA4, 0x1EA4); (0x1EA6, 0x1EA6); (0x1EA8, 0x1EA8); (0x1EAA, 0x1EAA);
   (0x1EAC, 0x1EAC); (0x1EAE, 0x1EAE); (0x1EB0, 0x1EB0); (0x1EB2, 0x1EB2); (0x1EB4, 0x1EB4); (0x1EB6, 0x1EB6);
   (0x1EB8, 0x1EB8); (0x1EBA, 0x1EBA); (0x1EBC, 0x1EBC); (0x1EBE, 0x1EBE); (0x1EC0, 0x1EC0); (0x1EC2, 0x1EC2);
   (0x1EC4, 0x1EC4); (0x1EC6, 0x1EC6); (0x1EC8, 0x1EC8); (0x1ECA, 0x1ECA); (0x1ECC, 0x1ECC); (0x1ECE, 0x1ECE);
   (0x1ED0, 0x1ED0); (0x1ED2, 0x1ED2); (0x1ED4, 0x1ED4); (0x1ED6, 0x1ED6); (0x1ED8, 0x1ED8); (0x1EDA, 0x1EDA);
   (0x1EDC, 0x1EDC); (0x1EDE, 0x1EDE); (0x1EE0, 0x1EE0); (0x1EE2, 0x1EE2); (0x1EE4, 0x1EE4); (0x1EE6, 0x1EE6);
   (0x1EE8, 0x1EE8); (0x1EEA, 0x1EEA); (0x1EEC, 0x1EEC); (0x1EEE, 0x1EEE); (0x1EF0, 0x1EF0); (0x1EF2, 0x1EF2);
   (0x1EF4, 0x1EF4); (0x1EF6, 0x1EF6); (0x1EF8, 0x1EF8); (0x1EFA, 0x1EFA); (0x1EFC, 0x1EFC); (0x1EFE, 0x1EFE);
   (0x1F08, 0x1F0F); (0x1F18, 0x1F1D); (0x1F28, 0x1F2F); (0x1F38, 0x1F3F); (0x1F48, 0x1F4D); (0x1F59, 0x1F59);
   (0x1F5B, 0x1F5B); (0x1F5D, 0x1F5D); (0x1F5F, 0x1F5F); (0x1F68, 0x1F6F); (0x1FB8, 0x1FBB); (0x1FC8, 0x1FCB);
   (0x1FD8, 0x1FDB); (0x1FE8, 0x1FEC); (0x1FF8, 0x1FFB); (0x2102, 0x2102); (0x2107, 0x2107); (0x210B, 0x210D);
   (0x2110, 0x2112); (0x2115, 0x2115); (0x2119, 0x211D); (0x2124, 0x2124); (0x2126, 0x2126); (0x2128, 0x2128);
   (0x212A, 0x212D); (0x2130, 0x2133); (0x213E, 0x213F); (0x2145, 0x2145); (0x2160, 0x216F); (0x2183, 0x2183);
   (0x24B6, 0x24CF); (0x2C00, 0x2C2F); (0x2C60, 0x2C60); (0x2C62, 0x2C64); (0x2C67, 0x2C67); (0x2C69, 0x2C69);
   (0x2C6B, 0x2C6B); (0x2C6D, 0x2C70); (0x2C72, 0x2C72); (0x2C75, 0x2C75); (0x2C7E, 0x2C80); (0x2C82, 0x2C82);
   (0x2C84, 0x2C84); (0x2C86, 0x2C86); (0x2C88, 0x2C88); (0x2C8A, 0x2C8A); (0x2C8C, 0x2C8C); (0x2C8E, 0x2C8E);
   (0x2C90, 0x2C90); (0x2C92, 0x2C92); (0x2C94, 0x2C94); (0x2C96, 0x2C96); (0x2C98, 0x2C98); (0x2C9A, 0x2C9A);
   (0x2C9C, 0x2C9C); (0x2C9E, 0x2C9E); (0x2CA0, 0x2CA0); (0x2CA2, 0x2CA2); (0x2CA4, 0x2CA4); (0x2CA6, 0x2CA6);
   (0x2CA8, 0x2CA8); (0x2CAA, 0x2CAA); (0x2CAC, 0x2CAC); (0x2CAE, 0x2CAE); (0x2CB0, 0x2CB0); (0x2CB2, 0x2CB2);
   (0x2CB4, 0x2CB4); (0x2CB6, 0x2CB6); (0x2CB8, 0x2CB8); (0x2CBA, 0x2CBA); (0x2CBC, 0x2CBC); (0x2CBE, 0x2CBE);
   (0x2CC0, 0x2CC0); (0x2CC2, 0x2CC2); (0x2CC4, 0x2CC4); (0x2CC6, 0x2CC6); (0x2CC8, 0x2CC8); (0x2CCA, 0x2CCA);
   (0x2CCC, 0x2CCC); (0x2CCE, 0x2CCE); (0x2CD0, 0x2CD0); (0x2CD2, 0x2CD2); (0x2CD4, 0x2CD4); (0x2CD6, 0x2CD6);
   (0x2CD8, 0x2CD8); (0x2CDA, 0x2CDA); (0x2CDC, 0x2CDC); (0x2CDE, 0x2CDE); (0x2CE0, 0x2CE0); (0x2CE2, 0x2CE2);
   (0x2CEB, 0x2CEB); (0x2CED, 0x2CED); (0x2CF2, 0x2CF2); (0xA640, 0xA640); (0xA642, 0xA642); (0xA644, 0xA644);
   (0xA646, 0xA646); (0xA648, 0xA648); (0xA64A, 0xA64A); (0xA64C, 0xA64C); (0xA64E, 0xA64E); (0xA650, 0xA650);
   (0xA652, 0xA652); (0xA654, 0xA654); (0xA656, 0xA656); (0xA658, 0xA658); (0xA65A, 0xA65A); (0xA65C, 0xA65C);
   (0xA65E, 0xA65E); (0xA660, 0xA660); (0xA662, 0xA662); (0xA664, 0xA664); (0xA666, 0xA666); (0xA668, 0xA668);
   (0xA66A, 0xA66A); (0xA66C, 0xA66C); (0xA680, 0xA680); (0xA682, 0xA682); (0xA684, 0xA684); (0xA686, 0xA686);
   (0xA688, 0xA688); (0xA68A, 0xA68A); (0xA68C, 0xA68C); (0xA68E, 0xA68E); (0xA690, 0xA690); (0xA692, 0xA692);
   (0xA694, 0xA694); (0xA696, 0xA696); (0xA698, 0xA698); (0xA69A, 0xA69A); (0xA722, 0xA722); (0xA724, 0xA724);
   (0xA726, 0xA726); (0xA728, 0xA728); (0xA72A, 0xA72A); (0xA72C, 0xA72C); (0xA72E, 0xA72E); (0xA732, 0xA732);
   (0xA734, 0xA734); (0xA736, 0xA736); (0xA738, 0xA738); (0xA73A, 0xA73A); (0xA73C, 0xA73C); (0xA73E, 0xA73E);
   (0xA740, 0xA740); (0xA742, 0xA742); (0xA744, 0xA744); (0xA746, 0xA746); (0xA748, 0xA748); (0xA74A, 0xA74A);
   (0xA74C, 0xA74C); (0xA74E, 0xA74E); (0xA750, 0xA750); (0xA752, 0xA752); (0xA754, 0xA754); (0xA756, 0xA756);
   (0xA758, 0xA758); (0xA75A, 0xA75A); (0xA75C, 0xA75C); (0xA75E, 0xA75E); (0xA760, 0xA760); (0xA762, 0xA762);
   (0xA764, 0xA764); (0xA766, 0xA766); (0xA768, 0xA768); (0xA76A, 0xA76A); (0xA76C, 0xA76C); (0xA76E, 0xA76E);
   (0xA779, 0xA779); (0xA77B, 0xA77B); (0xA77D, 0xA77E); (0xA780, 0xA780); (0xA782, 0xA782); (0xA784, 0xA784);
   (0xA786, 0xA786); (0xA78B, 0xA78B); (0xA78D, 0xA78D); (0xA790, 0xA790); (0xA792, 0xA792); (0xA796, 0xA796);
   (0xA798, 0xA798); (0xA79A, 0xA79A); (0xA79C, 0xA79C); (0xA79E, 0xA79E); (0xA7A0, 0xA7A0); (0xA7A2, 0xA7A2);
   (0xA7A4, 0xA7A4); (0xA7A6, 0xA7A6); (0xA7A8, 0xA7A8); (0xA7AA, 0xA7AE); (0xA7B0, 0xA7B4); (0xA7B6, 0xA7B6);
   (0xA7B8, 0xA7B8); (0xA7BA, 0xA7BA); (0xA7BC, 0xA7BC); (0xA7BE, 0xA7BE); (0xA7C0, 0xA7C0); (0xA7C2, 0xA7C2);
   (0xA7C4, 0xA7C7); (0xA7C9, 0xA7C9); (0xA7D0, 0xA7D0); (0xA7D6, 0xA7D6); (0xA7D8, 0xA7D8); (0xA7F5, 0xA7F5);
   (0xFF21, 0xFF3A); (0x10400, 0x10427); (0x104B0, 0x104D3); (0x10570, 0x1057A); (0x1057C, 0x1058A); (0x1058C, 0x10592);
   (0x10594, 0x10595); (0x10C80, 0x10CB2); (0x118A0, 0x118BF); (0x16E40, 0x16E5F); (0x1D400, 0x1D419); (0x1D434, 0x1D44D);
   (0x1D468, 0x1D481); (0x1D49C, 0x1D49C); (0x1D49E, 0x1D49F); (0x1D4A2, 0x1D4A2); (0x1D4A5, 0x1D4A6); (0x1D4A9, 0x1D4AC);
   (0x1D4AE, 0x1D4B5); (0x1D4D0, 0x1D4E9); (0x1D504, 0x1D505); (0x1D507, 0x1D50A); (0x1D50D, 0x1D514); (0x1D516, 0x1D51C);
   (0x1D538, 0x1D539); (0x1D53B, 0x1D53E); (0x1D540, 0x1D544); (0x1D546, 0x1D546); (0x1D54A, 0x1D550); (0x1D56C, 0x1D585);
   (0x1D5A0, 0x1D5B9); (0x1D5D4, 0x1D5ED); (0x1D608, 0x1D621); (0x1D63C, 0x1D655); (0x1D670, 0x1D689); (0x1D6A8, 0x1D6C0);
   (0x1D6E2, 0x1D6FA); (0x1D71C, 0x1D734); (0x1D756, 0x1D76E); (0x1D790, 0x1D7A8); (0x1D7CA, 0x1D7CA); (0x1E900, 0x1E921);
   (0x1F130, 0x1F149); (0x1F150, 0x1F169); (0x1F170, 0x1F189)
  ]%N.

Fixpoint find_lower (c : N) (table : list (N * list N)) : option (list N) :=
  match table with
  | [] => None
  | (k, l) :: rest => if (k =? c)%N then Some l else find_lower c rest
  end.

Definition in_ranges (c : N) (ranges : list (N * N)) : bool :=
  existsb (fun r => ((fst r <=? c) && (c <=? snd r))%N) ranges.

(** [_PyUnicode_ToLowerFull(c)] *)
Definition to_lower_full (c : N) : list N :=
  match find_lower c lower_table with
  | Some l => l
  | None => [c]
  end.

(** [_PyUnicode_IsCased(c)] *)
Definition is_cased (c : N) : bool := in_ranges c cased_ranges.

(** [_PyUnicode_IsCaseIgnorable(c)] *)
Definition is_case_ignorable (c : N) : bool := in_ranges c case_ignorable_ranges.

(** [_PyUnicode_IsUppercase(c)] *)
Definition is_uppercase (c : N) : bool := in_ranges c uppercase_ranges.

Arguments to_lower_full : simpl never.
Arguments is_cased : simpl never.
Arguments is_case_ignorable : simpl never.
Arguments is_uppercase : simpl never.

End Unicode.

(** ** Python strings *)

Module PyStr.

(** [s[:n]] and [s[n:]] for a natural number [n]. *)
Fixpoint take (n : nat) (s : str) : str :=
  match n, s with
  | S n', c :: s' => c :: take n' s'
  | _, _ => []
  end.

Fixpoint drop (n : nat) (s : str) : str :=
  match n, s with
  | S n', _ :: s' => drop n' s'
  | _, _ => s
  end.

Definition len (s : str) : Z := Z.of_nat (List.length s).

(** Python clamps a slice bound into [0..len s]; a negative bound counts
    from the end of the string. *)
Definition clamp (s : str) (i : Z) : nat :=
  Z.to_nat (if i <? 0 then Z.max 0 (i + len s) else Z.min i (len s)).

(** [s[i:j]], [s[:j]] and [s[i:]]. *)
Definition slice (s : str) (i j : Z) : str :=
  take (clamp s j - clamp s i) (drop (clamp s i) s).

Definition slice_to (s : str) (j : Z) : str := take (clamp s j) s.

Definition slice_from (s : str) (i : Z) : str := drop (clamp s i) s.

(** [a == b] on strings. *)
Fixpoint str_eqb (a b : str) : bool :=
  match a, b with
  | [], [] => true
  | x :: a', y :: b' => (x =? y)%N && str_eqb a' b'
  | _, _ => false
  end.

(** The order of strings: code point by code point, a proper prefix
    first.  [a < b] is [str_ltb a b]. *)
Fixpoint str_compare (a b : str) : comparison :=
  match a, b with
  | [], [] => Eq
  | [], _ :: _ => Lt
  | _ :: _, [] => Gt
  | x :: a', y :: b' =>
      match (x ?= y)%N with
      | Eq => str_compare a' b'
      | Lt => Lt
      | Gt => Gt
      end
  end.

Definition str_ltb (a b : str) : bool :=
  match str_compare a b with
  | Lt => true
  | _ => false
  end.

(** Position of the last occurrence of a character, if any. *)
Fixpoint rindex (c : char) (s : str) : option nat :=
  match s with
  | [] => None
  | a :: s' =>
      match rindex c s' with
      | Some i => Some (S i)
      | None => if (a =? c)%N then Some O else None
      end
  end.

(** [s.rfind(c)] for a one-character [c]. *)
Definition rfind (s : str) (c : char) : Z :=
  match rindex c s with
  | Some i => Z.of_nat i
  | None => -1
  end.

(** [s.startswith(c)] and [s.endswith(c)] for a one-character [c]. *)
Definition startswith (s : str) (c : char) : bool :=
  match s with
  | a :: _ => (a =? c)%N
  | [] => false
  end.

Fixpoint endswith (s : str) (c : char) : bool :=
  match s with
  | [] => false
  | [a] => (a =? c)%N
  | _ :: s' => endswith s' c
  end.

(** The loops of [handle_capital_sigma] pass over the characters that are
    case-ignorable. *)
Fixpoint skip_case_ignorable (s : str) : str :=
  match s with
  | [] => []
  | c :: s' => if Unicode.is_case_ignorable c then skip_case_ignorable s' else s
  end.

(** [handle_capital_sigma]: what a capital sigma becomes, with [before] the
    text before it, the nearest character first, and [after] the text after
    it.  The sigma is final when a cased character comes before it, and no
    cased character after it, case-ignorable characters set aside. *)
Definition handle_capital_sigma (before after : str) : char :=
  let final_sigma :=
    match skip_case_ignorable before with
    | c :: _ => Unicode.is_cased c
    | [] => false
    end in
  let final_sigma :=
    if final_sigma then
      match skip_case_ignorable after with
      | c :: _ => negb (Unicode.is_cased c)
      | [] => true
      end
    else false in
  if final_sigma then 0x3C2%N else 0x3C3%N.

(** The loop of [do_lower], at a character with [before] behind it:
    [lower_ucs4] sends the capital sigma to [handle_capital_sigma] and every
    other character to [_PyUnicode_ToLowerFull]. *)
Fixpoint lower_from (before s : str) : str :=
  match s with
  | [] => []
  | c :: rest =>
      (if (c =? 0x3A3)%N then [handle_capital_sigma before rest]
       else Unicode.to_lower_full c)
      ++ lower_from (c :: before) rest
  end.

(** [s.lower()] *)
Definition lower (s : str) : str := lower_from [] s.

(** Does the string hold the character? *)
Fixpoint contains (c : char) (s : str) : bool :=
  match s with
  | [] => false
  | a :: s' => (a =? c)%N || contains c s'
  end.

(** Does the string hold an upper-case letter, one on which [str.isupper]
    is true? *)
Fixpoint has_upper (s : str) : bool :=
  match s with
  | [] => false
  | a :: s' => Unicode.is_uppercase a || has_upper s'
  end.

(** Are all the characters ASCII? *)
Definition is_ascii (s : str) : Prop := Forall (fun c => (c < 128)%N) s.

(** [s.split('/')]: the pieces between separators, empty ones included. *)
Fixpoint split (c : char) (s : str) : list str :=
  match s with
  | [] => [[]]
  | a :: s' =>
      if (a =? c)%N then [] :: split c s'
      else match split c s' with
           | x :: r => (a :: x) :: r
           | [] => [[a]]
           end
  end.

(** [s.rstrip('/')]. *)
Fixpoint rstrip (c : char) (s : str) : str :=
  match s with
  | [] => []
  | a :: s' =>
      match rstrip c s' with
      | [] => if (a =? c)%N then [] else [a]
      | r => a :: r
      end
  end.

(** [c * n] for a one-character [c]. *)
Fixpoint times (c : char) (n : nat) : str :=
  match n with
  | O => []
  | S n' => c :: times c n'
  end.

(** [<] on lists of strings: the first elements that differ decide, a
    proper prefix comes first. *)
Fixpoint list_ltb (a b : list str) : bool :=
  match a, b with
  | [], [] => false
  | [], _ :: _ => true
  | _ :: _, [] => false
  | x :: a', y :: b' => if str_eqb x y then list_ltb a' b' else str_ltb x y
  end.

(** The encoder of UTF-8, strict: a surrogate has no encoding
    ([UnicodeEncodeError]). *)
Definition utf8_char (c : char) : option bytes :=
  (if c <? 0x80 then Some [c]
   else if c <? 0x800 then Some [0xC0 + c / 64; 0x80 + c mod 64]
   else if (0xD800 <=? c) && (c <=? 0xDFFF) then None
   else if c <? 0x10000 then
     Some [0xE0 + c / 4096; 0x80 + (c / 64) mod 64; 0x80 + c mod 64]
   else if c <? 0x110000 then
     Some [0xF0 + c / 262144; 0x80 + (c / 4096) mod 64; 0x80 + (c / 64) mod 64;
           0x80 + c mod 64]
   else None)%N.

(** [s.encode("utf-8")]; [None] is [UnicodeEncodeError]. *)
Fixpoint utf8 (s : str) : option bytes :=
  match s with
  | [] => Some []
  | c :: s' =>
      match utf8_char c, utf8 s' with
      | Some b, Some b' => Some (b ++ b')
      | _, _ => None
      end
  end.

End PyStr.

Declare Scope str_scope.
Delimit Scope str_scope with str.
Notation "a =? b" := (PyStr.str_eqb a b) (at level 70) : str_scope.

(** ** [posixpath] *)

Module PosixPath.
Import PyStr.

(** ['/'] and ['.'] *)
Definition sep : char := 47%N.
Definition extsep : char := 46%N.

(** The [while filenameIndex < dotIndex] loop of [genericpath._splitext].
    [filenameIndex] grows by one per iteration, so the loop body runs at
    most [dotIndex - filenameIndex] times: [n] is that trip count. *)
Fixpoint skip_leading_dots (p : str) (filenameIndex dotIndex : Z) (n : nat)
  : str * str :=
  match n with
  | O => (p, slice_to p 0)
  | S n' =>
      if negb (slice p filenameIndex (filenameIndex + 1) =? [extsep])%str
      then (slice_to p dotIndex, slice_from p dotIndex)
      else skip_leading_dots p (filenameIndex + 1) dotIndex n'
  end.

(** [genericpath._splitext(p, '/', None, '.')]. *)
Definition splitext (p : str) : str * str :=
  let sepIndex := rfind p sep in
  let dotIndex := rfind p extsep in
  if dotIndex >? sepIndex then
    let filenameIndex := sepIndex + 1 in
    skip_leading_dots p filenameIndex dotIndex (Z.to_nat (dotIndex - filenameIndex))
  else (p, slice_to p 0).

(** [isabs(s)] *)
Definition isabs (s : str) : bool := startswith s sep.

(** One round of the loop of [join]. *)
Definition join_step (path b : str) : str :=
  if startswith b sep then b
  else if (path =? [])%str || endswith path sep then path ++ b
  else path ++ sep :: b.

(** [join(a, b)] *)
Definition join (a b : str) : str := join_step a b.

(** [join] applied to a non-empty list of parts, as in [join( *rel_list)]. *)
Definition join_all (parts : list str) : str :=
  match parts with
  | [] => []
  | a :: p => fold_left join_step p a
  end.

(** [basename(p)] *)
Definition basename (p : str) : str :=
  let i := rfind p sep + 1 in
  slice_from p i.

(** [dirname(p)] *)
Definition dirname (p : str) : str :=
  let i := rfind p sep + 1 in
  let head := slice_to p i in
  if negb (head =? [])%str && negb (head =? times sep (List.length head))%str
  then rstrip sep head
  else head.

(** One round of the loop over [comps] in [normpath]. *)
Definition normpath_step (initial_slashes : Z) (new_comps : list str)
    (comp : str) : list str :=
  if (comp =? [])%str || (comp =? [extsep])%str then new_comps
  else if negb (comp =? [extsep; extsep])%str
          || ((initial_slashes =? 0) && (Nat.eqb (List.length new_comps) 0))
          || (negb (Nat.eqb (List.length new_comps) 0)
              && (last new_comps [] =? [extsep; extsep])%str)
  then new_comps ++ [comp]
  else if negb (Nat.eqb (List.length new_comps) 0) then removelast new_comps
  else new_comps.

(** ['/'.join(comps)] *)
Fixpoint sep_join (comps : list str) : str :=
  match comps with
  | [] => []
  | [c] => c
  | c :: r => c ++ sep :: sep_join r
  end.

(** [normpath(path)] *)
Definition normpath (path : str) : str :=
  if (path =? [])%str then [extsep]
  else
    let initial_slashes :=
      if startswith path sep then
        if (slice_to path 2 =? [sep; sep])%str
           && negb (slice_to path 3 =? [sep; sep; sep])%str
        then 2 else 1
      else 0 in
    let comps := split sep path in
    let new_comps := fold_left (normpath_step initial_slashes) comps [] in
    let path := sep_join new_comps in
    let path :=
      if initial_slashes =? 0 then path
      else times sep (Z.to_nat initial_slashes) ++ path in
    if (path =? [])%str then [extsep] else path.

(** [abspath(path)], with [cwd] the answer of [os.getcwd()]. *)
Definition abspath (cwd path : str) : str :=
  let path := if negb (isabs path) then join cwd path else path in
  normpath path.

(** [[x for x in s.split('/') if x]] *)
Definition nonempty_parts (s : str) : list str :=
  filter (fun x => negb (x =? [])%str) (split sep s).

(** The loop of [genericpath.commonprefix] on [s1 = min(m)] and
    [s2 = max(m)]: the elements of [s1] up to the first one that differs
    from [s2].  [s1 <= s2], so [s2[i]] exists wherever the loop reads it. *)
Fixpoint common_loop (s1 s2 : list str) : list str :=
  match s1, s2 with
  | c :: r1, d :: r2 => if (c =? d)%str then c :: common_loop r1 r2 else []
  | _, _ => []
  end.

(** [commonprefix([a, b])] on two lists of path parts. *)
Definition commonprefix (a b : list str) : list str :=
  let s1 := if list_ltb b a then b else a in
  let s2 := if list_ltb a b then b else a in
  common_loop s1 s2.

(** The [try] block of [relpath(path, start)]. *)
Definition relpath_body (cwd path start : str) : str :=
  let start_list := nonempty_parts (abspath cwd start) in
  let path_list := nonempty_parts (abspath cwd path) in
  let i := List.length (commonprefix start_list path_list) in
  let rel_list :=
    repeat [extsep; extsep] (List.length start_list - i)%nat ++ skipn i path_list in
  match rel_list with
  | [] => [extsep]
  | _ :: _ => join_all rel_list
  end.

(** [relpath(path, start)]; [None] is the [ValueError] raised on an empty
    [path]. *)
Definition relpath (cwd path start : str) : option str :=
  if (path =? [])%str then None
  else Some (relpath_body cwd path start).

End PosixPath.

(** ** The grouping key *)

Import PyStr.

(** [ext = os.path.splitext(filename)[1].lower()] *)
Definition ext_of (filename : str) : str :=
  lower (snd (PosixPath.splitext filename)).

(** *** The extension as the specification words it *)

Module SpecExt.

(** The period. *)
Definition period : char := 46%N.

(** The filename cut at its last period: what precedes the period, and
    what runs from the period to the end.  [None] without a period. *)
Fixpoint cut_last_period (s : str) : option (str * str) :=
  match s with
  | [] => None
  | c :: t =>
      match cut_last_period t with
      | Some (b, e) => Some (c :: b, e)
      | None => if (c =? period)%N then Some ([], s) else None
      end
  end.

(** "substring of a filename from the last period character onward,
    lowercased; empty string if no period present" *)
Definition extension (filename : str) : str :=
  match cut_last_period filename with
  | Some (_, e) => lower e
  | None => []
  end.

(** Is every character a period? *)
Fixpoint all_periods (s : str) : bool :=
  match s with
  | [] => true
  | c :: t => (c =? period)%N && all_periods t
  end.

(** The same, but a name whose last period has only periods before it
    (or nothing at all) has no extension. *)
Definition extension_after_stem (filename : str) : str :=
  match cut_last_period filename with
  | Some (b, e) => if all_periods b then [] else lower e
  | None => []
  end.

End SpecExt.

(** ** Exceptions *)

Inductive exn : Type :=
| ValueError
| UnicodeEncodeError
| FileExistsError
| FileNotFoundError
| NotADirectoryError
| IsADirectoryError.

Inductive result (A : Type) : Type :=
| Ok (a : A)
| Raise (e : exn).

Arguments Ok {A} a.
Arguments Raise {A} e.

(** A loop whose body may raise: the first exception ends it. *)
Fixpoint for_each {A B : Type} (body : A -> B -> result A) (l : list B) (a : A)
  : result A :=
  match l with
  | [] => Ok a
  | x :: l' =>
      match body a x with
      | Ok a' => for_each body l' a'
      | Raise e => Raise e
      end
  end.

(** ** The file system

    A tree of directories and regular files, without symbolic links or
    permissions.  A directory lists its entries in the order [os.scandir]
    reports them; a name occurs once in a directory. *)

Module FS.
Import PyStr PosixPath.

#[warnings="-register-all"]
Inductive node : Type :=
| File (content : bytes)
| Dir (entries : list (str * node)).

Definition is_dir (n : node) : bool :=
  match n with
  | Dir _ => true
  | File _ => false
  end.

(** What [os.walk] yields: [(dirpath, dirnames, filenames)]. *)
Definition walk_item : Type := str * list str * list str.

(** One component of a path read as [normpath] reads it: [.] and empty
    components stay put, [..] drops the name before it (and stays at the
    root), a name is added. *)
Definition resolve_step (stack : list str) (comp : str) : list str :=
  if (comp =? [])%str || (comp =? [extsep])%str then stack
  else if (comp =? [extsep; extsep])%str then removelast stack
  else stack ++ [comp].

(** The names a path spells, from the root down, read as [normpath] reads
    it; a relative path starts at the working directory.  For a path
    without [..], as are the paths the script builds from [abspath] and
    hands to [os.makedirs] and [open], this is the way the system goes. *)
Definition components (cwd path : str) : list str :=
  fold_left resolve_step (split sep (if isabs path then path else join cwd path)) [].

Fixpoint find_entry (name : str) (entries : list (str * node)) : option node :=
  match entries with
  | [] => None
  | (n, child) :: r => if (n =? name)%str then Some child else find_entry name r
  end.

(** Replace the entry of that name, or add it after the others. *)
Fixpoint set_entry (name : str) (new : node) (entries : list (str * node))
  : list (str * node) :=
  match entries with
  | [] => [(name, new)]
  | (n, child) :: r =>
      if (n =? name)%str then (n, new) :: r
      else (n, child) :: set_entry name new r
  end.

Fixpoint lookup (comps : list str) (n : node) : option node :=
  match comps with
  | [] => Some n
  | c :: r =>
      match n with
      | Dir entries =>
          match find_entry c entries with
          | Some child => lookup r child
          | None => None
          end
      | File _ => None
      end
  end.

(** The way the system follows a path, component by component, from the
    directory [names]: every component, also an empty one, [.] or [..], is
    looked up in a directory that must exist; [..] is the directory above
    (the root is above itself); a name must be an entry.  [None] when the
    path cannot be followed ([FileNotFoundError], [NotADirectoryError]). *)
Fixpoint follow (root : node) (names : list str) (raw : list str)
  : option (list str) :=
  match raw with
  | [] => Some names
  | comp :: r =>
      match lookup names root with
      | Some (Dir entries) =>
          if (comp =? [])%str || (comp =? [extsep])%str then follow root names r
          else if (comp =? [extsep; extsep])%str then follow root (removelast names) r
          else match find_entry comp entries with
               | Some _ => follow root (names ++ [comp]) r
               | None => None
               end
      | _ => None
      end
  end.

(** What a path denotes for the system, if anything. *)
Definition resolve (cwd path : str) (root : node) : option node :=
  match follow root [] (split sep (if isabs path then path else join cwd path)) with
  | Some names => lookup names root
  | None => None
  end.

(** [os._walk(top, topdown=True, onerror=None, followlinks=False)] on the
    node at [top].  [scandir] fails on what is not a directory and the
    error is dropped ([onerror] is [None]); otherwise the names are sorted
    into [dirs] and [nondirs], the triple is yielded, and every directory
    is walked in turn under [join(top, dirname)]. *)
Fixpoint _walk (top : str) (n : node) {struct n} : list walk_item :=
  match n with
  | File _ => []
  | Dir entries =>
      let dirs := map fst (filter (fun e => is_dir (snd e)) entries) in
      let nondirs := map fst (filter (fun e => negb (is_dir (snd e))) entries) in
      (top, dirs, nondirs) ::
      (fix walk_dirs (es : list (str * node)) : list walk_item :=
         match es with
         | [] => []
         | (dirname, child) :: es' =>
             (if is_dir child then _walk (join top dirname) child else [])
             ++ walk_dirs es'
         end) entries
  end.

(** [os.walk(top)] on the file system rooted at [root]: nothing when the
    system cannot follow [top]. *)
Definition walk (cwd top : str) (root : node) : list walk_item :=
  match resolve cwd top root with
  | Some n => _walk top n
  | None => []
  end.

(** [os.makedirs(name, exist_ok=True)] along the components of [name]:
    directories that exist are entered, missing ones are made; a regular
    file in the way raises ([FileExistsError] when it is [name] itself,
    [NotADirectoryError] when it is above). *)
Fixpoint makedirs (comps : list str) (n : node) : result node :=
  match n with
  | File _ =>
      match comps with
      | [] => Raise FileExistsError
      | _ :: _ => Raise NotADirectoryError
      end
  | Dir entries =>
      match comps with
      | [] => Ok n
      | c :: r =>
          let child :=
            match find_entry c entries with
            | Some child => child
            | None => Dir []
            end in
          match makedirs r child with
          | Ok child' => Ok (Dir (set_entry c child' entries))
          | Raise e => Raise e
          end
      end
  end.

(** A file opened with [open(path, "w")] and closed with [content] in it:
    the file is created, or emptied when it exists, and ends with
    [content].  A directory under that name, a missing parent or a regular
    file used as a directory make [open] raise. *)
Fixpoint write_file (comps : list str) (content : bytes) (n : node)
  : result node :=
  match n with
  | File _ =>
      match comps with
      | [] => Ok (File content)
      | _ :: _ => Raise NotADirectoryError
      end
  | Dir entries =>
      match comps with
      | [] => Raise IsADirectoryError
      | c :: r =>
          match find_entry c entries with
          | Some child =>
              match write_file r content child with
              | Ok child' => Ok (Dir (set_entry c child' entries))
              | Raise e => Raise e
              end
          | None =>
              match r with
              | [] => Ok (Dir (set_entry c (File content) entries))
              | _ :: _ => Raise FileNotFoundError
              end
          end
      end
  end.

End FS.

(** ** The world the script runs in *)

(** The root window of Tk. *)
Inductive tk_state : Type :=
| NoRoot
| RootShown
| RootWithdrawn.

Record world : Type := mkWorld {
  tk : tk_state;          (* the Tk root window *)
  stdout : str;           (* the text that has been printed *)
  fs : FS.node            (* the file system, from [/] *)
}.

(** What the run reads and never changes. *)
Record env : Type := mkEnv {
  answer : str;           (* what the folder picker returns; empty when cancelled *)
  script_file : str;      (* [__file__] *)
  cwd : str               (* [os.getcwd()] *)
}.

(** Statements on a state [S]: a state in, a value or an exception and a
    state out. *)
Definition St (S A : Type) : Type := S -> result A * S.

(** The statements of the script act on the world. *)
Definition M (A : Type) : Type := St world A.

Definition ret {S A : Type} (a : A) : St S A := fun s => (Ok a, s).

Definition bind {S A B : Type} (m : St S A) (k : A -> St S B) : St S B :=
  fun s =>
    match m s with
    | (Ok a, s') => k a s'
    | (Raise e, s') => (Raise e, s')
    end.

Definition lift {S A : Type} (r : result A) : St S A := fun s => (r, s).

Declare Scope stmt_scope.
Delimit Scope stmt_scope with stmt.
Notation "x <- m ;; k" := (bind m (fun x => k))
  (at level 61, m at next level, right associativity) : stmt_scope.
Notation "m ;; k" := (bind m (fun _ => k))
  (at level 61, right associativity) : stmt_scope.

(** [for x in l: body(x)] *)
Fixpoint for_ {S B : Type} (l : list B) (body : B -> St S unit) : St S unit :=
  match l with
  | [] => ret tt
  | x :: l' => bind (body x) (fun _ => for_ l' body)
  end.

(** ['\n'] *)
Definition nl : str := [10%N].

(** [Tk()] *)
Definition Tk : M unit :=
  fun w => (Ok tt, mkWorld RootShown (stdout w) (fs w)).

(** [root.withdraw()] *)
Definition withdraw : M unit :=
  fun w => (Ok tt, mkWorld RootWithdrawn (stdout w) (fs w)).

(** [filedialog.askdirectory(title=...)] *)
Definition askdirectory (e : env) (title : str) : M str :=
  fun w => (Ok (answer e), w).

(** [print(s)]: the text and a newline go to the standard output, which is
    taken to accept every text: its encoding and error handler are those of
    the environment, not of the script. *)
Definition print (s : str) : M unit :=
  fun w => (Ok tt, mkWorld (tk w) (stdout w ++ s ++ nl) (fs w)).

(** [os.walk(top)], read in full: nothing is written while it runs. *)
Definition os_walk (e : env) (top : str) : M (list FS.walk_item) :=
  fun w => (Ok (FS.walk (cwd e) top (fs w)), w).

(** [os.makedirs(name, exist_ok=True)], on a normalised [name] *)
Definition os_makedirs (e : env) (name : str) : M unit :=
  fun w =>
    match FS.makedirs (FS.components (cwd e) name) (fs w) with
    | Ok fs' => (Ok tt, mkWorld (tk w) (stdout w) fs')
    | Raise x => (Raise x, w)
    end.

(** [f.write(s)] on a file opened with [encoding="utf-8"]: the text is
    encoded at once, and nothing of it is taken when it cannot be.  The
    state is the bytes the file has taken. *)
Definition utf8_write (s : str) : St bytes unit :=
  fun f =>
    match utf8 s with
    | Some b => (Ok tt, f ++ b)
    | None => (Raise UnicodeEncodeError, f)
    end.

(** [f.write(s)] on a file that keeps its text, as [io.StringIO] does: the
    state is the text written. *)
Definition text_write (s : str) : St str unit :=
  fun f => (Ok tt, f ++ s).

(** [with open(path, "w", encoding="utf-8") as f: body], on a normalised
    [path].  [open] creates the file or empties it, or raises, and then the
    body does not run; the body writes; the end of the block closes the
    file, also when the body raises, and the file keeps the bytes it has
    taken. *)
Definition with_open_w (e : env) (path : str) (body : St bytes unit) : M unit :=
  fun w =>
    let (r, content) := body [] in
    match FS.write_file (FS.components (cwd e) path) content (fs w) with
    | Ok fs' => (r, mkWorld (tk w) (stdout w) fs')
    | Raise x => (Raise x, w)
    end.

(** ** The script *)

(** [files_by_ext]: a dict, its keys in insertion order. *)
Definition table : Type := list (str * list str).

(** [files_by_ext.setdefault(ext, []).append(rel_path)] *)
Fixpoint setdefault_append (ext rel_path : str) (files_by_ext : table) : table :=
  match files_by_ext with
  | [] => [(ext, [rel_path])]
  | (k, paths) :: r =>
      if (k =? ext)%str then (k, paths ++ [rel_path]) :: r
      else (k, paths) :: setdefault_append ext rel_path r
  end.

(** The body of [for filename in filenames]. *)
Definition visit_file (cwd folder_selected dirpath : str)
    (files_by_ext : table) (filename : str) : result table :=
  let ext := ext_of filename in
  match PosixPath.relpath cwd (PosixPath.join dirpath filename) folder_selected with
  | Some rel_path => Ok (setdefault_append ext rel_path files_by_ext)
  | None => Raise ValueError
  end.

(** The body of [for dirpath, _, filenames in os.walk(folder_selected)]. *)
Definition visit_dir (cwd folder_selected : str)
    (files_by_ext : table) (item : FS.walk_item) : result table :=
  let '(dirpath, _, filenames) := item in
  for_each (visit_file cwd folder_selected dirpath) filenames files_by_ext.

(** The two loops, from [files_by_ext = {}]. *)
Definition group_files (cwd folder_selected : str) (walked : list FS.walk_item)
  : result table :=
  for_each (visit_dir cwd folder_selected) walked [].

(** [<] on the [(ext, paths)] pairs of [files_by_ext.items()]: the first
    components decide unless they are equal. *)
Definition item_ltb (a b : str * list str) : bool :=
  if (fst a =? fst b)%str then list_ltb (snd a) (snd b)
  else str_ltb (fst a) (fst b).

(** [sorted(...)] is stable and uses [<] only; so is insertion from the
    right, each element going before the first one that is not below it. *)
Fixpoint insert_item (x : str * list str) (l : table) : table :=
  match l with
  | [] => [x]
  | y :: r => if item_ltb y x then y :: insert_item x r else x :: y :: r
  end.

Fixpoint sorted (l : table) : table :=
  match l with
  | [] => []
  | x :: r => insert_item x (sorted r)
  end.

Local Open Scope stmt_scope.

(** The loops of the [with] block, on a file [f] given by its [write]. *)
Section Writes.

Context {F : Type}.
Variable write : str -> St F unit.

(** The body of [for ext, paths in sorted(files_by_ext.items())]. *)
Definition write_group (item : str * list str) : St F unit :=
  let '(ext, paths) := item in
  write (lit "--- " ++ ext ++ lit " ---" ++ nl) ;;
  for_ paths (fun path => write (path ++ nl)) ;;
  write nl.

(** The body of the [with] block. *)
Definition write_results (files_by_ext : table) : St F unit :=
  for_ (sorted files_by_ext) write_group.

End Writes.

Definition scan_folder_for_filetypes (e : env) : M unit :=
  Tk ;;
  withdraw ;;
  folder_selected <- askdirectory e (lit "Select your extracted DAT folder") ;;
  if (folder_selected =? [])%str then
    print (lit "No folder selected.")
  else
    walked <- os_walk e folder_selected ;;
    files_by_ext <- lift (group_files (cwd e) folder_selected walked) ;;
    let script_dir := PosixPath.dirname (PosixPath.abspath (cwd e) (script_file e)) in
    let output_dir := PosixPath.join script_dir (lit "output") in
    os_makedirs e output_dir ;;
    let folder_name := PosixPath.basename folder_selected in
    let output_path := PosixPath.join output_dir (folder_name ++ lit ".txt") in
    with_open_w e output_path (write_results utf8_write files_by_ext) ;;
    print (lit "Saved to: " ++ output_path).

(** [if __name__ == "__main__": scan_folder_for_filetypes()], with [name]
    the value of [__name__]. *)
Definition module_body (name : str) (e : env) : M unit :=
  if (name =? lit "__main__")%str then scan_folder_for_filetypes e
  else ret tt.

Local Close Scope stmt_scope.

(** ** Notions used in the statements *)

(** The files of a traversal, [(dirpath, filename)], in the order the two
    loops visit them. *)
Definition enumerate (walked : list FS.walk_item) : list (str * str) :=
  flat_map (fun item : FS.walk_item =>
              let '(dirpath, _, filenames) := item in
              map (pair dirpath) filenames) walked.

(** The two loops over the files of a traversal, one after the other. *)
Definition group_enumerated (cwd folder_selected : str)
    (files : list (str * str)) : result table :=
  for_each (fun t file => visit_file cwd folder_selected (fst file) t (snd file))
           files [].

(** The relative path recorded for a file. *)
Definition rel_path_of (cwd folder_selected : str) (file : str * str) : str :=
  PosixPath.relpath_body cwd (PosixPath.join (fst file) (snd file)) folder_selected.

(** [files_by_ext.keys()] *)
Definition keys (t : table) : list str := map fst t.

(** [files_by_ext.get(k, [])] *)
Fixpoint group_of (k : str) (t : table) : list str :=
  match t with
  | [] => []
  | (k', paths) :: r => if (k' =? k)%str then paths else group_of k r
  end.

(** The number of paths in all the groups. *)
Definition total_paths (t : table) : nat :=
  fold_right (fun item n => (List.length (snd item) + n)%nat) O t.

(** The files of a traversal whose key is [k]. *)
Definition with_key (k : str) (files : list (str * str)) : list (str * str) :=
  filter (fun file => (ext_of (snd file) =? k)%str) files.

(** A key is empty or begins with a period, and holds no upper-case letter. *)
Definition key_ok (k : str) : Prop :=
  (k = [] \/ startswith k PosixPath.extsep = true) /\ has_upper k = false.

(** A key is empty or begins with a period, and lower-casing leaves it as
    it is. *)
Definition key_lowered (k : str) : Prop :=
  (k = [] \/ startswith k PosixPath.extsep = true) /\ lower k = k.

(** A text that [lower] handles letter by letter: it holds neither the
    capital sigma (U+03A3), whose lower-case form depends on its
    neighbours, nor the capital I with a dot above (U+0130), which becomes
    two characters.  Every ASCII text is one. *)
Definition letterwise (s : str) : Prop :=
  Forall (fun c => c <> 0x3A3%N /\ c <> 0x130%N) s.

(** A text that UTF-8 can encode: it holds no surrogate. *)
Definition encodable (s : str) : Prop := utf8 s <> None.

(** A table whose keys and paths can all be encoded. *)
Definition table_encodable (t : table) : Prop :=
  Forall (fun item => encodable (fst item) /\ Forall encodable (snd item)) t.

(** *** The report as the specification words it *)

Module SpecReport.

(** The texts one after the other. *)
Fixpoint cat (texts : list str) : str :=
  match texts with
  | [] => []
  | text :: rest => text ++ cat rest
  end.

(** "a header line [--- <ext> ---]" *)
Definition header (ext : str) : str := lit "--- " ++ ext ++ lit " ---" ++ nl.

(** "one relative path per line" *)
Definition lines (paths : list str) : str :=
  cat (map (fun path => path ++ nl) paths).

(** "a header line, followed by one relative path per line, followed by a
    blank line separator" *)
Definition block (item : str * list str) : str :=
  header (fst item) ++ lines (snd item) ++ nl.

(** The blocks of the items, in the order given. *)
Definition report (items : table) : str :=
  cat (map block items).

(** "ascending string-sort order (ordinary string comparison)" *)
Definition ascending (exts : list str) : Prop :=
  StronglySorted (fun a b => str_ltb a b = true) exts.

End SpecReport.

(** *** Where the report goes *)

(** [script_dir], [output_dir] and [output_path] of the script. *)
Definition script_dir (e : env) : str :=
  PosixPath.dirname (PosixPath.abspath (cwd e) (script_file e)).

Definition output_dir (e : env) : str :=
  PosixPath.join (script_dir e) (lit "output").

Definition output_name (e : env) : str :=
  PosixPath.basename (answer e) ++ lit ".txt".

Definition output_path (e : env) : str :=
  PosixPath.join (output_dir e) (output_name e).

(** What is at the place a path spells. *)
Definition at_path (e : env) (path : str) (root : FS.node) : option FS.node :=
  FS.lookup (FS.components (cwd e) path) root.

(** Can [os.makedirs] go down that path: no regular file on it? *)
Fixpoint no_file_on (comps : list str) (n : FS.node) : bool :=
  match n with
  | FS.File _ => false
  | FS.Dir entries =>
      match comps with
      | [] => true
      | c :: r =>
          match FS.find_entry c entries with
          | Some child => no_file_on r child
          | None => true
          end
      end
  end.

(** Nothing is in the way of the report: no regular file is on the path of
    [output_dir], and no directory has the path of the report. *)
Definition can_write_report (e : env) (root : FS.node) : Prop :=
  no_file_on (FS.components (cwd e) (output_dir e)) root = true /\
  match at_path e (output_path e) root with
  | Some (FS.Dir _) => False
  | _ => True
  end.

(** Does the tree hold a regular file? *)
Fixpoint has_file (n : FS.node) : bool :=
  match n with
  | FS.File _ => true
  | FS.Dir entries =>
      (fix any (es : list (str * FS.node)) : bool :=
         match es with
         | [] => false
         | (_, child) :: es' => has_file child || any es'
         end) entries
  end.

(** Induction on trees, with the hypothesis for every entry of a
    directory. *)
Section NodeInduction.

Variable P : FS.node -> Prop.
Hypothesis P_File : forall content, P (FS.File content).
Hypothesis P_Dir :
  forall entries, Forall (fun entry => P (snd entry)) entries -> P (FS.Dir entries).

Fixpoint node_induction (n : FS.node) : P n :=
  match n with
  | FS.File content => P_File content
  | FS.Dir entries =>
      P_Dir entries
        ((fix all (es : list (str * FS.node))
            : Forall (fun entry => P (snd entry)) es :=
            match es with
            | [] => Forall_nil _
            | entry :: es' => Forall_cons entry (node_induction (snd entry)) (all es')
            end) entries)
  end.

End NodeInduction.

(** [q] leads to [comps]: it is [comps] or stops above it. *)
Definition leads_to (q comps : list str) : Prop :=
  exists r, comps = q ++ r.

(** A name that can be an entry of a directory. *)
Definition plain (b : str) : Prop :=
  b <> [] /\ b <> [PosixPath.extsep] /\ b <> [PosixPath.extsep; PosixPath.extsep]
  /\ contains PosixPath.sep b = false.

(** Every entry of the tree has a name a directory can hold. *)
Fixpoint well_named (n : FS.node) : Prop :=
  match n with
  | FS.File _ => True
  | FS.Dir entries =>
      (fix all (es : list (str * FS.node)) : Prop :=
         match es with
         | [] => True
         | (name, child) :: es' => plain name /\ well_named child /\ all es'
         end) entries
  end.

(** A path made of names of entries, [/] between them. *)
Definition entry_path (p : str) : Prop :=
  exists names,
    names <> [] /\ Forall plain names /\ p = PosixPath.sep_join names.

(** In a well-named tree, a file met by the walk lies below [top] along
    plain names. *)
Definition below (top : str) (file : str * str) : Prop :=
  exists dirnames,
    Forall plain dirnames /\ fst file = fold_left PosixPath.join dirnames top /\ plain (snd file).

(** ** Notions used in the proofs *)

(** What a table holds after the files [visited]. *)
Record holds (cwd folder_selected : str) (visited : list (str * str))
    (t : table) : Prop := {
  holds_nodup : NoDup (keys t);
  holds_keys : forall k, In k (keys t) <-> with_key k visited <> [];
  holds_group : forall k,
    group_of k t = map (rel_path_of cwd folder_selected) (with_key k visited);
  holds_paths :
    Permutation (List.concat (map snd t)) (map (rel_path_of cwd folder_selected) visited)
}.

(** Items in the order of their keys. *)
Definition key_lt (a b : str * list str) : Prop :=
  str_ltb (fst a) (fst b) = true.

(** The first character of the lower-case form of a character: all of it,
    but for U+0130. *)
Definition lower_char (c : char) : char := hd c (Unicode.to_lower_full c).


(** A character that lower-casing leaves alone, wherever it stands. *)
Definition lower_keeps (c : char) : Prop :=
  c <> 0x3A3%N /\ Unicode.to_lower_full c = [c].

(** The texts the [with] block writes for one item and for all the items,
    one text per call of [f.write]. *)
Definition group_chunks (item : str * list str) : list str :=
  (lit "--- " ++ fst item ++ lit " ---" ++ nl)
    :: map (fun path => path ++ nl) (snd item) ++ [nl].

Definition chunks (items : table) : list str := flat_map group_chunks items.

(** A file system after directories were made and files written: what was
    there is there, directories as directories and files as files. *)
Definition grows (root root' : FS.node) : Prop :=
  forall q n,
    FS.lookup q root = Some n ->
    exists n', FS.lookup q root' = Some n' /\ FS.is_dir n' = FS.is_dir n.

(** The left part of a join, with its separator. *)
Definition glue (s : str) : str :=
  if (s =? [])%str || endswith s PosixPath.sep then s
  else s ++ [PosixPath.sep].

(** The names a list of components spells. *)
Definition spelled (comps : list str) : list str :=
  fold_left FS.resolve_step comps [].

(** A stack of names: none is empty, [..] or holds a separator. *)
Definition clean (stack : list str) : Prop :=
  Forall (fun x => x <> [] /\ x <> [PosixPath.extsep; PosixPath.extsep]
                   /\ contains PosixPath.sep x = false) stack.

(** The path before normalisation in [abspath]. *)
Definition absolute (cwd path : str) : str :=
  if PosixPath.isabs path then path else PosixPath.join cwd path.

(** ** An example

    The directory of the specification: [a.TXT], [b.txt], [README] and
    [sub/c.txt], in [/home/u/data]; the script is [/opt/creepdir/creepdir.py]. *)

Module Example.
Import FS.

Definition data : node :=
  Dir [(lit "a.TXT", File (lit "A")); (lit "b.txt", File (lit "B"));
       (lit "README", File (lit "R"));
       (lit "sub", Dir [(lit "c.txt", File (lit "C"))])].

Definition home : node :=
  Dir [(lit "u", Dir [(lit "data", data);
                      (lit "empty", Dir [(lit "void", Dir [])])])].

Definition script : node := File (lit "import os").

Definition root : node :=
  Dir [(lit "home", home);
       (lit "opt", Dir [(lit "creepdir", Dir [(lit "creepdir.py", script)])])].

(** The same, after an earlier run left a report. *)
Definition root_again : node :=
  Dir [(lit "home", home);
       (lit "opt",
        Dir [(lit "creepdir",
              Dir [(lit "creepdir.py", script);
                   (lit "output", Dir [(lit "data.txt", File (lit "an old report"))])])])].

Definition picked : env :=
  mkEnv (lit "/home/u/data") (lit "/opt/creepdir/creepdir.py") (lit "/home/u").
Definition picked_empty : env :=
  mkEnv (lit "/home/u/empty") (lit "creepdir.py") (lit "/opt/creepdir").
Definition cancelled : env :=
  mkEnv [] (lit "/opt/creepdir/creepdir.py") (lit "/home/u").

Definition before : world := mkWorld NoRoot [] root.
Definition before_again : world :=
  mkWorld NoRoot (lit "$ python creepdir.py") root_again.

Definition files_by_ext : table :=
  [(lit ".txt", map lit ["a.TXT"; "b.txt"; "sub/c.txt"]); ([], [lit "README"])].

(** Names beyond ASCII: [x.ϒ] (U+03D2, an upper-case letter without a
    lower-case form), [Α.Σ] and [α.ς] (the sigma is final in both once
    lower-cased), and a name with a byte that is not UTF-8, which Python
    reads as the lone surrogate U+DCFF. *)
Definition upsilon_hook : str := lit "x." ++ [0x3D2%N].
Definition alpha_sigma : str := [0x391; 0x2E; 0x3A3]%N.
Definition alpha_final_sigma : str := [0x3B1; 0x2E; 0x3C2]%N.
Definition not_utf8 : str := lit "f" ++ [0xDCFF%N] ++ lit ".txt".

(** [/home/u/data] with one more file, whose name is not UTF-8. *)
Definition root_not_utf8 : node :=
  Dir [(lit "home",
        Dir [(lit "u", Dir [(lit "data",
                             Dir [(lit "a.TXT", File (lit "A"));
                                  (not_utf8, File (lit "N"))])])]);
       (lit "opt", Dir [(lit "creepdir", Dir [(lit "creepdir.py", script)])])].

End Example.

(** ** Worlds where something is in the way *)

Module Mishap.
Import FS.

(** A regular file named [output] sits beside the script. *)
Definition root_blocked : node :=
  Dir [(lit "home", Example.home);
       (lit "opt", Dir [(lit "creepdir", Dir [(lit "creepdir.py", Example.script);
                                              (lit "output", File (lit "notes"))])])].

(** A directory has the name of the report. *)
Definition root_taken : node :=
  Dir [(lit "home", Example.home);
       (lit "opt",
        Dir [(lit "creepdir",
              Dir [(lit "creepdir.py", Example.script);
                   (lit "output", Dir [(lit "data.txt", Dir [(lit "x", File [])])])])])].

Definition blocked : world := mkWorld NoRoot [] root_blocked.
Definition taken : world := mkWorld NoRoot [] root_taken.

(** The picked folder ends with a separator; the picked path is a regular
    file; the picked path does not exist; the picked path goes through a
    directory that does not exist and comes back. *)
Definition picked_slash : env :=
  mkEnv (lit "/home/u/data/") (lit "/opt/creepdir/creepdir.py") (lit "/home/u").
Definition picked_file : env :=
  mkEnv (lit "/home/u/data/README") (lit "/opt/creepdir/creepdir.py") (lit "/home/u").
Definition picked_missing : env :=
  mkEnv (lit "/home/u/gone") (lit "/opt/creepdir/creepdir.py") (lit "/home/u").
Definition picked_through_missing : env :=
  mkEnv (lit "/home/u/gone/../data") (lit "/opt/creepdir/creepdir.py") (lit "/home/u").

(** The script lies elsewhere, beside other files. *)
Definition root_elsewhere : node :=
  Dir [(lit "srv", Dir [(lit "tools", Dir [(lit "creepdir.py", Example.script)])]);
       (lit "home", Example.home)].
Definition picked_elsewhere : env :=
  mkEnv (lit "/home/u/data") (lit "creepdir.py") (lit "/srv/tools").
Definition elsewhere : world :=
  mkWorld RootWithdrawn (lit "earlier output") root_elsewhere.

End Mishap.

(** * Properties *)

(** ** The library functions on sample inputs

    The values are those of CPython 3.11. *)

Module LibraryExamples.
Import PosixPath.

Example splitext_samples :
  map splitext
    (map lit ["a.TXT"; "README"; ".gitignore"; "Archive.Tar.GZ"; "...a.B"; "a."; "..x";
              ".."; "dir.d/name"]) =
  map (fun r => (lit (fst r), lit (snd r)))
    [("a", ".TXT"); ("README", ""); (".gitignore", ""); ("Archive.Tar", ".GZ");
     ("...a", ".B"); ("a", "."); ("..x", ""); ("..", ""); ("dir.d/name", "")].
Proof. vm_compute. reflexivity. Qed.

Example join_samples :
  map (fun ab => join (lit (fst ab)) (lit (snd ab)))
    [("/home/u", "data"); ("/home/u/", "data"); ("", "data"); ("/home/u", "/data");
     ("/home/u", "")] =
  map lit ["/home/u/data"; "/home/u/data"; "data"; "/data"; "/home/u/"].
Proof. vm_compute. reflexivity. Qed.

Example basename_samples :
  map basename (map lit ["/home/u/data"; "/home/u/data/"; "/"; "data"]) =
  map lit ["data"; ""; ""; "data"].
Proof. vm_compute. reflexivity. Qed.

Example dirname_samples :
  map dirname (map lit ["/opt/creepdir/creepdir.py"; "creepdir.py"; "/a//b"; "//a"; "/"]) =
  map lit ["/opt/creepdir"; ""; "/a"; "//"; "/"].
Proof. vm_compute. reflexivity. Qed.

Example normpath_samples :
  map normpath (map lit ["/home/u/../u/./data//"; "//srv/x"; "///srv/x"; "a/../.."; ""]) =
  map lit ["/home/u/data"; "//srv/x"; "/srv/x"; ".."; "."].
Proof. vm_compute. reflexivity. Qed.

Example relpath_samples :
  map (fun ps => relpath (lit "/cwd") (lit (fst ps)) (lit (snd ps)))
    [("/r/sub/c.txt", "/r"); ("/r/./a", "/r/"); ("/r", "/r"); ("/a/b", "/a/c/d");
     ("x", "/"); ("", "/r"); ("/a", "b")] =
  [Some (lit "sub/c.txt"); Some (lit "a"); Some (lit "."); Some (lit "../../b");
   Some (lit "cwd/x"); None; Some (lit "../../a")].
Proof. vm_compute. reflexivity. Qed.

(** [lower] on ASCII and Latin-1 ([ÉT×] becomes [ét×]), on a capital sigma
    that ends a word ([ΟΔΟΣ] becomes [οδος]) and on one that does not
    ([ΣΑΣ] becomes [σας], [Σ] alone [σ]), on the capital I with a dot above,
    which becomes two characters, and on U+03D2, which it leaves alone. *)
Example lower_samples :
  lower (lit "Read.ME") = lit "read.me" /\
  lower [201; 84; 215]%N = [233; 116; 215]%N /\
  lower [0x39F; 0x394; 0x39F; 0x3A3]%N = [0x3BF; 0x3B4; 0x3BF; 0x3C2]%N /\
  lower [0x3A3; 0x391; 0x3A3]%N = [0x3C3; 0x3B1; 0x3C2]%N /\
  lower [0x3A3]%N = [0x3C3]%N /\
  lower Example.alpha_sigma = Example.alpha_final_sigma /\
  lower Example.alpha_final_sigma = Example.alpha_final_sigma /\
  lower [0x130]%N = [0x69; 0x307]%N /\
  lower [0x3D2]%N = [0x3D2]%N.
Proof. vm_compute. repeat split. Qed.

Example sorted_sample :
  sorted [(lit ".txt", [lit "1"]); ([], [lit "2"]); (lit ".PNG", [lit "3"]);
          (lit ".md", [lit "4"])] =
  [([], [lit "2"]); (lit ".PNG", [lit "3"]); (lit ".md", [lit "4"]);
   (lit ".txt", [lit "1"])].
Proof. vm_compute. reflexivity. Qed.

(** [café], the euro sign and U+1F600 in UTF-8; a lone surrogate has no
    encoding. *)
Example utf8_samples :
  utf8 (lit "caf" ++ [233%N]) = Some [99; 97; 102; 195; 169]%N /\
  utf8 [0x20AC]%N = Some [0xE2; 0x82; 0xAC]%N /\
  utf8 [0x1F600]%N = Some [0xF0; 0x9F; 0x98; 0x80]%N /\
  utf8 Example.not_utf8 = None.
Proof. vm_compute. repeat split. Qed.

Example makedirs_sample :
  FS.makedirs (map lit ["opt"; "tools"; "output"]) (FS.Dir [(lit "opt", FS.Dir [])]) =
  Ok (FS.Dir [(lit "opt", FS.Dir [(lit "tools", FS.Dir [(lit "output", FS.Dir [])])])]) /\
  FS.makedirs (map lit ["opt"; "f"; "output"])
    (FS.Dir [(lit "opt", FS.Dir [(lit "f", FS.File [])])]) =
  Raise NotADirectoryError.
Proof. vm_compute. split; reflexivity. Qed.

(** The system follows [/home/u/gone/../data] only when [gone] is there;
    read as [normpath] reads it, the path spells [/home/u/data] always. *)
Example resolve_samples :
  FS.resolve (lit "/home/u") (lit "/home/u/data") Example.root = Some Example.data /\
  FS.resolve (lit "/home/u") (lit "data/../data/./sub/..") Example.root = Some Example.data /\
  FS.resolve (lit "/home/u") (lit "/home/u/gone/../data") Example.root = None /\
  FS.resolve (lit "/home/u") (lit "/home/u/empty/../data") Example.root = Some Example.data /\
  FS.resolve (lit "/home/u") (lit "/home/u/data/README/") Example.root = None /\
  FS.resolve (lit "/home/u") (lit "/../home") Example.root = Some Example.home /\
  FS.components (lit "/home/u") (lit "/home/u/gone/../data") = map lit ["home"; "u"; "data"].
Proof. vm_compute. repeat split. Qed.

End LibraryExamples.

(** ** Strings *)

Module PyStrFacts.
Import PyStr.

Lemma app_flat (s t u : str) : (s ++ t) ++ u = s ++ t ++ u.
Proof. symmetry. apply List.app_assoc. Qed.

Lemma str_eqb_spec a b : reflect (a = b) (a =? b)%str.
Proof.
  revert b; induction a as [|x a IH]; intros [|y b]; simpl;
    try (constructor; congruence).
  destruct (N.eqb_spec x y) as [->|D]; simpl.
  - destruct (IH b) as [->|D]; constructor; congruence.
  - constructor; congruence.
Qed.

Lemma str_eqb_refl a : (a =? a)%str = true.
Proof. now destruct (str_eqb_spec a a). Qed.

Lemma str_eqb_eq a b : (a =? b)%str = true <-> a = b.
Proof. destruct (str_eqb_spec a b); split; congruence. Qed.

Lemma str_eqb_neq a b : (a =? b)%str = false <-> a <> b.
Proof. destruct (str_eqb_spec a b); split; congruence. Qed.

Lemma str_eqb_sym a b : (a =? b)%str = (b =? a)%str.
Proof. destruct (str_eqb_spec a b), (str_eqb_spec b a); congruence. Qed.

Lemma length_take n s : (n <= List.length s)%nat -> List.length (take n s) = n.
Proof.
  revert s; induction n as [|n IH]; intros [|c s] H; simpl in *; try lia.
  now rewrite IH by lia.
Qed.

Lemma take_drop n s : take n s ++ drop n s = s.
Proof.
  revert s; induction n as [|n IH]; intros [|c s]; simpl; trivial.
  now rewrite IH.
Qed.

Lemma drop_succ n s c q : drop n s = c :: q -> drop (S n) s = q.
Proof.
  revert s; induction n as [|n IH]; intros [|a s] H; simpl in *; try discriminate.
  - now inversion H.
  - now apply IH.
Qed.

Lemma take_all n s : (List.length s <= n)%nat -> take n s = s.
Proof.
  revert s; induction n as [|n IH]; intros [|c s] H; simpl in *; trivial; try lia.
  now rewrite IH by lia.
Qed.

Lemma clamp_nat s n : (n <= List.length s)%nat -> clamp s (Z.of_nat n) = n.
Proof.
  intros H. unfold clamp, len.
  destruct (Z.ltb_spec (Z.of_nat n) 0); lia.
Qed.

Lemma rindex_lt c s i : rindex c s = Some i -> (i < List.length s)%nat.
Proof.
  revert i; induction s as [|a s IH]; intros i; simpl; [discriminate|].
  destruct (rindex c s) as [j|].
  - intros [= <-]. specialize (IH j eq_refl). lia.
  - destruct (a =? c)%N; [intros [= <-]; lia | discriminate].
Qed.

Lemma rindex_none c s : rindex c s = None <-> contains c s = false.
Proof.
  induction s as [|a s IH]; simpl; [tauto|].
  destruct (rindex c s) as [j|].
  - split; [discriminate|]. intros H. apply orb_false_elim in H.
    destruct IH as [_ IH]. now specialize (IH (proj2 H)).
  - destruct IH as [IH _]. rewrite (IH eq_refl), orb_false_r.
    destruct (a =? c)%N; split; congruence.
Qed.

Lemma rfind_absent c s : contains c s = false -> rfind s c = -1.
Proof. intros H. unfold rfind. now rewrite (proj2 (rindex_none c s) H). Qed.

Lemma rfind_bounds c s : -1 <= rfind s c < len s.
Proof.
  unfold rfind, len. destruct (rindex c s) as [i|] eqn:E; [|lia].
  apply rindex_lt in E. lia.
Qed.

Lemma slice_to_0 s : slice_to s 0 = [].
Proof. unfold slice_to, clamp; simpl. now destruct s. Qed.

Lemma slice_one s n c q :
  drop n s = c :: q -> slice s (Z.of_nat n) (Z.of_nat n + 1) = [c].
Proof.
  intros H.
  assert (L : (n < List.length s)%nat).
  { destruct (Nat.lt_ge_cases n (List.length s)) as [|G]; trivial.
    pose proof (take_drop n s) as T. rewrite (take_all n s G), H in T.
    apply (f_equal (@List.length char)) in T. rewrite List.length_app in T.
    simpl in T. lia. }
  unfold slice. rewrite (clamp_nat s n) by lia.
  replace (Z.of_nat n + 1) with (Z.of_nat (S n)) by lia.
  rewrite (clamp_nat s (S n)) by lia.
  replace (S n - n)%nat with 1%nat by lia. rewrite H. reflexivity.
Qed.

Lemma contains_app c s t : contains c (s ++ t) = contains c s || contains c t.
Proof.
  induction s as [|a s IH]; simpl; trivial.
  now rewrite IH, orb_assoc.
Qed.

Lemma contains_in c s : contains c s = true <-> In c s.
Proof.
  induction s as [|a s IH]; simpl; [split; [discriminate | tauto]|].
  rewrite orb_true_iff, IH, N.eqb_eq. tauto.
Qed.

Lemma contains_drop c n s : contains c s = false -> contains c (drop n s) = false.
Proof.
  intros H. rewrite <- (take_drop n s), contains_app in H.
  now apply orb_false_elim in H.
Qed.

Lemma forall_drop (P : char -> Prop) n s : Forall P s -> Forall P (drop n s).
Proof.
  intros H. rewrite <- (take_drop n s) in H. now apply Forall_app in H.
Qed.

Lemma forall_take (P : char -> Prop) n s : Forall P s -> Forall P (take n s).
Proof.
  intros H. rewrite <- (take_drop n s) in H. now apply Forall_app in H.
Qed.

End PyStrFacts.

(** ** The Unicode tables and [lower] *)

Module UnicodeFacts.
Import Unicode PyStr PyStrFacts.

Lemma find_lower_in c table l : find_lower c table = Some l -> In (c, l) table.
Proof.
  induction table as [|[k v] table IH]; simpl; [discriminate|].
  destruct (N.eqb_spec k c) as [->|D].
  - intros [= ->]. now left.
  - intros H. right. now apply IH.
Qed.

(** What holds of every entry of the table, and of the characters that are
    not in it, holds of every lower-casing. *)
Lemma to_lower_full_cases (P : N -> list N -> bool) :
  forallb (fun entry => P (fst entry) (snd entry)) lower_table = true ->
  forall c, (find_lower c lower_table = None -> P c [c] = true) ->
  P c (to_lower_full c) = true.
Proof.
  intros T c D. unfold to_lower_full.
  destruct (find_lower c lower_table) as [l|] eqn:E; [|now apply D].
  apply find_lower_in in E. rewrite forallb_forall in T. exact (T (c, l) E).
Qed.

Lemma to_lower_full_period : to_lower_full 46 = [46%N].
Proof. vm_compute. reflexivity. Qed.

Lemma to_lower_full_sep : to_lower_full 47 = [47%N].
Proof. vm_compute. reflexivity. Qed.

(** Lower-casing neither makes nor removes a period or a separator. *)
Lemma to_lower_full_contains d c :
  d = 46%N \/ d = 47%N -> contains d (to_lower_full c) = (c =? d)%N.
Proof.
  intros Hd.
  assert (A : Bool.eqb (contains 46 (to_lower_full c)) (c =? 46)%N
              && Bool.eqb (contains 47 (to_lower_full c)) (c =? 47)%N = true).
  { apply (to_lower_full_cases
             (fun k l => Bool.eqb (contains 46 l) (k =? 46)%N
                         && Bool.eqb (contains 47 l) (k =? 47)%N)).
    - vm_compute. reflexivity.
    - intros _. cbn [contains]. rewrite !orb_false_r, !Bool.eqb_reflx. reflexivity. }
  apply andb_prop in A. destruct A as [A B].
  destruct Hd as [-> | ->]; now apply Bool.eqb_prop.
Qed.

(** Only the capital I with a dot above becomes more than one character. *)
Lemma to_lower_full_one c : c <> 0x130%N -> to_lower_full c = [lower_char c].
Proof.
  intros Hc.
  assert (A : (c =? 0x130)%N || Nat.eqb (List.length (to_lower_full c)) 1 = true).
  { apply (to_lower_full_cases (fun k l => (k =? 0x130)%N || Nat.eqb (List.length l) 1)).
    - vm_compute. reflexivity.
    - intros _. apply orb_true_r. }
  destruct (N.eqb_spec c 0x130) as [|_]; [contradiction|]. rewrite orb_false_l in A.
  unfold lower_char. destruct (to_lower_full c) as [|x [|y l]]; try discriminate A.
  reflexivity.
Qed.


(** What lower-casing gives, lower-casing leaves alone. *)
Lemma to_lower_full_keeps c x : In x (to_lower_full c) -> lower_keeps x.
Proof.
  intros I.
  assert (A : forallb (fun x => negb (x =? 0x3A3)%N && (to_lower_full x =? [x])%str)
                      (to_lower_full c) = true).
  { apply (to_lower_full_cases
             (fun _ l => forallb (fun x => negb (x =? 0x3A3)%N
                                           && (to_lower_full x =? [x])%str) l)).
    - vm_compute. reflexivity.
    - intros E. cbn [forallb]. rewrite andb_true_r.
      unfold to_lower_full at 1. rewrite E, str_eqb_refl, andb_true_r.
      destruct (N.eqb_spec c 0x3A3) as [->|]; [|reflexivity].
      vm_compute in E. discriminate E. }
  rewrite forallb_forall in A. specialize (A x I).
  apply andb_prop in A. destruct A as [A B]. split.
  - intros ->. vm_compute in A. discriminate A.
  - now apply str_eqb_eq.
Qed.

Lemma if_cases {A : Type} (b : bool) (x y : A) :
  (if b then x else y) = x \/ (if b then x else y) = y.
Proof. destruct b; [now left | now right]. Qed.

(** A capital sigma becomes one of the two small sigmas. *)
Lemma handle_capital_sigma_cases before after :
  handle_capital_sigma before after = 0x3C2%N \/
  handle_capital_sigma before after = 0x3C3%N.
Proof. unfold handle_capital_sigma. cbv zeta. apply if_cases. Qed.

Lemma lower_step before c rest :
  lower_from before (c :: rest) =
  (if (c =? 0x3A3)%N then [handle_capital_sigma before rest] else to_lower_full c)
  ++ lower_from (c :: before) rest.
Proof. reflexivity. Qed.

Lemma lower_from_keeps before s : Forall lower_keeps (lower_from before s).
Proof.
  revert before; induction s as [|c s IH]; intros before; [constructor|].
  rewrite lower_step. apply Forall_app. split; [|apply IH].
  destruct (c =? 0x3A3)%N.
  - constructor; [|constructor].
    destruct (handle_capital_sigma_cases before s) as [-> | ->];
      (split; [discriminate | vm_compute; reflexivity]).
  - apply Forall_forall. intros x I. exact (to_lower_full_keeps c x I).
Qed.

Lemma lower_from_kept before s : Forall lower_keeps s -> lower_from before s = s.
Proof.
  intros H; revert before; induction H as [|c s [Hc Hl] _ IH]; intros before;
    [reflexivity|].
  rewrite lower_step. destruct (N.eqb_spec c 0x3A3) as [|_]; [contradiction|].
  rewrite Hl, IH. reflexivity.
Qed.

(** Lower-casing twice is lower-casing once. *)
Lemma lower_idempotent s : lower (lower s) = lower s.
Proof. apply lower_from_kept, lower_from_keeps. Qed.

(** The periods and the separators of a text are those of its lower-case
    form. *)
Lemma lower_from_contains d before s :
  d = 46%N \/ d = 47%N -> contains d (lower_from before s) = contains d s.
Proof.
  intros Hd. revert before; induction s as [|c s IH]; intros before; [reflexivity|].
  rewrite lower_step, contains_app, IH. cbn [contains]. f_equal.
  destruct (N.eqb_spec c 0x3A3) as [->|_].
  - destruct (handle_capital_sigma_cases before s) as [-> | ->], Hd as [-> | ->];
      reflexivity.
  - now apply to_lower_full_contains.
Qed.

Lemma lower_contains d s :
  d = 46%N \/ d = 47%N -> contains d (lower s) = contains d s.
Proof. apply lower_from_contains. Qed.

Lemma lower_period s : lower (46%N :: s) = 46%N :: lower_from [46%N] s.
Proof. unfold lower. rewrite lower_step, to_lower_full_period. reflexivity. Qed.

Lemma lower_startswith_period s :
  startswith s 46 = true -> startswith (lower s) 46 = true.
Proof.
  destruct s as [|c s]; [discriminate|]. cbn [startswith]. intros H.
  apply N.eqb_eq in H. subst c. rewrite lower_period. reflexivity.
Qed.

(** On a text without capital sigma and capital I with a dot above, [lower]
    replaces each character by its lower-case form. *)
Lemma lower_from_letterwise before s :
  letterwise s -> lower_from before s = map lower_char s.
Proof.
  intros H; revert before; induction H as [|c s [Hs Hi] _ IH]; intros before;
    [reflexivity|].
  rewrite lower_step. destruct (N.eqb_spec c 0x3A3) as [|_]; [contradiction|].
  rewrite (to_lower_full_one c Hi), IH. reflexivity.
Qed.

Lemma lower_letterwise s : letterwise s -> lower s = map lower_char s.
Proof. apply lower_from_letterwise. Qed.

Lemma is_ascii_letterwise s : is_ascii s -> letterwise s.
Proof.
  unfold is_ascii, letterwise. apply Forall_impl. intros c H. split; intros ->; lia.
Qed.

(** Without a capital sigma, [lower] works character by character. *)
Lemma lower_from_no_sigma before s :
  contains 0x3A3 s = false -> lower_from before s = flat_map to_lower_full s.
Proof.
  revert before; induction s as [|c s IH]; intros before H; [reflexivity|].
  cbn [contains] in H. apply orb_false_elim in H. destruct H as [Hc Hs].
  rewrite lower_step, Hc, (IH _ Hs). reflexivity.
Qed.

Lemma lower_app_no_sigma s t :
  contains 0x3A3 (s ++ t) = false -> lower (s ++ t) = lower s ++ lower t.
Proof.
  intros H. pose proof H as G. rewrite contains_app in G.
  apply orb_false_elim in G. destruct G as [Gs Gt].
  unfold lower. rewrite !lower_from_no_sigma by trivial. apply flat_map_app.
Qed.

End UnicodeFacts.

(** ** The extension *)

Module ExtFacts.
Import PyStr PyStrFacts PosixPath.

(** The loop of [_splitext], started [n] characters before the last
    period: it gives up exactly when these characters are all periods. *)
Lemma skip_leading_dots_spec p d : forall n a,
  (a + n = d)%nat -> (d <= List.length p)%nat ->
  skip_leading_dots p (Z.of_nat a) (Z.of_nat d) n =
  if SpecExt.all_periods (take n (drop a p)) then (p, [])
  else (take d p, drop d p).
Proof.
  induction n as [|n IH]; intros a Ha Hd; cbn [skip_leading_dots].
  - now rewrite slice_to_0.
  - destruct (drop a p) as [|c q] eqn:E.
    { exfalso. pose proof (take_drop a p) as T. rewrite E, app_nil_r in T.
      apply (f_equal (@List.length char)) in T.
      destruct (Nat.le_ge_cases a (List.length p)) as [L|L].
      - rewrite length_take in T by trivial. lia.
      - lia. }
    rewrite (slice_one p a c q E). unfold extsep, SpecExt.period.
    cbn [take SpecExt.all_periods str_eqb]. unfold SpecExt.period.
    destruct (N.eqb_spec c 46) as [->|Hc]; cbn [negb andb].
    + replace (Z.of_nat a + 1) with (Z.of_nat (S a)) by lia.
      rewrite (IH (S a)) by lia. now rewrite (drop_succ a p _ q E).
    + unfold slice_to, slice_from.
      now rewrite (clamp_nat p d Hd).
Qed.

Lemma cut_last_period_none s :
  rindex 46 s = None -> SpecExt.cut_last_period s = None.
Proof.
  induction s as [|c s IH]; simpl; trivial.
  destruct (rindex 46 s) as [j|]; [discriminate|].
  rewrite (IH eq_refl). unfold SpecExt.period. now destruct (c =? 46)%N.
Qed.

Lemma cut_last_period_some s : forall i,
  rindex 46 s = Some i ->
  SpecExt.cut_last_period s = Some (take i s, drop i s).
Proof.
  induction s as [|c s IH]; intros i; simpl; [discriminate|].
  destruct (rindex 46 s) as [j|] eqn:E.
  - intros [= <-]. now rewrite (IH j eq_refl).
  - rewrite (cut_last_period_none s E). unfold SpecExt.period.
    destruct (c =? 46)%N; [intros [= <-]; reflexivity | discriminate].
Qed.

(** [splitext] on a name without separator. *)
Lemma splitext_filename p :
  contains sep p = false ->
  snd (splitext p) =
  match rindex extsep p with
  | Some i => if SpecExt.all_periods (take i p) then [] else drop i p
  | None => []
  end.
Proof.
  intros H. unfold splitext. rewrite (rfind_absent sep p H).
  unfold rfind. destruct (rindex extsep p) as [i|] eqn:E.
  - assert (G : (Z.of_nat i >? -1) = true) by (apply Z.gtb_lt; lia).
    rewrite G. replace (-1 + 1) with (Z.of_nat 0) by reflexivity.
    replace (Z.to_nat (Z.of_nat i - Z.of_nat 0)) with i by lia.
    pose proof (rindex_lt _ _ _ E) as L.
    rewrite (skip_leading_dots_spec p i i 0%nat) by lia. cbn [drop].
    now destruct (SpecExt.all_periods (take i p)).
  - cbn. now rewrite slice_to_0.
Qed.

(** No extension when the last period is not beyond the first character
    of the last component. *)
Lemma splitext_period_first p :
  rfind p extsep <= rfind p sep + 1 -> snd (splitext p) = [].
Proof.
  intros H. unfold splitext.
  destruct (Z.gtb_spec (rfind p extsep) (rfind p sep)) as [G|G].
  - replace (Z.to_nat (rfind p extsep - (rfind p sep + 1))) with 0%nat by lia.
    cbn [skip_leading_dots snd]. apply slice_to_0.
  - cbn [snd]. apply slice_to_0.
Qed.

End ExtFacts.

(** C1, as amended: for every enumerated filename (a name without [/]), the
    grouping key is the substring of the filename from its last period
    onward, lowercased, when some character before that period is not a
    period; it is the empty string when the filename has no period or has
    only periods before its last one. *)
Theorem C1_key_is_extension_after_stem (filename : str) :
  contains PosixPath.sep filename = false ->
  ext_of filename = SpecExt.extension_after_stem filename.
Proof.
  intros H. unfold ext_of, SpecExt.extension_after_stem.
  rewrite (ExtFacts.splitext_filename filename H). unfold PosixPath.extsep.
  destruct (rindex 46 filename) as [i|] eqn:E.
  - rewrite (ExtFacts.cut_last_period_some filename i E).
    now destruct (SpecExt.all_periods (take i filename)).
  - now rewrite (ExtFacts.cut_last_period_none filename E).
Qed.

Lemma C1_key_is_extension_after_stem_witness :
  contains PosixPath.sep (lit "Archive.Tar.GZ") = false /\
  ext_of (lit "Archive.Tar.GZ") = SpecExt.extension_after_stem (lit "Archive.Tar.GZ").
Proof.
  split; [reflexivity | apply C1_key_is_extension_after_stem; reflexivity].
Defined.

(** C1, as stated, fails on a dotfile: the substring of [.gitignore] from
    its last period onward is the whole name, and the key is empty. *)
Lemma C1_dotfile_counterexample :
  contains PosixPath.sep (lit ".gitignore") = false /\
  SpecExt.extension (lit ".gitignore") = lit ".gitignore" /\
  ext_of (lit ".gitignore") = [] /\
  ext_of (lit ".gitignore") <> SpecExt.extension (lit ".gitignore").
Proof.
  vm_compute. repeat split; discriminate.
Qed.

(** C9: a filename that begins with a period and holds no other period has
    the empty key, which is the key of the names without any period, and
    not the whole filename. *)
Theorem C9_dotfile_has_empty_key (rest : str) :
  contains PosixPath.extsep rest = false ->
  ext_of (PosixPath.extsep :: rest) = [] /\
  ext_of rest = [] /\
  ext_of (PosixPath.extsep :: rest) <> lower (PosixPath.extsep :: rest).
Proof.
  unfold PosixPath.extsep. intros H.
  assert (R : rindex 46 rest = None) by now apply PyStrFacts.rindex_none.
  assert (A : ext_of (46%N :: rest) = []).
  { unfold ext_of. rewrite ExtFacts.splitext_period_first; trivial.
    pose proof (PyStrFacts.rfind_bounds PosixPath.sep (46%N :: rest)) as B.
    unfold rfind at 1, PosixPath.extsep. cbn [rindex]. rewrite R. cbn. lia. }
  split; [exact A|]. split.
  - unfold ext_of. rewrite ExtFacts.splitext_period_first; trivial.
    pose proof (PyStrFacts.rfind_bounds PosixPath.sep rest) as B.
    unfold rfind at 1, PosixPath.extsep. rewrite R. lia.
  - rewrite A, UnicodeFacts.lower_period. discriminate.
Qed.

Lemma C9_dotfile_has_empty_key_witness :
  contains PosixPath.extsep (lit "gitignore") = false /\
  ext_of (lit ".gitignore") = [] /\ ext_of (lit "gitignore") = [] /\
  ext_of (lit ".gitignore") <> lower (lit ".gitignore").
Proof.
  split; [reflexivity | apply (C9_dotfile_has_empty_key (lit "gitignore")); reflexivity].
Defined.


(** ** The table *)

Module GroupFacts.
Import PyStr PyStrFacts PosixPath.

Lemma for_each_app {A B : Type} (body : A -> B -> result A) l1 l2 a :
  for_each body (l1 ++ l2) a =
  match for_each body l1 a with
  | Ok a' => for_each body l2 a'
  | Raise e => Raise e
  end.
Proof.
  revert a; induction l1 as [|x l1 IH]; intros a; simpl; trivial.
  destruct (body a x); trivial.
Qed.

Lemma for_each_map {A B C : Type} (body : A -> C -> result A) (g : B -> C) l a :
  for_each body (map g l) a = for_each (fun a x => body a (g x)) l a.
Proof.
  revert a; induction l as [|x l IH]; intros a; simpl; trivial.
  destruct (body a (g x)); trivial.
Qed.

(** The nested loops visit the files of [enumerate], in that order. *)
Lemma group_files_enumerate cwd folder_selected walked :
  group_files cwd folder_selected walked =
  group_enumerated cwd folder_selected (enumerate walked).
Proof.
  unfold group_files, group_enumerated. generalize (@nil (str * list str)).
  induction walked as [|[[dirpath dirnames] filenames] walked IH]; intros t; simpl; trivial.
  rewrite for_each_app, for_each_map. simpl.
  destruct (for_each (visit_file cwd folder_selected dirpath) filenames t); trivial.
Qed.

(** *** One insertion *)

Lemma keys_setdefault k p t :
  keys (setdefault_append k p t) =
  if existsb (str_eqb k) (keys t) then keys t else (keys t ++ [k]).
Proof.
  induction t as [|[k' v] t IH]; simpl; trivial.
  rewrite (str_eqb_sym k k').
  destruct (str_eqb_spec k' k) as [->|N]; simpl; trivial.
  rewrite IH. now destruct (existsb (str_eqb k) (keys t)).
Qed.

Lemma in_keys_setdefault k p t k' :
  In k' (keys (setdefault_append k p t)) <-> k' = k \/ In k' (keys t).
Proof.
  rewrite keys_setdefault.
  destruct (existsb (str_eqb k) (keys t)) eqn:E.
  - apply existsb_exists in E. destruct E as [x [Hx E]].
    apply str_eqb_eq in E. subst x. intuition (subst; trivial).
  - rewrite in_app_iff. simpl. intuition.
Qed.

Lemma nodup_keys_setdefault k p t :
  NoDup (keys t) -> NoDup (keys (setdefault_append k p t)).
Proof.
  intros H. rewrite keys_setdefault.
  destruct (existsb (str_eqb k) (keys t)) eqn:E; trivial.
  apply NoDup_app; trivial.
  - repeat constructor. intros [].
  - intros x Hx [->|[]].
    assert (T : existsb (str_eqb x) (keys t) = true).
    { apply existsb_exists. exists x. split; trivial. apply str_eqb_refl. }
    congruence.
Qed.

Lemma group_of_setdefault k p t k' :
  group_of k' (setdefault_append k p t) =
  if (k' =? k)%str then group_of k t ++ [p] else group_of k' t.
Proof.
  induction t as [|[k0 v] t IH]; simpl.
  - rewrite (str_eqb_sym k k'). now destruct (k' =? k)%str.
  - destruct (str_eqb_spec k0 k) as [E|D]; simpl.
    + subst k0. rewrite (str_eqb_sym k k').
      now destruct (str_eqb_spec k' k).
    + rewrite IH.
      destruct (str_eqb_spec k0 k'), (str_eqb_spec k' k); subst; trivial; congruence.
Qed.

Lemma paths_setdefault k p t :
  Permutation (List.concat (map snd (setdefault_append k p t)))
              (p :: List.concat (map snd t)).
Proof.
  induction t as [|[k0 v] t IH]; simpl; trivial.
  destruct (k0 =? k)%str; simpl.
  - rewrite <- List.app_assoc. simpl. apply Permutation_sym, Permutation_middle.
  - rewrite IH. apply Permutation_sym, Permutation_middle.
Qed.

Lemma total_paths_concat t : total_paths t = List.length (List.concat (map snd t)).
Proof.
  induction t as [|[k v] t IH]; simpl; trivial.
  rewrite List.length_app. now rewrite <- IH.
Qed.

(** In a table without repeated key, the items are the keys with their
    groups. *)
Lemma in_table k paths t :
  NoDup (keys t) ->
  In (k, paths) t <-> In k (keys t) /\ paths = group_of k t.
Proof.
  induction t as [|[k0 v] t IH]; simpl; [tauto|].
  intros ND. inversion ND as [|? ? Hn Ht]; subst.
  specialize (IH Ht).
  destruct (str_eqb_spec k0 k) as [->|N].
  - split.
    + intros [[= ->]|H]; [tauto|]. exfalso. apply Hn.
      apply (in_map fst) in H. exact H.
    + intros [_ ->]. now left.
  - split.
    + intros [[= -> _]|H]; [contradiction|]. apply IH in H. tauto.
    + intros [[E|H] ->]; [contradiction|]. right. apply IH. tauto.
Qed.

(** *** The relative path *)

Lemma join_empty a b : join a b = [] -> a = [] /\ b = [].
Proof.
  unfold join, join_step.
  destruct (startswith b sep) eqn:S.
  - intros ->. discriminate S.
  - destruct ((a =? [])%str || endswith a sep).
    + apply app_eq_nil.
    + intros H. apply app_eq_nil in H. destruct H as [_ H]. discriminate H.
Qed.

Lemma visit_file_ok cwd folder_selected dirpath t filename :
  dirpath <> [] ->
  visit_file cwd folder_selected dirpath t filename =
  Ok (setdefault_append (ext_of filename)
        (rel_path_of cwd folder_selected (dirpath, filename)) t).
Proof.
  intros H. unfold visit_file, relpath, rel_path_of. simpl.
  destruct (str_eqb_spec (join dirpath filename) []) as [E|N]; trivial.
  apply join_empty in E. tauto.
Qed.

(** *** All the insertions *)

Lemma with_key_app k l1 l2 :
  with_key k (l1 ++ l2) = (with_key k l1 ++ with_key k l2).
Proof. apply filter_app. Qed.

Lemma holds_empty cwd folder_selected : holds cwd folder_selected [] [].
Proof.
  split; simpl.
  - constructor.
  - intros k. split; [intros []|congruence].
  - trivial.
  - constructor.
Qed.

Lemma holds_step cwd folder_selected visited t file :
  holds cwd folder_selected visited t ->
  holds cwd folder_selected (visited ++ [file])
    (setdefault_append (ext_of (snd file)) (rel_path_of cwd folder_selected file) t).
Proof.
  intros [ND HK HG HP]. split.
  - now apply nodup_keys_setdefault.
  - intros k. rewrite in_keys_setdefault, with_key_app, HK. simpl.
    destruct (str_eqb_spec (ext_of (snd file)) k) as [E|N].
    + split; [intros _ A; apply app_eq_nil in A; destruct A; discriminate|auto].
    + rewrite app_nil_r. split; [intros [E|H]; [congruence|trivial]|auto].
  - intros k. rewrite group_of_setdefault, with_key_app, map_app, !HG. simpl.
    rewrite (str_eqb_sym k).
    destruct (str_eqb_spec (ext_of (snd file)) k) as [E|N]; simpl.
    + now subst k.
    + now rewrite app_nil_r.
  - rewrite paths_setdefault, map_app. simpl.
    rewrite HP. apply Permutation_cons_append.
Qed.

Lemma group_from cwd folder_selected files : forall visited t,
  Forall (fun file => fst file <> []) files ->
  holds cwd folder_selected visited t ->
  exists t',
    for_each (fun t file => visit_file cwd folder_selected (fst file) t (snd file))
             files t = Ok t' /\
    holds cwd folder_selected (visited ++ files) t'.
Proof.
  induction files as [|file files IH]; intros visited t HF HT; simpl.
  - exists t. now rewrite app_nil_r.
  - inversion HF as [|? ? Hd HF']; subst. destruct file as [d f].
    cbn [fst snd] in *.
    rewrite (visit_file_ok cwd folder_selected d t f Hd).
    destruct (IH (visited ++ [(d, f)])
                 (setdefault_append (ext_of f)
                    (rel_path_of cwd folder_selected (d, f)) t) HF') as [t' [E H]].
    + now apply (holds_step cwd folder_selected visited t (d, f)).
    + exists t'. split; [exact E|]. now rewrite <- List.app_assoc in H.
Qed.

(** The traversal of files whose [dirpath] is not empty ends without
    exception, and the table holds them all. *)
Lemma group_enumerated_holds cwd folder_selected files :
  Forall (fun file => fst file <> []) files ->
  exists t,
    group_enumerated cwd folder_selected files = Ok t /\
    holds cwd folder_selected files t.
Proof.
  intros HF.
  destruct (group_from cwd folder_selected files [] [] HF (holds_empty _ _))
    as [t [E H]].
  exists t. now split.
Qed.

End GroupFacts.

(** ** The traversal *)

Module WalkFacts.
Import PyStr PosixPath FS.

(** [_walk] on a directory: its own triple, then the walks of its
    directories. *)
Lemma _walk_dir top entries :
  _walk top (Dir entries) =
  (top,
   map fst (filter (fun e => is_dir (snd e)) entries),
   map fst (filter (fun e => negb (is_dir (snd e))) entries))
  :: flat_map (fun e => if is_dir (snd e) then _walk (join top (fst e)) (snd e)
                        else []) entries.
Proof.
  simpl. f_equal.
  induction entries as [|[name child] entries IH]; simpl; trivial.
  now rewrite IH.
Qed.

(** Every [dirpath] of a walk from a non-empty [top] is non-empty. *)
Lemma _walk_dirpath n : forall top,
  top <> [] -> Forall (fun item : walk_item => fst (fst item) <> []) (_walk top n).
Proof.
  induction n as [content|entries IH] using node_induction; intros top Ht.
  - constructor.
  - rewrite _walk_dir. constructor; trivial.
    apply Forall_forall. intros item Hin. apply in_flat_map in Hin.
    destruct Hin as [[name child] [He Hin]]. simpl in Hin.
    destruct (is_dir child); [|destruct Hin].
    rewrite Forall_forall in IH. specialize (IH _ He (join top name)).
    simpl in IH. rewrite Forall_forall in IH. apply IH; trivial.
    intros E. apply GroupFacts.join_empty in E. tauto.
Qed.

Lemma walk_dirpath cwd top root :
  top <> [] -> Forall (fun item : walk_item => fst (fst item) <> []) (walk cwd top root).
Proof.
  intros H. unfold walk.
  destruct (resolve cwd top root); [now apply _walk_dirpath | constructor].
Qed.

Lemma enumerate_dirpath walked :
  Forall (fun item : walk_item => fst (fst item) <> []) walked ->
  Forall (fun file : str * str => fst file <> []) (enumerate walked).
Proof.
  intros H. apply Forall_forall. intros [d f] Hin. unfold enumerate in Hin.
  apply in_flat_map in Hin. destruct Hin as [[[dirpath dirnames] filenames] [Hi Hin]].
  apply in_map_iff in Hin. destruct Hin as [x [[= <- <-] _]].
  rewrite Forall_forall in H. exact (H _ Hi).
Qed.

Lemma enumerate_app a b : enumerate (a ++ b) = (enumerate a ++ enumerate b).
Proof. apply flat_map_app. Qed.

Lemma has_file_entries entries :
  has_file (Dir entries) = false ->
  Forall (fun e => is_dir (snd e) = true /\ has_file (snd e) = false) entries.
Proof.
  induction entries as [|[name child] entries IH]; intros H; constructor.
  - simpl in H. apply orb_false_elim in H. destruct H as [H _].
    destruct child; [discriminate H | now split].
  - apply IH. simpl in H. apply orb_false_elim in H. simpl. tauto.
Qed.

(** A tree without regular file yields no file name. *)
Lemma _walk_no_file n : forall top,
  has_file n = false -> enumerate (_walk top n) = [].
Proof.
  induction n as [content|entries IH] using node_induction; intros top H.
  - reflexivity.
  - rewrite _walk_dir. apply has_file_entries in H.
    match goal with |- enumerate (?x :: ?l) = _ => change (x :: l) with ([x] ++ l) end.
    rewrite enumerate_app.
    assert (N : filter (fun e => negb (is_dir (snd e))) entries = []).
    { clear IH. induction H as [|e es [He _] _ IHe]; simpl; trivial.
      now rewrite He. }
    unfold enumerate at 1. simpl. rewrite N. simpl. clear N.
    induction entries as [|[name child] entries IHe]; simpl; trivial.
    inversion IH as [|? ? IHc IHr]; subst. inversion H as [|? ? [Hd Hf] Hr]; subst.
    simpl in *. rewrite Hd, enumerate_app, (IHc (join top name) Hf). simpl.
    now apply IHe.
Qed.

End WalkFacts.

(** C3: for the traversal of a selected folder (the answer is not empty),
    and for whatever else [os.walk] may yield (no [dirpath] of [os.walk] is
    empty when the folder is not), the loops end with a table whose keys
    are distinct; the group under a key holds exactly the files enumerated
    with that key, once each and in the order met, so every file enumerated
    is in one group, under one key, once; the number of paths in all the
    groups is the number of files enumerated. *)
Theorem C3_every_file_in_one_group (cwd folder_selected : str) (root : FS.node)
    (walked : list FS.walk_item) :
  (folder_selected <> [] /\ walked = FS.walk cwd folder_selected root) \/
  Forall (fun item : FS.walk_item => fst (fst item) <> []) walked ->
  exists t,
    group_files cwd folder_selected walked = Ok t /\
    NoDup (keys t) /\
    (forall k paths,
        In (k, paths) t <->
        paths <> [] /\
        paths = map (rel_path_of cwd folder_selected) (with_key k (enumerate walked))) /\
    Permutation (List.concat (map snd t))
                (map (rel_path_of cwd folder_selected) (enumerate walked)) /\
    total_paths t = List.length (enumerate walked).
Proof.
  intros H.
  assert (W : Forall (fun item : FS.walk_item => fst (fst item) <> []) walked).
  { destruct H as [[Hf ->]|H]; [now apply WalkFacts.walk_dirpath | exact H]. }
  destruct (GroupFacts.group_enumerated_holds cwd folder_selected (enumerate walked))
    as [t [E [ND HK HG HP]]].
  { now apply WalkFacts.enumerate_dirpath. }
  assert (T : total_paths t = List.length (enumerate walked)).
  { rewrite GroupFacts.total_paths_concat, (Permutation_length HP).
    apply List.length_map. }
  exists t. rewrite GroupFacts.group_files_enumerate.
  split; [exact E|]. split; [exact ND|]. split; [|split; [exact HP|exact T]].
  intros k paths. rewrite (GroupFacts.in_table k paths t ND), HG, HK. split.
  - intros [Hin ->]. split; trivial. intros A. apply map_eq_nil in A. contradiction.
  - intros [Hne ->]. split; trivial. intros A. rewrite A in Hne. now apply Hne.
Qed.

Lemma C3_every_file_in_one_group_witness :
  ((lit "/home/u/data" <> [] /\
    FS.walk (lit "/home/u") (lit "/home/u/data") Example.root =
    FS.walk (lit "/home/u") (lit "/home/u/data") Example.root) \/
   Forall (fun item : FS.walk_item => fst (fst item) <> [])
          (FS.walk (lit "/home/u") (lit "/home/u/data") Example.root)) /\
  exists t,
    group_files (lit "/home/u") (lit "/home/u/data")
      (FS.walk (lit "/home/u") (lit "/home/u/data") Example.root) = Ok t /\
    NoDup (keys t) /\
    (forall k paths,
        In (k, paths) t <->
        paths <> [] /\
        paths = map (rel_path_of (lit "/home/u") (lit "/home/u/data"))
                    (with_key k (enumerate
                       (FS.walk (lit "/home/u") (lit "/home/u/data") Example.root)))) /\
    Permutation (List.concat (map snd t))
                (map (rel_path_of (lit "/home/u") (lit "/home/u/data"))
                     (enumerate (FS.walk (lit "/home/u") (lit "/home/u/data") Example.root))) /\
    total_paths t =
      List.length (enumerate (FS.walk (lit "/home/u") (lit "/home/u/data") Example.root)).
Proof.
  assert (H : (lit "/home/u/data" <> [] /\
               FS.walk (lit "/home/u") (lit "/home/u/data") Example.root =
               FS.walk (lit "/home/u") (lit "/home/u/data") Example.root) \/
              Forall (fun item : FS.walk_item => fst (fst item) <> [])
                     (FS.walk (lit "/home/u") (lit "/home/u/data") Example.root)).
  { left. split; [discriminate | reflexivity]. }
  split; [exact H|].
  exact (C3_every_file_in_one_group (lit "/home/u") (lit "/home/u/data") Example.root _ H).
Defined.

Example walk_example :
  FS.walk (lit "/home/u") (lit "/home/u/data") Example.root =
  [(lit "/home/u/data", [lit "sub"], map lit ["a.TXT"; "b.txt"; "README"]);
   (lit "/home/u/data/sub", [], [lit "c.txt"])].
Proof. vm_compute. reflexivity. Qed.

(** The system cannot follow a path through a directory that is not there:
    the walk yields nothing. *)
Example walk_through_missing :
  FS.walk (lit "/home/u") (lit "/home/u/gone/../data") Example.root = [].
Proof. vm_compute. reflexivity. Qed.

Example group_files_example :
  group_files (lit "/home/u") (lit "/home/u/data")
    (FS.walk (lit "/home/u") (lit "/home/u/data") Example.root)
  = Ok Example.files_by_ext.
Proof. vm_compute. reflexivity. Qed.


(** ** The keys *)

Module KeyFacts.
Import PyStr PyStrFacts UnicodeFacts PosixPath.

Lemma rindex_drop c s : forall i,
  rindex c s = Some i -> exists q, drop i s = c :: q.
Proof.
  induction s as [|a s IH]; intros i; simpl; [discriminate|].
  destruct (rindex c s) as [j|].
  - intros [= <-]. simpl. now apply IH.
  - destruct (N.eqb_spec a c) as [->|]; [|discriminate].
    intros [= <-]. now exists s.
Qed.

Lemma snd_skip_leading_dots p d : forall n a,
  snd (skip_leading_dots p a d n) = [] \/
  snd (skip_leading_dots p a d n) = slice_from p d.
Proof.
  induction n as [|n IH]; intros a; cbn [skip_leading_dots].
  - left. apply slice_to_0.
  - destruct (negb _); [now right | apply IH].
Qed.

(** The second half of [splitext] is empty or the end of the path from
    its last period. *)
Lemma snd_splitext_cases p :
  snd (splitext p) = [] \/
  exists i, rindex extsep p = Some i /\ snd (splitext p) = drop i p.
Proof.
  unfold splitext.
  destruct (Z.gtb_spec (rfind p extsep) (rfind p sep)) as [G|G].
  - destruct (snd_skip_leading_dots p (rfind p extsep)
                (Z.to_nat (rfind p extsep - (rfind p sep + 1)))
                (rfind p sep + 1)) as [E|E]; rewrite E; [now left|right].
    pose proof (rfind_bounds sep p) as B.
    assert (F : rfind p extsep =
                match rindex extsep p with Some i => Z.of_nat i | None => -1 end)
      by reflexivity.
    destruct (rindex extsep p) as [i|] eqn:R; [|lia].
    exists i. split; trivial.
    rewrite F. unfold slice_from. now rewrite clamp_nat by (apply rindex_lt in R; lia).
  - left. apply slice_to_0.
Qed.

(** The second half of [splitext] is empty or begins with a period. *)
Lemma snd_splitext p :
  snd (splitext p) = [] \/ startswith (snd (splitext p)) extsep = true.
Proof.
  destruct (snd_splitext_cases p) as [E|[i [R E]]]; [now left|right].
  rewrite E. destruct (rindex_drop _ _ _ R) as [q ->]. reflexivity.
Qed.

(** What holds of the characters of a path holds of those of its
    extension. *)
Lemma snd_splitext_forall (P : char -> Prop) p :
  Forall P p -> Forall P (snd (splitext p)).
Proof.
  intros H. destruct (snd_splitext_cases p) as [E|[i [_ E]]]; rewrite E.
  - constructor.
  - now apply forall_drop.
Qed.

(** Every key computed by the script is empty or begins with a period, and
    is in lower case. *)
Lemma key_lowered_ext_of filename : key_lowered (ext_of filename).
Proof.
  unfold key_lowered, ext_of. split; [|apply lower_idempotent].
  destruct (snd_splitext filename) as [E|E].
  - left. now rewrite E.
  - right. now apply lower_startswith_period.
Qed.

(** *** A replacement of characters that keeps periods and separators
    leaves the shape of a name alone *)

Section CharacterMap.

Variable f : char -> char.
Hypothesis f_sep : forall a, (f a =? sep)%N = (a =? sep)%N.
Hypothesis f_extsep : forall a, (f a =? extsep)%N = (a =? extsep)%N.













End CharacterMap.






(** *** The keys of the table during the traversal *)

Section KeysOfTheTable.

Variable P : str -> Prop.
Hypothesis P_ext_of : forall filename, P (ext_of filename).

Lemma keys_setdefault_forall k p t :
  P k -> Forall P (keys t) -> Forall P (keys (setdefault_append k p t)).
Proof.
  intros Hk Ht. rewrite GroupFacts.keys_setdefault.
  destruct (existsb (str_eqb k) (keys t)); trivial.
  apply Forall_app. split; [trivial|]. now constructor.
Qed.

Lemma keys_visit_file_forall cwd folder_selected dirpath t filename t' :
  visit_file cwd folder_selected dirpath t filename = Ok t' ->
  Forall P (keys t) -> Forall P (keys t').
Proof.
  unfold visit_file. destruct (relpath _ _ _) as [rel_path|]; [|discriminate].
  intros [= <-] H. apply keys_setdefault_forall; trivial.
Qed.

Lemma keys_for_each_forall cwd folder_selected files : forall t t',
  for_each (fun t file => visit_file cwd folder_selected (fst file) t (snd file))
           files t = Ok t' ->
  Forall P (keys t) -> Forall P (keys t').
Proof.
  induction files as [|file files IH]; intros t t'; simpl.
  - now intros [= <-].
  - destruct (visit_file cwd folder_selected (fst file) t (snd file)) as [t1|] eqn:E;
      [|discriminate].
    intros H Ht. apply (IH t1 t' H). now apply (keys_visit_file_forall _ _ _ _ _ _ E).
Qed.

End KeysOfTheTable.

End KeyFacts.

(** C10, as amended: after any number of insertions of the traversal, every
    key of the table is the empty string or begins with a period, and
    lower-casing leaves every key as it is. *)
Theorem C10_keys_are_lowered (cwd folder_selected : str)
    (walked : list FS.walk_item) (n : nat) (t : table) :
  group_enumerated cwd folder_selected (firstn n (enumerate walked)) = Ok t ->
  Forall key_lowered (keys t).
Proof.
  intros H.
  apply (KeyFacts.keys_for_each_forall key_lowered KeyFacts.key_lowered_ext_of
           _ _ _ _ _ H).
  constructor.
Qed.

Lemma C10_keys_are_lowered_witness :
  group_enumerated (lit "/home/u") (lit "/home/u/data")
    (firstn 3 (enumerate (FS.walk (lit "/home/u") (lit "/home/u/data") Example.root)))
  = Ok [(lit ".txt", [lit "a.TXT"; lit "b.txt"]); ([], [lit "README"])] /\
  Forall key_lowered (keys [(lit ".txt", [lit "a.TXT"; lit "b.txt"]); ([], [lit "README"])]).
Proof.
  split; [vm_compute; reflexivity|].
  apply (C10_keys_are_lowered (lit "/home/u") (lit "/home/u/data")
           (FS.walk (lit "/home/u") (lit "/home/u/data") Example.root) 3).
  vm_compute; reflexivity.
Defined.

(** C10, as stated, fails on [x.ϒ]: U+03D2 is an upper-case letter
    ([str.isupper] is true of it) that has no lower-case form, so [lower]
    leaves it in the key. *)
Lemma C10_upsilon_counterexample :
  group_enumerated (lit "/home/u") (lit "/home/u/data")
    (firstn 1 (enumerate [(lit "/home/u/data", [], [Example.upsilon_hook])]))
  = Ok [([46; 0x3D2]%N, [Example.upsilon_hook])] /\
  Unicode.is_uppercase 0x3D2 = true /\
  has_upper [46; 0x3D2]%N = true /\
  ~ Forall key_ok (keys [([46; 0x3D2]%N, [Example.upsilon_hook])]).
Proof.
  split; [vm_compute; reflexivity|].
  split; [vm_compute; reflexivity|].
  split; [vm_compute; reflexivity|].
  intros H. inversion H as [|? ? [_ U] _]; subst.
  vm_compute in U. discriminate U.
Qed.


(** ** The report *)

Module ReportFacts.
Import PyStr PyStrFacts.

(** *** The order of strings *)

Lemma ltb_compare a b : str_ltb a b = true <-> str_compare a b = Lt.
Proof. unfold str_ltb. destruct (str_compare a b); split; congruence. Qed.

Lemma compare_eq : forall a b, str_compare a b = Eq -> a = b.
Proof.
  induction a as [|x a IH]; intros [|y b]; simpl; trivial; try discriminate.
  destruct (N.compare_spec x y) as [E|L|G]; try discriminate.
  intros H. now rewrite E, (IH b H).
Qed.

Lemma compare_antisym : forall a b, str_compare b a = CompOpp (str_compare a b).
Proof.
  induction a as [|x a IH]; intros [|y b]; simpl; trivial.
  rewrite (N.compare_antisym x y).
  destruct (x ?= y)%N; simpl; trivial.
Qed.

Lemma compare_trans_lt : forall a b c,
  str_compare a b = Lt -> str_compare b c = Lt -> str_compare a c = Lt.
Proof.
  induction a as [|x a IH]; intros [|y b] [|z c]; simpl; trivial; try discriminate.
  destruct (N.compare_spec x y) as [E1|L1|G1];
    try discriminate;
    destruct (N.compare_spec y z) as [E2|L2|G2];
    try discriminate; intros H1 H2.
  - rewrite E1, E2, N.compare_refl. now apply (IH b c).
  - rewrite E1. now apply N.compare_lt_iff in L2 as ->.
  - rewrite <- E2. now apply N.compare_lt_iff in L1 as ->.
  - assert (L : (x < z)%N) by lia.
    now apply N.compare_lt_iff in L as ->.
Qed.

Lemma ltb_trans a b c :
  str_ltb a b = true -> str_ltb b c = true -> str_ltb a c = true.
Proof. rewrite !ltb_compare. apply compare_trans_lt. Qed.

Lemma ltb_total a b : a <> b -> str_ltb a b = false -> str_ltb b a = true.
Proof.
  intros D H. apply ltb_compare. rewrite compare_antisym.
  unfold str_ltb in H. destruct (str_compare a b) eqn:E; trivial.
  - apply compare_eq in E. contradiction.
  - discriminate.
Qed.

Lemma ltb_irrefl a : str_ltb a a = false.
Proof.
  unfold str_ltb. pose proof (compare_antisym a a) as H.
  destruct (str_compare a a); trivial; discriminate.
Qed.

(** *** [sorted] *)

Lemma insert_item_perm x l : Permutation (insert_item x l) (x :: l).
Proof.
  induction l as [|y l IH]; simpl; trivial.
  destruct (item_ltb y x); trivial.
  rewrite IH. apply perm_swap.
Qed.

Lemma sorted_perm l : Permutation (sorted l) l.
Proof.
  induction l as [|x l IH]; simpl; trivial.
  rewrite insert_item_perm. now constructor.
Qed.

Lemma item_ltb_keys a b : fst a <> fst b -> item_ltb a b = str_ltb (fst a) (fst b).
Proof.
  intros D. unfold item_ltb. now destruct (str_eqb_spec (fst a) (fst b)).
Qed.

Lemma insert_item_sorted x l :
  ~ In (fst x) (keys l) ->
  StronglySorted key_lt l -> StronglySorted key_lt (insert_item x l).
Proof.
  induction l as [|y l IH]; intros Hx Hs; simpl.
  - repeat constructor.
  - simpl in Hx. inversion Hs as [|? ? Hl Hy]; subst.
    rewrite item_ltb_keys by tauto.
    destruct (str_ltb (fst y) (fst x)) eqn:E.
    + constructor; [apply IH; tauto|].
      apply (Permutation_Forall (Permutation_sym (insert_item_perm x l))).
      now constructor.
    + assert (L : key_lt x y).
      { apply ltb_total; [intros A; apply Hx; now left | exact E]. }
      constructor; trivial. constructor; trivial.
      apply Forall_forall. intros z Hz. rewrite Forall_forall in Hy.
      apply (ltb_trans _ (fst y)); [exact L | now apply Hy].
Qed.

Lemma sorted_sorted l : NoDup (keys l) -> StronglySorted key_lt (sorted l).
Proof.
  induction l as [|x l IH]; intros H; simpl; [constructor|].
  inversion H as [|? ? Hx Hl]; subst.
  apply insert_item_sorted; [|now apply IH].
  intros A. apply Hx. unfold keys in *.
  apply (Permutation_in _ (Permutation_map fst (sorted_perm l))). exact A.
Qed.

Lemma sorted_keys_ascending l :
  NoDup (keys l) -> SpecReport.ascending (keys (sorted l)).
Proof.
  intros H. apply sorted_sorted in H. unfold SpecReport.ascending, keys.
  induction H as [|x r Hr IH Hx]; simpl; constructor; trivial.
  apply Forall_map. exact Hx.
Qed.

(** *** The writes *)

Section Loops.

Context {F : Type}.
Variable write : str -> St F unit.

Lemma bind_unit (m : St F unit) f : bind m (fun _ => ret tt) f = m f.
Proof. unfold bind, ret. destruct (m f) as [[[]|e] f']; reflexivity. Qed.

Lemma for_app {B : Type} (body : B -> St F unit) l1 l2 f :
  for_ (l1 ++ l2) body f = bind (for_ l1 body) (fun _ => for_ l2 body) f.
Proof.
  revert f; induction l1 as [|x l1 IH]; intros f; cbn [for_ app].
  - reflexivity.
  - unfold bind. destruct (body x f) as [[a|e] f']; [|reflexivity].
    rewrite IH. reflexivity.
Qed.

Lemma for_map {B C : Type} (g : B -> C) (body : C -> St F unit) l f :
  for_ (map g l) body f = for_ l (fun x => body (g x)) f.
Proof.
  revert f; induction l as [|x l IH]; intros f; cbn [for_ map]; trivial.
  unfold bind. destruct (body (g x) f) as [[a|e] f']; [|reflexivity]. apply IH.
Qed.

(** The body of the outer loop writes the texts of [group_chunks], one
    after the other. *)
Lemma write_group_chunks item f :
  write_group write item f = for_ (group_chunks item) write f.
Proof.
  destruct item as [ext paths]. unfold write_group, group_chunks.
  cbn [for_ fst snd]. unfold bind.
  destruct (write _ f) as [[a|e] f']; [|reflexivity].
  rewrite for_app. unfold bind. rewrite for_map.
  destruct (for_ paths _ f') as [[b|e] f'']; [|reflexivity].
  cbn [for_]. unfold bind, ret.
  destruct (write nl f'') as [[[]|e] f3]; reflexivity.
Qed.

Lemma write_items_chunks items f :
  for_ items (write_group write) f = for_ (chunks items) write f.
Proof.
  revert f; induction items as [|item items IH]; intros f; [reflexivity|].
  unfold chunks. cbn [for_ flat_map]. rewrite for_app.
  unfold bind. rewrite write_group_chunks.
  destruct (for_ (group_chunks item) write f) as [[a|e] f']; [|reflexivity].
  apply IH.
Qed.

(** The [with] block writes the texts of [chunks], one after the other. *)
Lemma write_results_chunks t f :
  write_results write t f = for_ (chunks (sorted t)) write f.
Proof. apply write_items_chunks. Qed.

End Loops.

Lemma cat_app a b : SpecReport.cat (a ++ b) = SpecReport.cat a ++ SpecReport.cat b.
Proof.
  induction a as [|x a IH]; simpl; trivial. now rewrite IH, List.app_assoc.
Qed.

Lemma cat_group_chunks item : SpecReport.cat (group_chunks item) = SpecReport.block item.
Proof.
  unfold group_chunks, SpecReport.block, SpecReport.header, SpecReport.lines.
  cbn [SpecReport.cat]. rewrite cat_app. cbn [SpecReport.cat].
  now rewrite app_nil_r, <- !List.app_assoc.
Qed.

(** The texts written, put together, are the report. *)
Lemma cat_chunks items : SpecReport.cat (chunks items) = SpecReport.report items.
Proof.
  unfold chunks, SpecReport.report.
  induction items as [|item items IH]; cbn [flat_map map SpecReport.cat]; trivial.
  now rewrite cat_app, cat_group_chunks, IH.
Qed.

(** A file that keeps its text holds the texts written. *)
Lemma text_writes l : forall f,
  for_ l text_write f = (Ok tt, f ++ SpecReport.cat l).
Proof.
  induction l as [|s l IH]; intros f; cbn [for_ SpecReport.cat].
  - unfold ret. now rewrite app_nil_r.
  - unfold bind, text_write at 1. rewrite IH. now rewrite <- List.app_assoc.
Qed.

Lemma utf8_app s t :
  utf8 (s ++ t) =
  match utf8 s, utf8 t with
  | Some a, Some b => Some (a ++ b)
  | _, _ => None
  end.
Proof.
  induction s as [|c s IH]; cbn [utf8 app].
  - now destruct (utf8 t).
  - rewrite IH. destruct (utf8_char c), (utf8 s), (utf8 t); trivial.
    now rewrite <- List.app_assoc.
Qed.

(** A file that encodes its text holds the encoding of the texts written,
    when all can be encoded. *)
Lemma utf8_writes l : forall f b,
  utf8 (SpecReport.cat l) = Some b -> for_ l utf8_write f = (Ok tt, f ++ b).
Proof.
  induction l as [|s l IH]; intros f b; cbn [for_ SpecReport.cat].
  - cbn [utf8]. intros [= <-]. unfold ret. now rewrite app_nil_r.
  - rewrite utf8_app. destruct (utf8 s) as [b1|] eqn:E1; [|discriminate].
    destruct (utf8 (SpecReport.cat l)) as [b2|] eqn:E2; [|discriminate].
    intros [= <-]. unfold bind, utf8_write at 1. rewrite E1.
    rewrite (IH (f ++ b1) b2 eq_refl). now rewrite <- List.app_assoc.
Qed.

(** When some text cannot be encoded, the writes end with
    [UnicodeEncodeError]; the file holds the encoding of the texts before
    the first one that cannot be encoded. *)
Lemma utf8_writes_fail l : forall f,
  utf8 (SpecReport.cat l) = None ->
  exists done rest s b,
    l = done ++ s :: rest /\ utf8 s = None /\ utf8 (SpecReport.cat done) = Some b /\
    for_ l utf8_write f = (Raise UnicodeEncodeError, f ++ b).
Proof.
  induction l as [|s l IH]; intros f; cbn [for_ SpecReport.cat].
  - discriminate.
  - rewrite utf8_app. destruct (utf8 s) as [b1|] eqn:E1.
    + destruct (utf8 (SpecReport.cat l)) as [b2|] eqn:E2; [discriminate|].
      intros _. destruct (IH (f ++ b1) eq_refl) as [done [rest [s' [b [-> [N [D R]]]]]]].
      exists (s :: done), rest, s', (b1 ++ b). repeat split; trivial.
      * cbn [SpecReport.cat]. now rewrite utf8_app, E1, D.
      * unfold bind, utf8_write at 1. rewrite E1, R. now rewrite <- List.app_assoc.
    + intros _. exists [], l, s, []. repeat split; trivial.
      unfold bind, utf8_write at 1. now rewrite E1, app_nil_r.
Qed.

Lemma write_results_text t :
  write_results text_write t [] = (Ok tt, SpecReport.report (sorted t)).
Proof. now rewrite write_results_chunks, text_writes, cat_chunks. Qed.

Lemma write_results_utf8 t b :
  utf8 (SpecReport.report (sorted t)) = Some b ->
  write_results utf8_write t [] = (Ok tt, b).
Proof.
  intros H. rewrite write_results_chunks.
  rewrite <- cat_chunks in H. now rewrite (utf8_writes _ [] b H).
Qed.

Lemma write_results_utf8_fail t :
  utf8 (SpecReport.report (sorted t)) = None ->
  fst (write_results utf8_write t []) = Raise UnicodeEncodeError.
Proof.
  intros H. rewrite write_results_chunks. rewrite <- cat_chunks in H.
  destruct (utf8_writes_fail _ [] H) as [done [rest [s [b [_ [_ [_ R]]]]]]].
  now rewrite R.
Qed.

End ReportFacts.

(** C2: the text written for a table (a dict: no key twice) is, for its
    items arranged by ascending key in the ordinary order of strings, a
    header line [--- <ext> ---], the paths of the group in their order in
    the table, one per line, and an empty line; the header of the empty key
    is [---  ---].  The file of the script holds the UTF-8 encoding of that
    text, when the text can be encoded. *)
Theorem C2_report_format (t : table) :
  NoDup (keys t) ->
  write_results text_write t [] = (Ok tt, SpecReport.report (sorted t)) /\
  (forall b, utf8 (SpecReport.report (sorted t)) = Some b ->
             write_results utf8_write t [] = (Ok tt, b)) /\
  Permutation (sorted t) t /\
  SpecReport.ascending (keys (sorted t)) /\
  SpecReport.header [] = lit "---  ---" ++ nl.
Proof.
  intros H. split; [|split; [|split; [|split]]].
  - apply ReportFacts.write_results_text.
  - apply ReportFacts.write_results_utf8.
  - apply ReportFacts.sorted_perm.
  - now apply ReportFacts.sorted_keys_ascending.
  - reflexivity.
Qed.

Lemma C2_report_format_witness :
  NoDup (keys Example.files_by_ext) /\
  write_results text_write Example.files_by_ext [] =
    (Ok tt, SpecReport.report (sorted Example.files_by_ext)) /\
  (forall b, utf8 (SpecReport.report (sorted Example.files_by_ext)) = Some b ->
             write_results utf8_write Example.files_by_ext [] = (Ok tt, b)) /\
  Permutation (sorted Example.files_by_ext) Example.files_by_ext /\
  SpecReport.ascending (keys (sorted Example.files_by_ext)) /\
  SpecReport.header [] = lit "---  ---" ++ nl.
Proof.
  assert (H : NoDup (keys Example.files_by_ext)).
  { cbv. repeat constructor; simpl; intuition discriminate. }
  split; [exact H | apply (C2_report_format Example.files_by_ext H)].
Defined.

Example report_example :
  write_results text_write Example.files_by_ext [] =
  (Ok tt,
   lit "---  ---" ++ nl ++ lit "README" ++ nl ++ nl ++
   lit "--- .txt ---" ++ nl ++ lit "a.TXT" ++ nl ++ lit "b.txt" ++ nl
   ++ lit "sub/c.txt" ++ nl ++ nl).
Proof. vm_compute. reflexivity. Qed.


(** ** Paths and the file system *)

Module PathFacts.
Import PyStr PyStrFacts PosixPath FS.

(** *** [split] *)

Lemma split_not_nil c s : split c s <> [].
Proof.
  destruct s as [|a s]; simpl; [discriminate|].
  destruct (a =? c)%N; [discriminate|]. now destruct (split c s).
Qed.

Lemma split_app_sep c s t :
  split c (s ++ c :: t) = (split c s ++ split c t).
Proof.
  induction s as [|a s IH]; simpl.
  - now rewrite N.eqb_refl.
  - destruct (a =? c)%N; [now rewrite IH|].
    rewrite IH. pose proof (split_not_nil c s) as N.
    now destruct (split c s).
Qed.

Lemma split_without c b : contains c b = false -> split c b = [b].
Proof.
  induction b as [|a b IH]; simpl; trivial.
  intros H. apply orb_false_elim in H. destruct H as [Ha Hb].
  now rewrite Ha, (IH Hb).
Qed.

Lemma endswith_inv c s : endswith s c = true -> exists s', s = s' ++ [c].
Proof.
  induction s as [|a s IH]; simpl; [discriminate|].
  destruct s as [|a' s].
  - intros H. apply N.eqb_eq in H. subst a. now exists [].
  - intros H. destruct (IH H) as [s' E]. exists (a :: s'). simpl. now rewrite <- E.
Qed.

Lemma endswith_app c s t : t <> [] -> endswith (s ++ t) c = endswith t c.
Proof.
  intros N. induction s as [|a s IH]; simpl; trivial.
  rewrite IH. destruct (s ++ t) eqn:E; trivial.
  apply app_eq_nil in E. tauto.
Qed.

Lemma startswith_app c s t : s <> [] -> startswith (s ++ t) c = startswith s c.
Proof. destruct s; simpl; congruence. Qed.

Lemma startswith_without c b : contains c b = false -> startswith b c = false.
Proof.
  destruct b as [|a b]; simpl; trivial. intros H. now apply orb_false_elim in H.
Qed.

(** *** [join] *)

Lemma join_glue s b : startswith b sep = false -> join s b = glue s ++ b.
Proof.
  intros H. unfold join, join_step, glue. rewrite H.
  destruct ((s =? [])%str || endswith s sep); trivial.
  now rewrite app_flat.
Qed.

Lemma glue_not_empty s : s <> [] -> glue s <> [].
Proof.
  intros N. unfold glue. destruct ((s =? [])%str || endswith s sep); trivial.
  intros E. apply app_eq_nil in E. tauto.
Qed.

Lemma glue_app s a : a <> [] -> glue (s ++ a) = s ++ glue a.
Proof.
  intros N. unfold glue. rewrite (endswith_app sep s a N).
  assert (E1 : (s ++ a =? [])%str = false).
  { apply str_eqb_neq. intros E. apply app_eq_nil in E. tauto. }
  assert (E2 : (a =? [])%str = false) by now apply str_eqb_neq.
  rewrite E1, E2. simpl. destruct (endswith a sep); trivial. now rewrite app_flat.
Qed.

(** *** Resolution *)

Lemma resolve_app_plain comps b :
  plain b -> spelled (comps ++ [b]) = (spelled comps ++ [b]).
Proof.
  intros [N1 [N2 [N3 _]]]. unfold spelled. rewrite fold_left_app. simpl.
  unfold resolve_step.
  apply str_eqb_neq in N1, N2, N3. now rewrite N1, N2, N3.
Qed.

Lemma resolve_app_empty comps : spelled (comps ++ [[]]) = spelled comps.
Proof. unfold spelled. now rewrite fold_left_app. Qed.

Lemma resolve_glue s : spelled (split sep (glue s)) = spelled (split sep s).
Proof.
  unfold glue. destruct ((s =? [])%str || endswith s sep); trivial.
  rewrite split_app_sep. simpl. apply resolve_app_empty.
Qed.

Lemma resolve_glue_plain s b :
  plain b ->
  spelled (split sep (glue s ++ b)) = (spelled (split sep s) ++ [b]).
Proof.
  intros P. pose proof P as [_ [_ [_ Hb]]]. unfold glue.
  destruct (str_eqb_spec s []) as [->|Hs]; simpl.
  - rewrite (split_without sep b Hb). now apply (resolve_app_plain []).
  - destruct (endswith s sep) eqn:E.
    + destruct (endswith_inv sep s E) as [s' ->].
      rewrite app_flat. simpl. rewrite !split_app_sep, (split_without sep b Hb).
      simpl. rewrite resolve_app_empty. now apply resolve_app_plain.
    + rewrite app_flat. simpl. rewrite split_app_sep, (split_without sep b Hb).
      now apply resolve_app_plain.
Qed.

(** The path to an entry of a directory: the path to the directory, then
    the name. *)
Lemma components_join cwd a b :
  plain b -> components cwd (join a b) = (components cwd a ++ [b]).
Proof.
  intros P. pose proof P as [Nb [_ [_ Hb]]].
  pose proof (startswith_without sep b Hb) as Sb.
  unfold components. fold (spelled (split sep (if isabs (join a b) then join a b
                                               else join cwd (join a b)))).
  fold (spelled (split sep (if isabs a then a else join cwd a))).
  rewrite (join_glue a b Sb). unfold isabs.
  destruct (str_eqb_spec a []) as [->|Na].
  - change (glue [] ++ b) with b. rewrite Sb. cbn [startswith].
    rewrite (join_glue cwd b Sb), (join_glue cwd [] eq_refl).
    rewrite app_nil_r, resolve_glue. now apply resolve_glue_plain.
  - assert (Ng : glue a <> []).
    { unfold glue. destruct ((a =? [])%str || endswith a sep); trivial.
      intros E. apply app_eq_nil in E. tauto. }
    assert (Sg : startswith (glue a) sep = startswith a sep).
    { unfold glue. destruct ((a =? [])%str || endswith a sep); trivial.
      now apply startswith_app. }
    rewrite (startswith_app sep (glue a) b Ng), Sg.
    destruct (startswith a sep) eqn:Sa.
    + now apply resolve_glue_plain.
    + rewrite (join_glue cwd a Sa).
      rewrite (join_glue cwd (glue a ++ b)).
      2:{ now rewrite (startswith_app sep (glue a) b Ng), Sg. }
      rewrite <- app_flat, <- (glue_app (glue cwd) a Na).
      now apply resolve_glue_plain.
Qed.

(** *** The name of the report *)

Lemma contains_drop_rindex c s : forall i,
  rindex c s = Some i -> contains c (drop (S i) s) = false.
Proof.
  induction s as [|a s IH]; intros i; simpl; [discriminate|].
  destruct (rindex c s) as [j|] eqn:R.
  - intros [= <-]. now apply IH.
  - destruct (a =? c)%N; [|discriminate]. intros [= <-]. simpl.
    now apply rindex_none.
Qed.

Lemma contains_basename p : contains sep (basename p) = false.
Proof.
  unfold basename, rfind, slice_from.
  destruct (rindex sep p) as [i|] eqn:R.
  - replace (Z.of_nat i + 1) with (Z.of_nat (S i)) by lia.
    rewrite clamp_nat by (apply rindex_lt in R; lia).
    now apply contains_drop_rindex.
  - change (-1 + 1) with (Z.of_nat 0). rewrite clamp_nat by lia.
    now apply rindex_none.
Qed.

Lemma plain_output : plain (lit "output").
Proof. repeat split; discriminate. Qed.

Lemma plain_output_name e : plain (output_name e).
Proof.
  unfold output_name.
  assert (L : (4 <= List.length (basename (answer e) ++ (lit ".txt")))%nat).
  { rewrite List.length_app. simpl. lia. }
  repeat split; try (intros E; rewrite E in L; simpl in L; lia).
  now rewrite contains_app, contains_basename.
Qed.

Lemma components_output_dir e :
  components (cwd e) (output_dir e) =
  (components (cwd e) (script_dir e) ++ [(lit "output")]).
Proof. apply components_join, plain_output. Qed.

Lemma components_output_path e :
  components (cwd e) (output_path e) =
  (components (cwd e) (script_dir e) ++ [(lit "output"); output_name e]).
Proof.
  unfold output_path. rewrite (components_join _ _ _ (plain_output_name e)).
  rewrite components_output_dir. now rewrite <- List.app_assoc.
Qed.

(** *** [normpath], [abspath] and [relpath] on absolute paths *)

Lemma split_pieces c s : Forall (fun x => contains c x = false) (split c s).
Proof.
  induction s as [|a s IH]; simpl.
  - now repeat constructor.
  - destruct ((a =? c))%N eqn:E; [now constructor|].
    pose proof (split_not_nil c s) as N.
    destruct (split c s) as [|x r]; [contradiction|].
    inversion IH as [|? ? Hx Hr]; subst. constructor; trivial.
    simpl. now rewrite E, Hx.
Qed.

Lemma last_in (x : str) l : In (last (x :: l) []) (x :: l).
Proof.
  revert x; induction l as [|y l IH]; intros x; [now left|].
  right. apply (IH y).
Qed.

Lemma clean_last stack : clean stack -> (last stack [] =? [extsep; extsep])%str = false.
Proof.
  intros H. apply str_eqb_neq.
  destruct stack as [|x stack]; [discriminate|].
  unfold clean in H. rewrite Forall_forall in H.
  now apply (H _ (last_in x stack)).
Qed.

Lemma in_removelast (x : str) l : In x (removelast l) -> In x l.
Proof.
  induction l as [|y l IH]; simpl; [tauto|].
  destruct l as [|z l]; [intros []|].
  intros [E|H]; [now left | right; now apply IH].
Qed.

Lemma clean_removelast stack : clean stack -> clean (removelast stack).
Proof.
  unfold clean. rewrite !Forall_forall. intros H x Hx.
  apply H. now apply in_removelast.
Qed.

Lemma clean_resolve_step stack comp :
  contains sep comp = false -> clean stack -> clean (resolve_step stack comp).
Proof.
  intros Hc Hs. unfold resolve_step.
  destruct (str_eqb_spec comp []) as [|N1]; simpl; trivial.
  destruct (str_eqb_spec comp [extsep]) as [|N2]; simpl; trivial.
  destruct (str_eqb_spec comp [extsep; extsep]) as [|N3]; [now apply clean_removelast|].
  apply Forall_app. split; trivial. now repeat constructor.
Qed.

(** On an absolute path, a round of [normpath] is a round of resolution. *)
Lemma normpath_step_resolve k stack comp :
  k <> 0 -> clean stack -> normpath_step k stack comp = resolve_step stack comp.
Proof.
  intros Hk Hs. unfold normpath_step, resolve_step.
  destruct ((comp =? [])%str || (comp =? [extsep])%str); trivial.
  destruct (str_eqb_spec comp [extsep; extsep]) as [->|N]; simpl; trivial.
  apply Z.eqb_neq in Hk. rewrite Hk, (clean_last stack Hs). simpl.
  rewrite andb_false_r. now destruct stack.
Qed.

Lemma normpath_fold k comps : forall stack,
  k <> 0 -> Forall (fun x => contains sep x = false) comps -> clean stack ->
  fold_left (normpath_step k) comps stack = fold_left resolve_step comps stack /\
  clean (fold_left resolve_step comps stack).
Proof.
  induction comps as [|comp comps IH]; intros stack Hk Hc Hs; simpl; [now split|].
  inversion Hc as [|? ? H1 H2]; subst.
  rewrite (normpath_step_resolve k stack comp Hk Hs).
  apply IH; trivial. now apply clean_resolve_step.
Qed.

Lemma nonempty_parts_sep_join stack :
  clean stack -> nonempty_parts (sep_join stack) = stack.
Proof.
  unfold nonempty_parts. induction stack as [|x stack IH]; intros H; trivial.
  inversion H as [|? ? [N [_ C]] Hs]; subst.
  assert (F : filter (fun x => negb (x =? [])%str) [x] = [x]).
  { simpl. apply str_eqb_neq in N. now rewrite N. }
  destruct stack as [|y stack].
  - simpl sep_join. now rewrite (split_without sep x C).
  - change (sep_join (x :: y :: stack)) with (x ++ sep :: sep_join (y :: stack)).
    rewrite split_app_sep, (split_without sep x C), filter_app, F, (IH Hs).
    reflexivity.
Qed.

Lemma nonempty_parts_slashes k s :
  nonempty_parts (times sep k ++ s) = nonempty_parts s.
Proof.
  unfold nonempty_parts. induction k as [|k IH]; simpl; trivial.
Qed.

(** The parts of the normal form of an absolute path are the names it
    resolves to. *)
Lemma nonempty_parts_normpath p :
  isabs p = true -> nonempty_parts (normpath p) = spelled (split sep p).
Proof.
  intros H. unfold normpath, isabs in *. rewrite H.
  destruct (str_eqb_spec p []) as [->|N]; [discriminate H|].
  set (k := if (slice_to p 2 =? [sep; sep])%str && negb (slice_to p 3 =? [sep; sep; sep])%str
            then 2 else 1).
  assert (Hk : k <> 0) by (unfold k; destruct (_ && _); lia).
  destruct (normpath_fold k (split sep p) [] Hk (split_pieces sep p)) as [E C];
    [constructor|].
  rewrite E. fold (spelled (split sep p)) in *.
  apply Z.eqb_neq in Hk. rewrite Hk.
  assert (T : (times sep (Z.to_nat k) ++ sep_join (spelled (split sep p)) =? [])%str
              = false).
  { apply str_eqb_neq. unfold k. destruct (_ && _); discriminate. }
  rewrite T, nonempty_parts_slashes. now apply nonempty_parts_sep_join.
Qed.

Lemma isabs_absolute cwd p : isabs cwd = true -> isabs (absolute cwd p) = true.
Proof.
  intros H. unfold absolute. destruct (isabs p) eqn:E; trivial.
  unfold isabs in *. rewrite (join_glue cwd p E).
  assert (N : glue cwd <> []).
  { apply glue_not_empty. intros ->. discriminate H. }
  rewrite (startswith_app sep _ p N). unfold glue.
  destruct ((cwd =? [])%str || endswith cwd sep); trivial.
  rewrite startswith_app; trivial. intros ->. discriminate H.
Qed.

(** With an absolute working directory, the parts of [abspath] are the
    components of the file system. *)
Lemma nonempty_parts_abspath cwd p :
  isabs cwd = true -> nonempty_parts (abspath cwd p) = components cwd p.
Proof.
  intros H. unfold abspath, components.
  replace (if negb (isabs p) then join cwd p else p) with (absolute cwd p)
    by (unfold absolute; now destruct (isabs p)).
  fold (absolute cwd p). apply nonempty_parts_normpath. now apply isabs_absolute.
Qed.

Lemma components_join_all cwd ds : forall a,
  Forall plain ds ->
  components cwd (fold_left join ds a) = (components cwd a ++ ds).
Proof.
  induction ds as [|d ds IH]; intros a H; simpl.
  - now rewrite app_nil_r.
  - inversion H as [|? ? Hd Hs]; subst.
    rewrite (IH (join a d) Hs), (components_join cwd a d Hd).
    now rewrite <- List.app_assoc.
Qed.

Lemma list_ltb_prefix a x : list_ltb (a ++ x) a = false.
Proof.
  induction a as [|y a IH]; simpl; [now destruct x|].
  now rewrite str_eqb_refl.
Qed.

Lemma common_loop_prefix a x : common_loop a (a ++ x) = a.
Proof.
  induction a as [|y a IH]; simpl; trivial.
  now rewrite str_eqb_refl, IH.
Qed.

Lemma commonprefix_prefix a x : commonprefix a (a ++ x) = a.
Proof.
  unfold commonprefix. rewrite list_ltb_prefix.
  destruct (list_ltb a (a ++ x)).
  - apply common_loop_prefix.
  - rewrite <- (app_nil_r a) at 2. apply common_loop_prefix.
Qed.

Lemma endswith_plain d : plain d -> endswith d sep = false.
Proof.
  intros [_ [_ [_ C]]]. destruct (endswith d sep) eqn:E; trivial.
  destruct (endswith_inv sep d E) as [d' ->].
  rewrite contains_app in C. apply orb_false_elim in C. destruct C as [_ C].
  simpl in C. discriminate C.
Qed.

(** Joining plain names puts one separator between them. *)
Lemma join_all_plain ds : forall a,
  a <> [] -> endswith a sep = false -> Forall plain ds ->
  fold_left join_step ds a =
  a ++ SpecReport.cat (map (fun d => sep :: d) ds).
Proof.
  induction ds as [|d ds IH]; intros a Na Ea H; simpl.
  - now rewrite app_nil_r.
  - inversion H as [|? ? Pd Hs]; subst.
    pose proof Pd as [Nd [_ [_ Cd]]].
    assert (J : join_step a d = a ++ sep :: d).
    { unfold join_step. rewrite (startswith_without sep d Cd), Ea.
      apply str_eqb_neq in Na. now rewrite Na. }
    rewrite J, IH, app_flat; trivial.
    + intros E. apply app_eq_nil in E. destruct E as [_ E].
      discriminate E.
    + rewrite endswith_app by discriminate.
      change (sep :: d) with ([sep] ++ d).
      rewrite endswith_app by exact Nd. now apply endswith_plain.
Qed.

Lemma sep_join_cat a ds :
  sep_join (a :: ds) = a ++ SpecReport.cat (map (fun d => sep :: d) ds).
Proof.
  revert a; induction ds as [|d ds IH]; intros a.
  - simpl. now rewrite app_nil_r.
  - change (sep_join (a :: d :: ds)) with (a ++ sep :: sep_join (d :: ds)).
    now rewrite IH.
Qed.

(** The relative path of a file: the names of the directories from the
    selected folder down to it, and its own name, unchanged. *)
Lemma rel_path_of_entry cwd folder_selected ds filename :
  isabs cwd = true -> Forall plain ds -> plain filename ->
  rel_path_of cwd folder_selected (fold_left join ds folder_selected, filename) =
  sep_join (ds ++ [filename]).
Proof.
  intros Hc Hd Hf. unfold rel_path_of, relpath_body. cbn [fst snd].
  rewrite !nonempty_parts_abspath by trivial.
  rewrite (components_join cwd _ filename Hf), (components_join_all cwd ds _ Hd).
  rewrite <- List.app_assoc, commonprefix_prefix, Nat.sub_diag. simpl repeat.
  rewrite skipn_app, skipn_all, Nat.sub_diag. simpl.
  assert (F : Forall plain (ds ++ [filename])) by (apply Forall_app; split; auto).
  destruct (ds ++ [filename]) as [|a r] eqn:E.
  { destruct ds; discriminate E. }
  inversion F as [|? ? Ha Hr]; subst. unfold join_all.
  rewrite sep_join_cat. apply join_all_plain; trivial.
  - now destruct Ha.
  - now apply endswith_plain.
Qed.

End PathFacts.

Module FSFacts.
Import PyStr PyStrFacts FS.

Lemma find_set_entry name new entries :
  find_entry name (set_entry name new entries) = Some new.
Proof.
  induction entries as [|[n child] entries IH]; simpl.
  - now rewrite str_eqb_refl.
  - destruct (str_eqb_spec n name) as [->|N]; simpl.
    + now rewrite str_eqb_refl.
    + destruct (str_eqb_spec n name); [contradiction|exact IH].
Qed.

Lemma lookup_app a b n :
  lookup (a ++ b) n =
  match lookup a n with
  | Some m => lookup b m
  | None => None
  end.
Proof.
  revert n; induction a as [|c a IH]; intros n; simpl; trivial.
  destruct n as [content|entries]; trivial.
  destruct (find_entry c entries); trivial.
Qed.

(** What has been written is what is there. *)
Lemma lookup_write_file comps content : forall n n',
  write_file comps content n = Ok n' -> lookup comps n' = Some (File content).
Proof.
  induction comps as [|c r IH]; intros n n'; simpl.
  - destruct n; [now intros [= <-] | discriminate].
  - destruct n as [old|entries]; [destruct r; discriminate|].
    destruct (find_entry c entries) as [child|] eqn:F.
    + destruct (write_file r content child) as [child'|] eqn:W; [|discriminate].
      intros [= <-]. simpl. rewrite find_set_entry. now apply (IH child).
    + destruct r; [|discriminate]. intros [= <-]. simpl.
      now rewrite find_set_entry.
Qed.

(** [makedirs] below an existing directory. *)
Lemma makedirs_under cs : forall n entries rest child',
  lookup cs n = Some (Dir entries) ->
  makedirs rest (Dir entries) = Ok child' ->
  exists n', makedirs (cs ++ rest) n = Ok n' /\ lookup cs n' = Some child'.
Proof.
  induction cs as [|c cs IH]; intros n entries rest child' L M.
  - simpl in L. injection L as ->. exists child'. now split.
  - simpl in L. destruct n as [content|es]; [discriminate|].
    destruct (find_entry c es) as [child|] eqn:F; [|discriminate].
    destruct (IH child entries rest child' L M) as [n1 [M1 L1]].
    exists (Dir (set_entry c n1 es)). simpl. rewrite F, M1. split; trivial.
    now rewrite find_set_entry.
Qed.

(** [write_file] below an existing node. *)
Lemma write_file_under cs content : forall n m rest m',
  lookup cs n = Some m ->
  write_file rest content m = Ok m' ->
  exists n', write_file (cs ++ rest) content n = Ok n' /\ lookup cs n' = Some m'.
Proof.
  induction cs as [|c cs IH]; intros n m rest m' L W.
  - simpl in L. injection L as ->. exists m'. now split.
  - simpl in L. destruct n as [old|es]; [discriminate|].
    destruct (find_entry c es) as [child|] eqn:F; [|discriminate].
    destruct (IH child m rest m' L W) as [n1 [W1 L1]].
    exists (Dir (set_entry c n1 es)). simpl. rewrite F, W1. split; trivial.
    now rewrite find_set_entry.
Qed.

Lemma no_file_on_empty comps : no_file_on comps (Dir []) = true.
Proof. now destruct comps. Qed.

Lemma lookup_empty comps name : lookup (comps ++ [name]) (Dir []) = None.
Proof. now destruct comps. Qed.

(** [makedirs] succeeds when no regular file is on the path; the path is
    a directory afterwards, and has the entries it had. *)
Lemma makedirs_ok comps : forall n,
  no_file_on comps n = true ->
  exists n',
    makedirs comps n = Ok n' /\
    (exists entries, lookup comps n' = Some (Dir entries)) /\
    (forall name, lookup (comps ++ [name]) n' = lookup (comps ++ [name]) n).
Proof.
  induction comps as [|c r IH]; intros [content|es] H; try discriminate H.
  - exists (Dir es). repeat split; trivial. now exists es.
  - simpl in H. simpl makedirs.
    destruct (find_entry c es) as [child|] eqn:F.
    + destruct (IH child H) as [child' [M [D K]]]. rewrite M.
      exists (Dir (set_entry c child' es)). repeat split; trivial.
      * simpl. now rewrite find_set_entry.
      * intros name. simpl. now rewrite find_set_entry, F.
    + destruct (IH (Dir []) (no_file_on_empty r)) as [child' [M [D K]]]. rewrite M.
      exists (Dir (set_entry c child' es)). repeat split; trivial.
      * simpl. now rewrite find_set_entry.
      * intros name. simpl. rewrite find_set_entry, F, K. apply lookup_empty.
Qed.

End FSFacts.

(** ** The paths the system follows *)

Module ResolveFacts.
Import PyStr PyStrFacts PosixPath FS.

(** Where the system arrives, when it can follow a path, is where the path
    leads read as [normpath] reads it. *)
Lemma follow_spelled root : forall raw names names',
  follow root names raw = Some names' -> names' = fold_left resolve_step raw names.
Proof.
  induction raw as [|comp raw IH]; intros names names'; cbn [follow fold_left].
  - now intros [= <-].
  - destruct (lookup names root) as [[content|entries]|]; try discriminate.
    unfold resolve_step.
    destruct ((comp =? [])%str || (comp =? [extsep])%str); [apply IH|].
    destruct (comp =? [extsep; extsep])%str; [apply IH|].
    destruct (find_entry comp entries); [apply IH | discriminate].
Qed.

Lemma resolve_lookup cwd path root n :
  resolve cwd path root = Some n -> lookup (components cwd path) root = Some n.
Proof.
  unfold resolve, components.
  destruct (follow root [] _) as [names|] eqn:E; [|discriminate].
  apply follow_spelled in E. now rewrite <- E.
Qed.

(** A walk is empty or the walk of what the path spells. *)
Lemma walk_cases cwd top root :
  walk cwd top root = [] \/
  exists n, lookup (components cwd top) root = Some n /\ walk cwd top root = _walk top n.
Proof.
  unfold walk. destruct (resolve cwd top root) as [n|] eqn:E; [right | now left].
  exists n. split; trivial. now apply resolve_lookup.
Qed.

End ResolveFacts.




Example twice_recorded :
  group_enumerated (lit "/home/u") (lit "/home/u/data")
    [(lit "/home/u/data", lit "a.TXT"); (lit "/home/u/data", lit "A.txt");
     (lit "/home/u/data", lit "a.TXT")]
  = Ok [(lit ".txt", [lit "a.TXT"; lit "A.txt"; lit "a.TXT"])].
Proof. vm_compute. reflexivity. Qed.

Example rel_path_nested :
  rel_path_of (lit "/home/u") (lit "/home/u/data")
    (lit "/home/u/data/Sub/Deep", lit "Photo.JPG")
  = lit "Sub/Deep/Photo.JPG".
Proof. vm_compute. reflexivity. Qed.


(** ** The run *)

Module RunFacts.
Import PyStr FS.

Lemma group_files_ok cwd folder_selected root :
  folder_selected <> [] ->
  exists t, group_files cwd folder_selected (walk cwd folder_selected root) = Ok t.
Proof.
  intros H.
  destruct (GroupFacts.group_enumerated_holds cwd folder_selected
              (enumerate (walk cwd folder_selected root))) as [t [E _]].
  { apply WalkFacts.enumerate_dirpath. now apply WalkFacts.walk_dirpath. }
  exists t. now rewrite GroupFacts.group_files_enumerate.
Qed.

(** With nothing in the way, [output] is made or entered and the report is
    created or replaced. *)
Lemma report_written e root content :
  can_write_report e root ->
  exists root1 root2 outputs,
    makedirs (components (cwd e) (output_dir e)) root = Ok root1 /\
    write_file (components (cwd e) (output_path e)) content root1 = Ok root2 /\
    at_path e (output_path e) root2 = Some (File content) /\
    at_path e (output_dir e) root2 = Some (Dir outputs).
Proof.
  intros [N C]. unfold at_path in *.
  assert (E : components (cwd e) (output_path e) =
              components (cwd e) (output_dir e) ++ [output_name e]).
  { apply PathFacts.components_join, PathFacts.plain_output_name. }
  rewrite E in *.
  set (cs := components (cwd e) (output_dir e)) in *.
  set (name := output_name e) in *.
  destruct (FSFacts.makedirs_ok cs root N) as [root1 [M [[outs D] K]]].
  rewrite <- (K name), FSFacts.lookup_app, D in C. simpl in C.
  assert (W : write_file [name] content (Dir outs)
              = Ok (Dir (set_entry name (File content) outs))).
  { simpl. destruct (find_entry name outs) as [[old|sub]|]; [reflexivity|destruct C|reflexivity]. }
  destruct (FSFacts.write_file_under cs content root1 _ [name] _ D W)
    as [root2 [W2 L2]].
  exists root1, root2, (set_entry name (File content) outs).
  repeat split; trivial.
  now apply (FSFacts.lookup_write_file _ _ root1).
Qed.

(** The run when the picker is cancelled. *)
Lemma scan_cancelled e w :
  answer e = [] ->
  scan_folder_for_filetypes e w =
  (Ok tt, mkWorld RootWithdrawn (stdout w ++ lit "No folder selected." ++ nl) (fs w)).
Proof.
  intros H. unfold scan_folder_for_filetypes, bind, Tk, withdraw, askdirectory, print.
  cbn [fs stdout tk]. now rewrite H.
Qed.

(** The run when a folder is picked and nothing is in the way: the [with]
    block leaves the bytes its writes gave, and the path is printed when
    all the writes went through. *)
Lemma scan_selected e w :
  answer e <> [] -> can_write_report e (fs w) ->
  exists t root' outputs,
    group_files (cwd e) (answer e) (walk (cwd e) (answer e) (fs w)) = Ok t /\
    scan_folder_for_filetypes e w =
      match fst (write_results utf8_write t []) with
      | Ok _ =>
          (Ok tt, mkWorld RootWithdrawn
                    (stdout w ++ (lit "Saved to: " ++ output_path e) ++ nl) root')
      | Raise x => (Raise x, mkWorld RootWithdrawn (stdout w) root')
      end /\
    at_path e (output_path e) root' =
      Some (File (snd (write_results utf8_write t []))) /\
    at_path e (output_dir e) root' = Some (Dir outputs).
Proof.
  intros Ha Hc.
  destruct (group_files_ok (cwd e) (answer e) (fs w) Ha) as [t Ht].
  destruct (report_written e (fs w) (snd (write_results utf8_write t [])) Hc)
    as [root1 [root2 [outputs [M [W [P D]]]]]].
  exists t, root2, outputs. repeat split; trivial.
  unfold scan_folder_for_filetypes, bind, Tk, withdraw, askdirectory, os_walk, lift,
    os_makedirs, with_open_w, print.
  apply PyStrFacts.str_eqb_neq in Ha. rewrite Ha. cbn [fs stdout tk]. rewrite Ht.
  unfold output_path, output_name, output_dir, script_dir in M, W |- *.
  rewrite M. cbn [fs stdout tk].
  destruct (write_results utf8_write t []) as [r content].
  cbn [fst snd] in W |- *. rewrite W.
  now destruct r as [[]|x].
Qed.

End RunFacts.

(** C4: when the picker returns the empty answer, the run returns normally;
    the world differs from the one in which the picker returned (the Tk root
    made for it withdrawn) by the line [No folder selected.] on the standard
    output only: the file system is as it was. *)
Theorem C4_cancelled_prints_and_returns (e : env) (w : world) :
  answer e = [] ->
  scan_folder_for_filetypes e w =
    (Ok tt, mkWorld RootWithdrawn (stdout w ++ lit "No folder selected." ++ nl) (fs w)) /\
  fs (snd (scan_folder_for_filetypes e w)) = fs w.
Proof.
  intros H. rewrite (RunFacts.scan_cancelled e w H). now split.
Qed.

Lemma C4_cancelled_prints_and_returns_witness :
  answer Example.cancelled = [] /\
  scan_folder_for_filetypes Example.cancelled Example.before_again =
    (Ok tt, mkWorld RootWithdrawn
              (stdout Example.before_again ++ lit "No folder selected." ++ nl)
              (fs Example.before_again)) /\
  fs (snd (scan_folder_for_filetypes Example.cancelled Example.before_again))
    = fs Example.before_again.
Proof.
  split; [reflexivity|].
  apply (C4_cancelled_prints_and_returns Example.cancelled Example.before_again).
  reflexivity.
Defined.

(** C5: two runs of the writing step with the same table, whatever the
    worlds and the paths, leave the same bytes: the UTF-8 encoding of the
    report of the table. *)
Theorem C5_same_table_same_bytes (t : table) (e1 e2 : env) (path1 path2 : str)
    (w1 w2 w1' w2' : world) :
  with_open_w e1 path1 (write_results utf8_write t) w1 = (Ok tt, w1') ->
  with_open_w e2 path2 (write_results utf8_write t) w2 = (Ok tt, w2') ->
  exists b,
    utf8 (SpecReport.report (sorted t)) = Some b /\
    at_path e1 path1 (fs w1') = Some (FS.File b) /\
    at_path e2 path2 (fs w2') = at_path e1 path1 (fs w1').
Proof.
  destruct (utf8 (SpecReport.report (sorted t))) as [b|] eqn:U.
  - assert (A : forall e path w w',
               with_open_w e path (write_results utf8_write t) w = (Ok tt, w') ->
               at_path e path (fs w') = Some (FS.File b)).
    { intros e path w w'. unfold with_open_w, at_path.
      rewrite (ReportFacts.write_results_utf8 t b U).
      destruct (FS.write_file _ _ (fs w)) as [root'|] eqn:W; [|discriminate].
      intros [= <-]. cbn [fs].
      now apply (FSFacts.lookup_write_file _ _ (fs w)). }
    intros H1 H2. exists b. rewrite (A _ _ _ _ H1), (A _ _ _ _ H2). now repeat split.
  - intros H1 _. exfalso. revert H1. unfold with_open_w.
    pose proof (ReportFacts.write_results_utf8_fail t U) as R.
    destruct (write_results utf8_write t []) as [r content]. cbn [fst] in R. subst r.
    destruct (FS.write_file _ _ (fs w1)); discriminate.
Qed.

Lemma C5_same_table_same_bytes_witness :
  with_open_w Example.picked (lit "/opt/creepdir/output/data.txt")
    (write_results utf8_write Example.files_by_ext) Example.before_again =
    (Ok tt, snd (with_open_w Example.picked (lit "/opt/creepdir/output/data.txt")
                   (write_results utf8_write Example.files_by_ext) Example.before_again)) /\
  with_open_w Example.picked_empty (lit "/home/u/report.txt")
    (write_results utf8_write Example.files_by_ext) Example.before =
    (Ok tt, snd (with_open_w Example.picked_empty (lit "/home/u/report.txt")
                   (write_results utf8_write Example.files_by_ext) Example.before)) /\
  exists b,
    utf8 (SpecReport.report (sorted Example.files_by_ext)) = Some b /\
    at_path Example.picked (lit "/opt/creepdir/output/data.txt")
      (fs (snd (with_open_w Example.picked (lit "/opt/creepdir/output/data.txt")
                  (write_results utf8_write Example.files_by_ext) Example.before_again)))
      = Some (FS.File b) /\
    at_path Example.picked_empty (lit "/home/u/report.txt")
      (fs (snd (with_open_w Example.picked_empty (lit "/home/u/report.txt")
                  (write_results utf8_write Example.files_by_ext) Example.before)))
      = at_path Example.picked (lit "/opt/creepdir/output/data.txt")
          (fs (snd (with_open_w Example.picked (lit "/opt/creepdir/output/data.txt")
                      (write_results utf8_write Example.files_by_ext)
                      Example.before_again))).
Proof.
  split; [vm_compute; reflexivity|]. split; [vm_compute; reflexivity|].
  apply (C5_same_table_same_bytes Example.files_by_ext
           Example.picked Example.picked_empty
           (lit "/opt/creepdir/output/data.txt") (lit "/home/u/report.txt")
           Example.before_again Example.before); vm_compute; reflexivity.
Defined.

(** C7: when a folder is picked and nothing is in the way, the report is
    the file [<output_path>], that is
    [<directory of the script>/output/<basename of the folder>.txt]; it
    holds the bytes this run wrote, whatever was there; [output] is a
    directory afterwards.  When the report can be encoded in UTF-8, the
    run returns normally, the file holds the whole report and the path is
    printed; when it cannot (a name that is not valid UTF-8), the run ends
    with [UnicodeEncodeError], the file is left with what was written
    before, and nothing is printed. *)
Theorem C7_report_location (e : env) (w : world) :
  answer e <> [] ->
  can_write_report e (fs w) ->
  exists t w' outputs,
    group_files (cwd e) (answer e) (FS.walk (cwd e) (answer e) (fs w)) = Ok t /\
    snd (scan_folder_for_filetypes e w) = w' /\
    output_path e =
      PosixPath.join
        (PosixPath.join
           (PosixPath.dirname (PosixPath.abspath (cwd e) (script_file e))) (lit "output"))
        (PosixPath.basename (answer e) ++ lit ".txt") /\
    at_path e (output_path e) (fs w') =
      Some (FS.File (snd (write_results utf8_write t []))) /\
    at_path e (output_dir e) (fs w') = Some (FS.Dir outputs) /\
    (forall b,
        utf8 (SpecReport.report (sorted t)) = Some b ->
        scan_folder_for_filetypes e w = (Ok tt, w') /\
        at_path e (output_path e) (fs w') = Some (FS.File b) /\
        stdout w' = stdout w ++ (lit "Saved to: " ++ output_path e) ++ nl) /\
    (utf8 (SpecReport.report (sorted t)) = None ->
        scan_folder_for_filetypes e w = (Raise UnicodeEncodeError, w') /\
        stdout w' = stdout w).
Proof.
  intros Ha Hc.
  destruct (RunFacts.scan_selected e w Ha Hc) as [t [root' [outputs [Ht [R [P D]]]]]].
  exists t, (snd (scan_folder_for_filetypes e w)), outputs.
  assert (F : fs (snd (scan_folder_for_filetypes e w)) = root').
  { rewrite R. now destruct (fst (write_results utf8_write t [])). }
  rewrite F.
  split; [exact Ht|]. split; [reflexivity|]. split; [reflexivity|].
  split; [exact P|]. split; [exact D|]. split.
  - intros b U. rewrite (ReportFacts.write_results_utf8 t b U) in R, P.
    cbn [fst snd] in R, P. rewrite R. cbn [snd stdout]. now repeat split.
  - intros U. rewrite (ReportFacts.write_results_utf8_fail t U) in R.
    rewrite R. cbn [snd stdout]. now split.
Qed.

Lemma C7_report_location_witness :
  answer Example.picked <> [] /\
  can_write_report Example.picked (fs Example.before_again) /\
  exists t w' outputs,
    group_files (cwd Example.picked) (answer Example.picked)
      (FS.walk (cwd Example.picked) (answer Example.picked) (fs Example.before_again))
      = Ok t /\
    snd (scan_folder_for_filetypes Example.picked Example.before_again) = w' /\
    output_path Example.picked =
      PosixPath.join
        (PosixPath.join
           (PosixPath.dirname
              (PosixPath.abspath (cwd Example.picked) (script_file Example.picked)))
           (lit "output"))
        (PosixPath.basename (answer Example.picked) ++ lit ".txt") /\
    at_path Example.picked (output_path Example.picked) (fs w') =
      Some (FS.File (snd (write_results utf8_write t []))) /\
    at_path Example.picked (output_dir Example.picked) (fs w') = Some (FS.Dir outputs) /\
    (forall b,
        utf8 (SpecReport.report (sorted t)) = Some b ->
        scan_folder_for_filetypes Example.picked Example.before_again = (Ok tt, w') /\
        at_path Example.picked (output_path Example.picked) (fs w') = Some (FS.File b) /\
        stdout w' = stdout Example.before_again
                    ++ (lit "Saved to: " ++ output_path Example.picked) ++ nl) /\
    (utf8 (SpecReport.report (sorted t)) = None ->
        scan_folder_for_filetypes Example.picked Example.before_again
          = (Raise UnicodeEncodeError, w') /\
        stdout w' = stdout Example.before_again).
Proof.
  assert (C : can_write_report Example.picked (fs Example.before_again)).
  { split; [vm_compute; reflexivity | vm_compute; exact I]. }
  split; [discriminate|]. split; [exact C|].
  apply (C7_report_location Example.picked Example.before_again); [discriminate|exact C].
Defined.

(** C8: when the picked directory holds no regular file at any depth, and
    nothing is in the way, the run returns normally, the table is empty and
    the report is a file of zero bytes at the output path. *)
Theorem C8_no_file_empty_report (e : env) (w : world) (n : FS.node) :
  answer e <> [] ->
  can_write_report e (fs w) ->
  at_path e (answer e) (fs w) = Some n ->
  has_file n = false ->
  exists w',
    scan_folder_for_filetypes e w = (Ok tt, w') /\
    group_files (cwd e) (answer e) (FS.walk (cwd e) (answer e) (fs w)) = Ok [] /\
    write_results utf8_write [] [] = (Ok tt, []) /\
    at_path e (output_path e) (fs w') = Some (FS.File []).
Proof.
  intros Ha Hc Hn Hf.
  destruct (RunFacts.scan_selected e w Ha Hc) as [t [root' [outputs [Ht [R [P D]]]]]].
  assert (E : group_files (cwd e) (answer e) (FS.walk (cwd e) (answer e) (fs w)) = Ok []).
  { rewrite GroupFacts.group_files_enumerate.
    destruct (ResolveFacts.walk_cases (cwd e) (answer e) (fs w)) as [->|[n' [L ->]]];
      [reflexivity|].
    unfold at_path in Hn. rewrite Hn in L. injection L as <-.
    now rewrite (WalkFacts._walk_no_file n _ Hf). }
  rewrite E in Ht. injection Ht as <-.
  eexists. split; [exact R|]. split; [exact E|]. split; [reflexivity|exact P].
Qed.

Lemma C8_no_file_empty_report_witness :
  answer Example.picked_empty <> [] /\
  can_write_report Example.picked_empty (fs Example.before) /\
  at_path Example.picked_empty (answer Example.picked_empty) (fs Example.before)
    = Some (FS.Dir [(lit "void", FS.Dir [])]) /\
  has_file (FS.Dir [(lit "void", FS.Dir [])]) = false /\
  exists w',
    scan_folder_for_filetypes Example.picked_empty Example.before = (Ok tt, w') /\
    group_files (cwd Example.picked_empty) (answer Example.picked_empty)
      (FS.walk (cwd Example.picked_empty) (answer Example.picked_empty)
         (fs Example.before)) = Ok [] /\
    write_results utf8_write [] [] = (Ok tt, []) /\
    at_path Example.picked_empty (output_path Example.picked_empty) (fs w')
      = Some (FS.File []).
Proof.
  assert (C : can_write_report Example.picked_empty (fs Example.before)).
  { split; [vm_compute; reflexivity | vm_compute; exact I]. }
  split; [discriminate|]. split; [exact C|]. split; [vm_compute; reflexivity|].
  split; [reflexivity|].
  apply (C8_no_file_empty_report Example.picked_empty Example.before
           (FS.Dir [(lit "void", FS.Dir [])])); trivial;
    try discriminate; vm_compute; reflexivity.
Defined.

Example run_example :
  scan_folder_for_filetypes Example.picked Example.before_again =
  (Ok tt,
   mkWorld RootWithdrawn
     (lit "$ python creepdir.py" ++ lit "Saved to: /opt/creepdir/output/data.txt" ++ nl)
     (FS.Dir
        [(lit "home", Example.home);
         (lit "opt",
          FS.Dir
            [(lit "creepdir",
              FS.Dir
                [(lit "creepdir.py", Example.script);
                 (lit "output",
                  FS.Dir
                    [(lit "data.txt",
                      FS.File
                        (lit "---  ---" ++ nl ++ lit "README" ++ nl ++ nl ++
                         lit "--- .txt ---" ++ nl ++ lit "a.TXT" ++ nl ++ lit "b.txt"
                         ++ nl ++ lit "sub/c.txt" ++ nl ++ nl))])])])])).
Proof. vm_compute. reflexivity. Qed.

(** The picked path goes through a directory that is not there: the walk
    yields nothing, and an earlier report is replaced by an empty one. *)
Example run_through_missing :
  scan_folder_for_filetypes Mishap.picked_through_missing Example.before_again =
  (Ok tt,
   mkWorld RootWithdrawn
     (lit "$ python creepdir.py" ++ lit "Saved to: /opt/creepdir/output/data.txt" ++ nl)
     (FS.Dir
        [(lit "home", Example.home);
         (lit "opt",
          FS.Dir
            [(lit "creepdir",
              FS.Dir
                [(lit "creepdir.py", Example.script);
                 (lit "output", FS.Dir [(lit "data.txt", FS.File [])])])])])).
Proof. vm_compute. reflexivity. Qed.

(** A file whose name is not valid UTF-8: the run ends with
    [UnicodeEncodeError] at the line of that name; the report holds what
    was written before, and nothing is printed. *)
Example run_not_utf8 :
  scan_folder_for_filetypes Example.picked (mkWorld NoRoot [] Example.root_not_utf8) =
  (Raise UnicodeEncodeError,
   mkWorld RootWithdrawn []
     (FS.Dir
        [(lit "home",
          FS.Dir [(lit "u", FS.Dir [(lit "data",
                                     FS.Dir [(lit "a.TXT", FS.File (lit "A"));
                                             (Example.not_utf8, FS.File (lit "N"))])])]);
         (lit "opt",
          FS.Dir
            [(lit "creepdir",
              FS.Dir
                [(lit "creepdir.py", Example.script);
                 (lit "output",
                  FS.Dir
                    [(lit "data.txt",
                      FS.File (lit "--- .txt ---" ++ nl ++ lit "a.TXT" ++ nl))])])])])).
Proof. vm_compute. reflexivity. Qed.

(** ** The outcomes of a run *)

Module OutcomeFacts.
Import PyStr FS.

(** A run with a folder picked: the table is built, then [makedirs], [open]
    and the writes decide the outcome. *)
Lemma scan_cases e w :
  answer e <> [] ->
  exists t,
    group_files (cwd e) (answer e) (walk (cwd e) (answer e) (fs w)) = Ok t /\
    match makedirs (components (cwd e) (output_dir e)) (fs w) with
    | Raise x =>
        scan_folder_for_filetypes e w =
        (Raise x, mkWorld RootWithdrawn (stdout w) (fs w))
    | Ok root1 =>
        match write_file (components (cwd e) (output_path e))
                (snd (write_results utf8_write t [])) root1 with
        | Raise x =>
            scan_folder_for_filetypes e w =
            (Raise x, mkWorld RootWithdrawn (stdout w) root1)
        | Ok root2 =>
            scan_folder_for_filetypes e w =
            match fst (write_results utf8_write t []) with
            | Ok _ =>
                (Ok tt, mkWorld RootWithdrawn
                          (stdout w ++ (lit "Saved to: " ++ output_path e) ++ nl) root2)
            | Raise x => (Raise x, mkWorld RootWithdrawn (stdout w) root2)
            end
        end
    end.
Proof.
  intros Ha. destruct (RunFacts.group_files_ok (cwd e) (answer e) (fs w) Ha) as [t Ht].
  exists t. split; [exact Ht|].
  unfold scan_folder_for_filetypes, bind, Tk, withdraw, askdirectory, os_walk, lift,
    os_makedirs, with_open_w, print.
  apply PyStrFacts.str_eqb_neq in Ha. rewrite Ha. cbn [fs stdout tk]. rewrite Ht.
  unfold output_path, output_name, output_dir, script_dir.
  destruct (makedirs _ (fs w)) as [root1|x]; [|reflexivity].
  cbn [fs stdout tk].
  destruct (write_results utf8_write t []) as [r content]. cbn [fst snd].
  destruct (write_file _ _ root1) as [root2|x]; [|reflexivity].
  now destruct r as [[]|x].
Qed.

End OutcomeFacts.

(** ** More on the key *)

Module KeyShape.
Import PyStr PyStrFacts UnicodeFacts PosixPath.

Lemma snd_skip_cases p d : forall n a,
  skip_leading_dots p a d n = (p, slice_to p 0) \/
  skip_leading_dots p a d n = (slice_to p d, slice_from p d).
Proof.
  induction n as [|n IH]; intros a; cbn [skip_leading_dots]; [now left|].
  destruct (negb _); [now right | apply IH].
Qed.

(** [splitext] cuts the path in two. *)
Lemma splitext_concat p : fst (splitext p) ++ snd (splitext p) = p.
Proof.
  unfold splitext.
  destruct (rfind p extsep >? rfind p sep).
  - destruct (snd_skip_cases p (rfind p extsep)
                (Z.to_nat (rfind p extsep - (rfind p sep + 1))) (rfind p sep + 1))
      as [E|E]; rewrite E; cbn [fst snd].
    + rewrite slice_to_0. apply app_nil_r.
    + apply take_drop.
  - cbn [fst snd]. rewrite slice_to_0. apply app_nil_r.
Qed.

(** The second half of [splitext], when not empty, starts at the last
    period, which lies after the last separator. *)
Lemma snd_splitext_shape p :
  snd (splitext p) = [] \/
  exists i, rindex extsep p = Some i /\ rfind p sep < Z.of_nat i /\
            snd (splitext p) = drop i p.
Proof.
  unfold splitext.
  destruct (Z.gtb_spec (rfind p extsep) (rfind p sep)) as [G|G].
  - destruct (snd_skip_cases p (rfind p extsep)
                (Z.to_nat (rfind p extsep - (rfind p sep + 1))) (rfind p sep + 1))
      as [E|E]; rewrite E; cbn [fst snd].
    + left. apply slice_to_0.
    + right. pose proof (rfind_bounds sep p) as B.
      assert (F : rfind p extsep =
                  match rindex extsep p with Some i => Z.of_nat i | None => -1 end)
        by reflexivity.
      destruct (rindex extsep p) as [i|] eqn:R; [|lia].
      exists i. rewrite F in *. repeat split; trivial.
      unfold slice_from. now rewrite clamp_nat by (apply rindex_lt in R; lia).
  - left. apply slice_to_0.
Qed.

Lemma drop_add a b : forall s, drop (a + b) s = drop b (drop a s).
Proof.
  induction a as [|a IH]; intros s; simpl; trivial.
  destruct s as [|c s]; [now destruct b | apply IH].
Qed.

(** Nothing of a character is left after its last occurrence. *)
Lemma contains_drop_after c s i :
  rfind s c < Z.of_nat i -> contains c (drop i s) = false.
Proof.
  unfold rfind. destruct (rindex c s) as [j|] eqn:R; intros H.
  - replace i with (S j + (i - S j))%nat by lia. rewrite drop_add.
    apply contains_drop. now apply PathFacts.contains_drop_rindex.
  - apply contains_drop. now apply rindex_none.
Qed.

End KeyShape.

(** X1: the key of a name without capital sigma is the end of the name in
    lower case: what [splitext] leaves before the extension, lower-cased,
    and then the key, make the lower-cased name.  (The lower-case form of a
    capital sigma depends on what stands before it, which the key does not
    see.) *)
Theorem X1_key_is_suffix_of_lowered_name (filename : str) :
  contains 0x3A3 filename = false ->
  lower filename = lower (fst (PosixPath.splitext filename)) ++ ext_of filename.
Proof.
  intros H. unfold ext_of. rewrite <- UnicodeFacts.lower_app_no_sigma.
  - now rewrite KeyShape.splitext_concat.
  - now rewrite KeyShape.splitext_concat.
Qed.

Lemma X1_key_is_suffix_of_lowered_name_witness :
  contains 0x3A3 (lit "Archive.Tar.GZ") = false /\
  lower (lit "Archive.Tar.GZ") =
    lower (fst (PosixPath.splitext (lit "Archive.Tar.GZ"))) ++ ext_of (lit "Archive.Tar.GZ").
Proof.
  split; [reflexivity|].
  apply (X1_key_is_suffix_of_lowered_name (lit "Archive.Tar.GZ")). reflexivity.
Defined.

(** With a capital sigma the key need not be the end of the lower-cased
    name: [Α.Σ] in lower case is [α.ς], and its key is [.σ]. *)
Example key_of_alpha_sigma :
  lower Example.alpha_sigma = [0x3B1; 0x2E; 0x3C2]%N /\
  lower (fst (PosixPath.splitext Example.alpha_sigma)) ++ ext_of Example.alpha_sigma
    = [0x3B1; 0x2E; 0x3C3]%N.
Proof. vm_compute. split; reflexivity. Qed.

(** X2: a key holds no separator, and no period after its first
    character: of [archive.tar.gz] only [.gz] is kept. *)
Theorem X2_key_has_one_period (filename : str) :
  contains PosixPath.sep (ext_of filename) = false /\
  contains PosixPath.extsep (drop 1 (ext_of filename)) = false.
Proof.
  unfold ext_of, PosixPath.sep, PosixPath.extsep.
  rewrite (UnicodeFacts.lower_contains 47) by now right.
  destruct (KeyShape.snd_splitext_shape filename) as [E|[i [R [L E]]]]; rewrite E.
  - now split.
  - split.
    + now apply KeyShape.contains_drop_after.
    + destruct (KeyFacts.rindex_drop _ _ _ R) as [q Q]. rewrite Q.
      unfold PosixPath.extsep. rewrite UnicodeFacts.lower_period. cbn [drop].
      rewrite (UnicodeFacts.lower_from_contains 46) by now left.
      pose proof (PathFacts.contains_drop_rindex _ _ _ R) as C.
      now rewrite (PyStrFacts.drop_succ _ _ _ _ Q) in C.
Qed.

Example key_of_archive :
  ext_of (lit "Backup/2024.d/archive.TAR.gz") = lit ".gz".
Proof. vm_compute. reflexivity. Qed.

(** ** More on the report *)

Module OrderFacts.
Import PyStr ReportFacts.

Lemma ltb_empty k : str_ltb k [] = false.
Proof. now destruct k. Qed.

Lemma key_lt_asym a b : key_lt a b -> key_lt b a -> False.
Proof.
  unfold key_lt. intros H1 H2.
  pose proof (ltb_trans _ _ _ H1 H2) as H. rewrite ltb_irrefl in H. discriminate H.
Qed.

(** Two arrangements of the same items by ascending key are the same. *)
Lemma sorted_unique l1 : forall l2,
  StronglySorted key_lt l1 -> StronglySorted key_lt l2 -> Permutation l1 l2 ->
  l1 = l2.
Proof.
  induction l1 as [|x r1 IH]; intros l2 S1 S2 P.
  - apply Permutation_nil in P. now subst.
  - destruct l2 as [|y r2].
    { apply Permutation_sym, Permutation_nil in P. discriminate P. }
    inversion S1 as [|? ? Sr1 F1]; subst. inversion S2 as [|? ? Sr2 F2]; subst.
    assert (E : x = y).
    { assert (Ix : In x (y :: r2)) by (apply (Permutation_in _ P); now left).
      assert (Iy : In y (x :: r1))
        by (apply (Permutation_in _ (Permutation_sym P)); now left).
      destruct Ix as [E|Ix]; [now subst|]. destruct Iy as [E|Iy]; [now subst|].
      rewrite Forall_forall in F1, F2.
      destruct (key_lt_asym x y (F1 _ Iy) (F2 _ Ix)). }
    subst y. f_equal. apply IH; trivial. now apply Permutation_cons_inv in P.
Qed.

Lemma sorted_permutation t1 t2 :
  NoDup (keys t1) -> Permutation t1 t2 -> sorted t1 = sorted t2.
Proof.
  intros N P.
  assert (N2 : NoDup (keys t2)).
  { unfold keys in *. apply (Permutation_NoDup (Permutation_map fst P) N). }
  apply sorted_unique; try now apply sorted_sorted.
  rewrite (sorted_perm t1), P. apply Permutation_sym, sorted_perm.
Qed.

End OrderFacts.

(** X3: the order in which the keys entered the table does not show in the
    report: two tables with the same items, in any order, are written alike,
    whatever the file does with what is written and whatever it holds
    already. *)
Theorem X3_report_ignores_insertion_order (t1 t2 : table)
    (F : Type) (write : str -> St F unit) (f : F) :
  NoDup (keys t1) -> Permutation t1 t2 ->
  write_results write t1 f = write_results write t2 f.
Proof.
  intros N P. unfold write_results. now rewrite (OrderFacts.sorted_permutation t1 t2 N P).
Qed.

Lemma X3_report_ignores_insertion_order_witness :
  NoDup (keys Example.files_by_ext) /\
  Permutation Example.files_by_ext (rev Example.files_by_ext) /\
  write_results utf8_write Example.files_by_ext [] =
    write_results utf8_write (rev Example.files_by_ext) [].
Proof.
  assert (N : NoDup (keys Example.files_by_ext)).
  { cbv. repeat constructor; simpl; intuition discriminate. }
  assert (P : Permutation Example.files_by_ext (rev Example.files_by_ext))
    by apply Permutation_rev.
  split; [exact N|]. split; [exact P|].
  apply (X3_report_ignores_insertion_order Example.files_by_ext
           (rev Example.files_by_ext) _ utf8_write [] N P).
Defined.

(** X4: when some file has the empty key, the report begins with the block
    of the empty key, [---  ---] and the files without extension: the empty
    string is below every other key.  So do the bytes of the file. *)
Theorem X4_empty_key_comes_first (t : table) :
  NoDup (keys t) -> In [] (keys t) ->
  exists rest,
    sorted t = ([], group_of [] t) :: rest /\
    write_results text_write t [] =
      (Ok tt,
       (lit "---  ---" ++ nl) ++ SpecReport.lines (group_of [] t) ++ nl
       ++ SpecReport.report rest) /\
    (forall b,
        utf8 (SpecReport.report (sorted t)) = Some b ->
        exists first others,
          utf8 ((lit "---  ---" ++ nl) ++ SpecReport.lines (group_of [] t) ++ nl)
            = Some first /\
          utf8 (SpecReport.report rest) = Some others /\
          write_results utf8_write t [] = (Ok tt, first ++ others)).
Proof.
  intros N I.
  assert (M : In ([], group_of [] t) (sorted t)).
  { apply (Permutation_in _ (Permutation_sym (ReportFacts.sorted_perm t))).
    apply (GroupFacts.in_table [] _ t N). now split. }
  pose proof (ReportFacts.sorted_sorted t N) as S.
  assert (A : exists rest, sorted t = ([], group_of [] t) :: rest).
  { destruct (sorted t) as [|[k v] rest]; [destruct M|].
    inversion S as [|? ? Sr F]; subst.
    destruct M as [E|M].
    - injection E as -> ->. now exists rest.
    - rewrite Forall_forall in F. specialize (F _ M). unfold key_lt in F.
      cbn [fst] in F. rewrite OrderFacts.ltb_empty in F. discriminate F. }
  destruct A as [rest A]. exists rest. split; [exact A|].
  assert (R : SpecReport.report (sorted t) =
              ((lit "---  ---" ++ nl) ++ SpecReport.lines (group_of [] t) ++ nl)
              ++ SpecReport.report rest).
  { rewrite A. unfold SpecReport.report. cbn [map SpecReport.cat].
    unfold SpecReport.block, SpecReport.header. cbn [fst snd].
    now rewrite <- !List.app_assoc. }
  split.
  - rewrite ReportFacts.write_results_text, R. now rewrite <- !List.app_assoc.
  - intros b U. rewrite (ReportFacts.write_results_utf8 t b U).
    rewrite R, ReportFacts.utf8_app in U.
    destruct (utf8 (_ ++ _ ++ nl)) as [first|]; [|discriminate U].
    destruct (utf8 (SpecReport.report rest)) as [others|]; [|discriminate U].
    injection U as <-. now exists first, others.
Qed.

Lemma X4_empty_key_comes_first_witness :
  NoDup (keys Example.files_by_ext) /\ In [] (keys Example.files_by_ext) /\
  exists rest,
    sorted Example.files_by_ext = ([], group_of [] Example.files_by_ext) :: rest /\
    write_results text_write Example.files_by_ext [] =
      (Ok tt,
       (lit "---  ---" ++ nl) ++ SpecReport.lines (group_of [] Example.files_by_ext) ++ nl
       ++ SpecReport.report rest) /\
    (forall b,
        utf8 (SpecReport.report (sorted Example.files_by_ext)) = Some b ->
        exists first others,
          utf8 ((lit "---  ---" ++ nl)
                ++ SpecReport.lines (group_of [] Example.files_by_ext) ++ nl)
            = Some first /\
          utf8 (SpecReport.report rest) = Some others /\
          write_results utf8_write Example.files_by_ext [] = (Ok tt, first ++ others)).
Proof.
  assert (N : NoDup (keys Example.files_by_ext)).
  { cbv. repeat constructor; simpl; intuition discriminate. }
  assert (I : In [] (keys Example.files_by_ext)) by (cbv; auto).
  split; [exact N|]. split; [exact I|].
  apply (X4_empty_key_comes_first Example.files_by_ext N I).
Defined.


(** ** What the run changes in the file system *)

Module FrameFacts.
Import PyStr PyStrFacts FS.

Lemma find_set_entry_other name' name new entries :
  name' <> name -> find_entry name' (set_entry name new entries) = find_entry name' entries.
Proof.
  intros N. induction entries as [|[n child] entries IH]; simpl.
  - destruct (PyStrFacts.str_eqb_spec name name'); [congruence | trivial].
  - destruct (PyStrFacts.str_eqb_spec n name) as [->|Nn]; simpl.
    + destruct (PyStrFacts.str_eqb_spec name name'); [congruence | trivial].
    + now rewrite IH.
Qed.

Lemma set_entry_same name child entries :
  find_entry name entries = Some child -> set_entry name child entries = entries.
Proof.
  induction entries as [|[n c] entries IH]; simpl; [discriminate|].
  destruct (PyStrFacts.str_eqb_spec n name) as [->|N].
  - now intros [= ->].
  - intros H. now rewrite (IH H).
Qed.

Lemma leads_to_nil comps : leads_to [] comps.
Proof. now exists comps. Qed.

Lemma leads_to_cons c q r : leads_to q r -> leads_to (c :: q) (c :: r).
Proof. intros [x ->]. now exists x. Qed.

Lemma leads_to_app q a b : leads_to q a -> leads_to q (a ++ b).
Proof. intros [x ->]. exists (x ++ b). now rewrite <- List.app_assoc. Qed.

(** [makedirs] on a directory that exists changes nothing. *)
Lemma makedirs_existing comps : forall n entries,
  lookup comps n = Some (Dir entries) -> makedirs comps n = Ok n.
Proof.
  induction comps as [|c r IH]; intros n entries L; simpl in *.
  - now injection L as ->.
  - destruct n as [content|es]; [discriminate|].
    destruct (find_entry c es) as [child|] eqn:F; [|discriminate].
    rewrite (IH child entries L). now rewrite (set_entry_same c child es F).
Qed.

(** Writing what is there changes nothing. *)
Lemma write_file_same comps content : forall n,
  lookup comps n = Some (File content) -> write_file comps content n = Ok n.
Proof.
  induction comps as [|c r IH]; intros n L; simpl in *.
  - now injection L as ->.
  - destruct n as [old|es]; [discriminate|].
    destruct (find_entry c es) as [child|] eqn:F; [|discriminate].
    rewrite (IH child L). now rewrite (set_entry_same c child es F).
Qed.

(** Opening a directory for writing raises. *)
Lemma write_file_on_dir comps content : forall n entries,
  lookup comps n = Some (Dir entries) ->
  write_file comps content n = Raise IsADirectoryError.
Proof.
  induction comps as [|c r IH]; intros n entries L; simpl in *.
  - now injection L as ->.
  - destruct n as [old|es]; [discriminate|].
    destruct (find_entry c es) as [child|] eqn:F; [|discriminate].
    now rewrite (IH child entries L).
Qed.

(** [makedirs] raises on a regular file in the way. *)
Lemma makedirs_blocked comps : forall n,
  no_file_on comps n = false ->
  makedirs comps n = Raise FileExistsError \/
  makedirs comps n = Raise NotADirectoryError.
Proof.
  induction comps as [|c r IH]; intros [content|es] H; simpl in *;
    try discriminate H; auto.
  destruct (find_entry c es) as [child|]; [|discriminate H].
  destruct (IH child H) as [-> | ->]; auto.
Qed.

(** [makedirs] leaves alone what does not lead to the directory made. *)
Lemma makedirs_frame comps : forall n n' q,
  makedirs comps n = Ok n' -> ~ leads_to q comps -> lookup q n' = lookup q n.
Proof.
  induction comps as [|c r IH]; intros n n' q M N.
  - destruct n; simpl in M; [discriminate|]. now injection M as <-.
  - destruct n as [content|es]; simpl in M; [discriminate|].
    destruct q as [|x q]; [destruct (N (leads_to_nil _))|].
    destruct (find_entry c es) as [child|] eqn:F.
    + destruct (makedirs r child) as [child'|] eqn:M'; [|discriminate].
      injection M as <-. simpl.
      destruct (PyStrFacts.str_eqb_spec x c) as [->|Nx].
      * rewrite FSFacts.find_set_entry, F. apply (IH child); trivial.
        intros L. apply N. now apply leads_to_cons.
      * now rewrite find_set_entry_other.
    + destruct (makedirs r (Dir [])) as [child'|] eqn:M'; [|discriminate].
      injection M as <-. simpl.
      destruct (PyStrFacts.str_eqb_spec x c) as [->|Nx].
      * rewrite FSFacts.find_set_entry, F.
        rewrite (IH (Dir []) child' q M').
        -- destruct q as [|y q]; [|reflexivity].
           destruct N. apply leads_to_cons, leads_to_nil.
        -- intros L. apply N. now apply leads_to_cons.
      * now rewrite find_set_entry_other.
Qed.

(** Writing a file leaves alone what does not lead to it. *)
Lemma write_file_frame comps content : forall n n' q,
  write_file comps content n = Ok n' -> ~ leads_to q comps -> lookup q n' = lookup q n.
Proof.
  induction comps as [|c r IH]; intros n n' q W N.
  - destruct q as [|x q]; [destruct (N (leads_to_nil _))|].
    destruct n; simpl in W; [|discriminate]. now injection W as <-.
  - destruct n as [old|es]; simpl in W; [discriminate|].
    destruct q as [|x q]; [destruct (N (leads_to_nil _))|].
    destruct (find_entry c es) as [child|] eqn:F.
    + destruct (write_file r content child) as [child'|] eqn:W'; [|discriminate].
      injection W as <-. simpl.
      destruct (PyStrFacts.str_eqb_spec x c) as [->|Nx].
      * rewrite FSFacts.find_set_entry, F. apply (IH child); trivial.
        intros L. apply N. now apply leads_to_cons.
      * now rewrite find_set_entry_other.
    + destruct r as [|c' r]; [|discriminate]. injection W as <-. simpl.
      destruct (PyStrFacts.str_eqb_spec x c) as [->|Nx].
      * rewrite FSFacts.find_set_entry, F.
        destruct q as [|y q]; [|reflexivity].
        destruct N. apply leads_to_cons, leads_to_nil.
      * now rewrite find_set_entry_other.
Qed.

Lemma components_report e :
  components (cwd e) (output_path e) =
  (components (cwd e) (output_dir e) ++ [output_name e]).
Proof. apply PathFacts.components_join, PathFacts.plain_output_name. Qed.

End FrameFacts.

(** X5: with a regular file on the path of the output directory (say a file
    named [output] beside the script), the run ends with the exception of
    [os.makedirs], [FileExistsError] or [NotADirectoryError]; nothing is
    printed and the file system is as it was. *)
Theorem X5_file_in_the_way (e : env) (w : world) :
  answer e <> [] ->
  no_file_on (FS.components (cwd e) (output_dir e)) (fs w) = false ->
  exists x,
    (x = FileExistsError \/ x = NotADirectoryError) /\
    scan_folder_for_filetypes e w = (Raise x, mkWorld RootWithdrawn (stdout w) (fs w)).
Proof.
  intros Ha Hb. destruct (OutcomeFacts.scan_cases e w Ha) as [t [_ C]].
  destruct (FrameFacts.makedirs_blocked _ _ Hb) as [E|E]; rewrite E in C; eauto.
Qed.

Lemma X5_file_in_the_way_witness :
  answer Example.picked <> [] /\
  no_file_on (FS.components (cwd Example.picked) (output_dir Example.picked))
    (fs Mishap.blocked) = false /\
  exists x,
    (x = FileExistsError \/ x = NotADirectoryError) /\
    scan_folder_for_filetypes Example.picked Mishap.blocked =
    (Raise x, mkWorld RootWithdrawn (stdout Mishap.blocked) (fs Mishap.blocked)).
Proof.
  split; [discriminate|]. split; [vm_compute; reflexivity|].
  apply (X5_file_in_the_way Example.picked Mishap.blocked);
    [discriminate | vm_compute; reflexivity].
Defined.

(** X6: with a directory under the name of the report, the run ends with
    [IsADirectoryError] from [open]; nothing is printed and the file system
    is as it was. *)
Theorem X6_directory_named_as_report (e : env) (w : world)
    (entries : list (str * FS.node)) :
  answer e <> [] ->
  at_path e (output_path e) (fs w) = Some (FS.Dir entries) ->
  scan_folder_for_filetypes e w =
  (Raise IsADirectoryError, mkWorld RootWithdrawn (stdout w) (fs w)).
Proof.
  intros Ha Hd. destruct (OutcomeFacts.scan_cases e w Ha) as [t [_ C]].
  unfold at_path in Hd. pose proof Hd as Hp.
  rewrite FrameFacts.components_report, FSFacts.lookup_app in Hp.
  destruct (FS.lookup (FS.components (cwd e) (output_dir e)) (fs w)) as [[old|outs]|] eqn:L;
    try discriminate Hp.
  rewrite (FrameFacts.makedirs_existing _ _ _ L) in C.
  now rewrite (FrameFacts.write_file_on_dir _ _ _ _ Hd) in C.
Qed.

Lemma X6_directory_named_as_report_witness :
  answer Example.picked <> [] /\
  at_path Example.picked (output_path Example.picked) (fs Mishap.taken)
    = Some (FS.Dir [(lit "x", FS.File [])]) /\
  scan_folder_for_filetypes Example.picked Mishap.taken =
  (Raise IsADirectoryError,
   mkWorld RootWithdrawn (stdout Mishap.taken) (fs Mishap.taken)).
Proof.
  split; [discriminate|]. split; [vm_compute; reflexivity|].
  apply (X6_directory_named_as_report Example.picked Mishap.taken [(lit "x", FS.File [])]);
    [discriminate | vm_compute; reflexivity].
Defined.

(** X7: whatever the outcome of a run, a path that does not lead to the
    report (that is neither the report nor a directory above it) denotes
    after the run what it denoted before: no other file or directory is
    made, changed or removed. *)
Theorem X7_nothing_else_is_touched (e : env) (w : world) (q : list str) :
  ~ leads_to q (FS.components (cwd e) (output_path e)) ->
  FS.lookup q (fs (snd (scan_folder_for_filetypes e w))) = FS.lookup q (fs w).
Proof.
  intros N.
  assert (Nd : ~ leads_to q (FS.components (cwd e) (output_dir e))).
  { intros L. apply N. rewrite FrameFacts.components_report.
    now apply FrameFacts.leads_to_app. }
  destruct (PyStrFacts.str_eqb_spec (answer e) []) as [Ha|Ha].
  - now rewrite (RunFacts.scan_cancelled e w Ha).
  - destruct (OutcomeFacts.scan_cases e w Ha) as [t [_ C]].
    destruct (FS.makedirs _ (fs w)) as [root1|x] eqn:M; [|now rewrite C].
    destruct (FS.write_file _ _ root1) as [root2|x] eqn:W; rewrite C.
    + assert (F : forall r a b,
                 fs (snd (match r : result unit with
                          | Ok _ => (Ok tt, mkWorld RootWithdrawn a root2)
                          | Raise x => (Raise x, mkWorld RootWithdrawn b root2)
                          end)) = root2) by (intros [?|?] ? ?; reflexivity).
      rewrite F, (FrameFacts.write_file_frame _ _ _ _ q W N).
      apply (FrameFacts.makedirs_frame _ _ _ q M Nd).
    + apply (FrameFacts.makedirs_frame _ _ _ q M Nd).
Qed.

Lemma X7_nothing_else_is_touched_witness :
  ~ leads_to (map lit ["home"; "u"; "data"; "a.TXT"])
      (FS.components (cwd Example.picked) (output_path Example.picked)) /\
  FS.lookup (map lit ["home"; "u"; "data"; "a.TXT"])
    (fs (snd (scan_folder_for_filetypes Example.picked Example.before_again)))
  = FS.lookup (map lit ["home"; "u"; "data"; "a.TXT"]) (fs Example.before_again).
Proof.
  assert (N : ~ leads_to (map lit ["home"; "u"; "data"; "a.TXT"])
                (FS.components (cwd Example.picked) (output_path Example.picked))).
  { intros [r H]. vm_compute in H. discriminate H. }
  split; [exact N|].
  apply (X7_nothing_else_is_touched Example.picked Example.before_again _ N).
Defined.
(** ** Runs compared *)

Module RerunFacts.
Import PyStr PyStrFacts FS.

(** *** What [makedirs] and [open] leave in place *)

Lemma grows_refl root : grows root root.
Proof. intros q n L. now exists n. Qed.

Lemma grows_trans a b c : grows a b -> grows b c -> grows a c.
Proof.
  intros H1 H2 q n L. destruct (H1 q n L) as [n1 [L1 D1]].
  destruct (H2 q n1 L1) as [n2 [L2 D2]]. exists n2. split; [exact L2 | congruence].
Qed.

(** Replacing an entry by one that grew, or adding one. *)
Lemma grows_set_entry c child' es :
  (forall child, find_entry c es = Some child -> grows child child') ->
  grows (Dir es) (Dir (set_entry c child' es)).
Proof.
  intros H [|x q] n L.
  - cbn [lookup] in L. injection L as <-. now eexists.
  - cbn [lookup] in L |- *.
    destruct (find_entry x es) as [ch|] eqn:F; [|discriminate L].
    destruct (str_eqb_spec x c) as [->|D].
    + rewrite FSFacts.find_set_entry. exact (H ch F q n L).
    + rewrite (FrameFacts.find_set_entry_other x c child' es D), F. now exists n.
Qed.

Lemma makedirs_grows comps : forall n n', makedirs comps n = Ok n' -> grows n n'.
Proof.
  induction comps as [|c r IH]; intros [content|es] n' M; cbn [makedirs] in M;
    try discriminate M.
  - injection M as <-. apply grows_refl.
  - destruct (makedirs r _) as [child'|] eqn:M'; [|discriminate M].
    injection M as <-. apply grows_set_entry. intros child F.
    rewrite F in M'. exact (IH child child' M').
Qed.

Lemma write_file_grows comps content : forall n n',
  write_file comps content n = Ok n' -> grows n n'.
Proof.
  induction comps as [|c r IH]; intros [old|es] n' W; cbn [write_file] in W;
    try discriminate W.
  - injection W as <-. intros [|x q] n L; cbn [lookup] in L; [|discriminate L].
    injection L as <-. now eexists.
  - destruct (find_entry c es) as [child|] eqn:F.
    + destruct (write_file r content child) as [child'|] eqn:W'; [|discriminate W].
      injection W as <-. apply grows_set_entry. intros ch Fc.
      rewrite F in Fc. injection Fc as <-. exact (IH child child' W').
    + destruct r; [|discriminate W]. injection W as <-.
      apply grows_set_entry. intros ch Fc. rewrite F in Fc. discriminate Fc.
Qed.

(** A path the system could follow, it can still follow, to the same
    place. *)
Lemma follow_grows root root' :
  grows root root' ->
  forall raw names names',
    follow root names raw = Some names' -> follow root' names raw = Some names'.
Proof.
  intros G. induction raw as [|comp raw IH]; intros names names'; cbn [follow]; trivial.
  destruct (lookup names root) as [[content|entries]|] eqn:L; try discriminate.
  destruct (G names _ L) as [[content'|entries'] [L' D]]; [discriminate D|].
  rewrite L'.
  destruct ((comp =? [])%str || (comp =? [PosixPath.extsep])%str); [apply IH|].
  destruct (comp =? [PosixPath.extsep; PosixPath.extsep])%str; [apply IH|].
  destruct (find_entry comp entries) as [child|] eqn:F; [|discriminate].
  assert (Lc : lookup (names ++ [comp]) root = Some child).
  { rewrite FSFacts.lookup_app, L. cbn [lookup]. now rewrite F. }
  destruct (G _ _ Lc) as [child' [Lc' _]].
  rewrite FSFacts.lookup_app, L' in Lc'. cbn [lookup] in Lc'.
  destruct (find_entry comp entries'); [apply IH | discriminate Lc'].
Qed.

(** What the system finds at a path is found again, when the file system
    grew and what the path spells was left alone. *)
Lemma resolve_grows cwd path root root' n :
  grows root root' ->
  lookup (components cwd path) root' = lookup (components cwd path) root ->
  resolve cwd path root = Some n -> resolve cwd path root' = Some n.
Proof.
  intros G E. unfold resolve.
  destruct (follow root [] _) as [names|] eqn:F; [|discriminate].
  rewrite (follow_grows root root' G _ _ _ F).
  pose proof (ResolveFacts.follow_spelled _ _ _ _ F) as S.
  fold (components cwd path) in S. subst names. now rewrite E.
Qed.

(** A run that returns normally has made the directory and written the
    report of its table. *)
Lemma scan_ok e w w' :
  answer e <> [] ->
  scan_folder_for_filetypes e w = (Ok tt, w') ->
  exists t root1 b,
    group_files (cwd e) (answer e) (walk (cwd e) (answer e) (fs w)) = Ok t /\
    makedirs (components (cwd e) (output_dir e)) (fs w) = Ok root1 /\
    write_results utf8_write t [] = (Ok tt, b) /\
    write_file (components (cwd e) (output_path e)) b root1 = Ok (fs w') /\
    w' = mkWorld RootWithdrawn
           (stdout w ++ (lit "Saved to: " ++ output_path e) ++ nl) (fs w').
Proof.
  intros Ha R. destruct (OutcomeFacts.scan_cases e w Ha) as [t [Ht C]].
  destruct (makedirs _ (fs w)) as [root1|x] eqn:M; [|rewrite C in R; discriminate R].
  destruct (write_results utf8_write t []) as [r b] eqn:B. cbn [fst snd] in C.
  destruct (write_file _ _ root1) as [root2|x] eqn:W; rewrite C in R;
    [|discriminate R].
  destruct r as [[]|x]; [|discriminate R].
  injection R as <-. exists t, root1, b. now repeat split.
Qed.

(** *** An absolute answer makes the working directory irrelevant *)

Lemma isabs_join d f : PosixPath.isabs d = true -> PosixPath.isabs (PosixPath.join d f) = true.
Proof.
  intros H. unfold PosixPath.join, PosixPath.join_step, PosixPath.isabs in *.
  destruct (startswith f PosixPath.sep) eqn:S; trivial.
  assert (N : d <> []) by (intros ->; discriminate H).
  destruct ((d =? [])%str || endswith d PosixPath.sep).
  - now rewrite PathFacts.startswith_app.
  - now rewrite PathFacts.startswith_app.
Qed.

Lemma abspath_abs cwd cwd' p :
  PosixPath.isabs p = true -> PosixPath.abspath cwd p = PosixPath.abspath cwd' p.
Proof. intros H. unfold PosixPath.abspath. now rewrite H. Qed.

Lemma resolve_abs cwd cwd' p root :
  PosixPath.isabs p = true -> resolve cwd p root = resolve cwd' p root.
Proof. intros H. unfold resolve. now rewrite H. Qed.

Lemma _walk_abs n : forall top,
  PosixPath.isabs top = true ->
  Forall (fun item : walk_item => PosixPath.isabs (fst (fst item)) = true) (_walk top n).
Proof.
  induction n as [content|entries IH] using node_induction; intros top Ht.
  - constructor.
  - rewrite WalkFacts._walk_dir. constructor; trivial.
    apply Forall_forall. intros item Hin. apply in_flat_map in Hin.
    destruct Hin as [[name child] [He Hin]]. cbn [fst snd] in Hin.
    destruct (is_dir child); [|destruct Hin].
    rewrite Forall_forall in IH. specialize (IH _ He (PosixPath.join top name)).
    cbn [snd] in IH. rewrite Forall_forall in IH. apply IH; trivial.
    now apply isabs_join.
Qed.

Lemma visit_file_abs cwd cwd' folder_selected dirpath t filename :
  PosixPath.isabs folder_selected = true -> PosixPath.isabs dirpath = true ->
  visit_file cwd folder_selected dirpath t filename =
  visit_file cwd' folder_selected dirpath t filename.
Proof.
  intros Hf Hd. unfold visit_file, PosixPath.relpath, PosixPath.relpath_body.
  rewrite (abspath_abs cwd cwd' folder_selected Hf).
  now rewrite (abspath_abs cwd cwd' _ (isabs_join dirpath filename Hd)).
Qed.

Lemma group_files_abs cwd cwd' folder_selected walked :
  PosixPath.isabs folder_selected = true ->
  Forall (fun item : walk_item => PosixPath.isabs (fst (fst item)) = true) walked ->
  group_files cwd folder_selected walked = group_files cwd' folder_selected walked.
Proof.
  intros Hf. unfold group_files. generalize (@nil (list N * list (list N))).
  induction walked as [|[[dirpath dirnames] filenames] walked IH]; intros t H; trivial.
  inversion H as [|? ? Hd Hw]; subst. cbn [fst] in Hd. cbn [for_each visit_dir].
  assert (E : forall t0,
             for_each (visit_file cwd folder_selected dirpath) filenames t0 =
             for_each (visit_file cwd' folder_selected dirpath) filenames t0).
  { clear - Hf Hd. induction filenames as [|f fs IHf]; intros t0; cbn [for_each]; trivial.
    rewrite (visit_file_abs cwd cwd' folder_selected dirpath t0 f Hf Hd).
    destruct (visit_file cwd' folder_selected dirpath t0 f); [apply IHf | trivial]. }
  rewrite E.
  destruct (for_each (visit_file cwd' folder_selected dirpath) filenames t); trivial.
  now apply IH.
Qed.

(** The table of an absolute answer is read off the tree the system finds
    there. *)
Lemma table_abs cwd cwd' folder_selected root root' :
  PosixPath.isabs folder_selected = true ->
  resolve cwd' folder_selected root' = resolve cwd folder_selected root ->
  group_files cwd' folder_selected (walk cwd' folder_selected root') =
  group_files cwd folder_selected (walk cwd folder_selected root).
Proof.
  intros Hf L. unfold walk. rewrite L.
  destruct (resolve cwd folder_selected root) as [n|]; trivial.
  apply group_files_abs; trivial. now apply _walk_abs.
Qed.

End RerunFacts.

(** X8: a second run with the same answer repeats the first.  When the
    system can follow the picked path, the picked folder is neither the
    report nor a directory above it, and nothing is in the way, the first
    run returns normally or ends with [UnicodeEncodeError]; a run started
    in the world it leaves ends the same way and leaves the file system,
    the report included, as the first run left it; when the runs return
    normally, the second prints its line again. *)
Theorem X8_second_run_changes_nothing (e : env) (w : world) (n : FS.node) :
  answer e <> [] ->
  can_write_report e (fs w) ->
  FS.resolve (cwd e) (answer e) (fs w) = Some n ->
  ~ leads_to (FS.components (cwd e) (answer e))
             (FS.components (cwd e) (output_path e)) ->
  exists w',
    snd (scan_folder_for_filetypes e w) = w' /\
    (fst (scan_folder_for_filetypes e w) = Ok tt \/
     fst (scan_folder_for_filetypes e w) = Raise UnicodeEncodeError) /\
    fst (scan_folder_for_filetypes e w') = fst (scan_folder_for_filetypes e w) /\
    fs (snd (scan_folder_for_filetypes e w')) = fs w' /\
    (fst (scan_folder_for_filetypes e w) = Ok tt ->
     scan_folder_for_filetypes e w' =
       (Ok tt, mkWorld RootWithdrawn
                 (stdout w' ++ (lit "Saved to: " ++ output_path e) ++ nl) (fs w'))).
Proof.
  intros Ha Hc Hr Hn.
  assert (Hd : ~ leads_to (FS.components (cwd e) (answer e))
                          (FS.components (cwd e) (output_dir e))).
  { intros L. apply Hn. rewrite FrameFacts.components_report.
    now apply FrameFacts.leads_to_app. }
  destruct (OutcomeFacts.scan_cases e w Ha) as [t [Ht C]].
  destruct (RunFacts.report_written e (fs w) (snd (write_results utf8_write t [])) Hc)
    as [root1 [root2 [outputs [M [W [P D]]]]]].
  rewrite M, W in C.
  (* the world the first run leaves *)
  set (r := fst (write_results utf8_write t [])) in *.
  assert (F1 : fs (snd (scan_folder_for_filetypes e w)) = root2).
  { rewrite C. now destruct r. }
  assert (U : r = Ok tt \/ r = Raise UnicodeEncodeError).
  { unfold r. destruct (utf8 (SpecReport.report (sorted t))) as [b|] eqn:E.
    - left. now rewrite (ReportFacts.write_results_utf8 t b E).
    - right. now apply ReportFacts.write_results_utf8_fail. }
  (* the second run *)
  destruct (OutcomeFacts.scan_cases e (snd (scan_folder_for_filetypes e w)) Ha)
    as [t' [Ht' C']].
  rewrite F1 in Ht', C'.
  assert (R2 : FS.resolve (cwd e) (answer e) root2 = Some n).
  { apply (RerunFacts.resolve_grows _ _ (fs w)); trivial.
    - apply (RerunFacts.grows_trans _ root1).
      + exact (RerunFacts.makedirs_grows _ _ _ M).
      + exact (RerunFacts.write_file_grows _ _ _ _ W).
    - rewrite (FrameFacts.write_file_frame _ _ _ _ _ W Hn).
      exact (FrameFacts.makedirs_frame _ _ _ _ M Hd). }
  assert (T : t' = t).
  { unfold FS.walk in Ht, Ht'. rewrite R2 in Ht'. rewrite Hr in Ht. congruence. }
  subst t'. fold r in C'.
  unfold at_path in P, D.
  rewrite (FrameFacts.makedirs_existing _ _ _ D) in C'.
  rewrite (FrameFacts.write_file_same _ _ _ P) in C'.
  exists (snd (scan_folder_for_filetypes e w)).
  split; [reflexivity|].
  rewrite C', F1, C.
  destruct U as [U|U]; rewrite U; cbn [fst snd fs stdout].
  - split; [now left|]. split; [reflexivity|]. split; [reflexivity|].
    intros _. destruct (Ok tt : result unit) as [[]|]; reflexivity.
  - split; [now right|]. split; [reflexivity|]. split; [reflexivity|].
    discriminate.
Qed.

Lemma X8_second_run_changes_nothing_witness :
  answer Example.picked <> [] /\
  can_write_report Example.picked (fs Example.before) /\
  FS.resolve (cwd Example.picked) (answer Example.picked) (fs Example.before)
    = Some Example.data /\
  ~ leads_to (FS.components (cwd Example.picked) (answer Example.picked))
             (FS.components (cwd Example.picked) (output_path Example.picked)) /\
  exists w',
    snd (scan_folder_for_filetypes Example.picked Example.before) = w' /\
    (fst (scan_folder_for_filetypes Example.picked Example.before) = Ok tt \/
     fst (scan_folder_for_filetypes Example.picked Example.before)
       = Raise UnicodeEncodeError) /\
    fst (scan_folder_for_filetypes Example.picked w')
      = fst (scan_folder_for_filetypes Example.picked Example.before) /\
    fs (snd (scan_folder_for_filetypes Example.picked w')) = fs w' /\
    (fst (scan_folder_for_filetypes Example.picked Example.before) = Ok tt ->
     scan_folder_for_filetypes Example.picked w' =
       (Ok tt, mkWorld RootWithdrawn
                 (stdout w' ++ (lit "Saved to: " ++ output_path Example.picked) ++ nl)
                 (fs w'))).
Proof.
  assert (C : can_write_report Example.picked (fs Example.before)).
  { split; [vm_compute; reflexivity | vm_compute; exact I]. }
  assert (R : FS.resolve (cwd Example.picked) (answer Example.picked) (fs Example.before)
              = Some Example.data) by (vm_compute; reflexivity).
  assert (N : ~ leads_to (FS.components (cwd Example.picked) (answer Example.picked))
                (FS.components (cwd Example.picked) (output_path Example.picked))).
  { intros [r H]. vm_compute in H. discriminate H. }
  split; [discriminate|]. split; [exact C|]. split; [exact R|]. split; [exact N|].
  apply (X8_second_run_changes_nothing Example.picked Example.before Example.data);
    trivial.
  discriminate.
Defined.

(** The picked path goes through [output], which the first run makes: the
    first run finds nothing to walk, the second finds the folder. *)
Example second_run_differs :
  let e := mkEnv (lit "/opt/creepdir/output/../../../home/u/data")
                 (lit "/opt/creepdir/creepdir.py") (lit "/home/u") in
  let w' := snd (scan_folder_for_filetypes e Example.before) in
  at_path e (output_path e) (fs w') = Some (FS.File []) /\
  fs (snd (scan_folder_for_filetypes e w')) <> fs w'.
Proof. vm_compute. split; [reflexivity | discriminate]. Qed.

(** X9: the bytes of the report depend on the picked directory only.  Two
    runs that return normally, with the same absolute answer, in two worlds
    where the system finds the same tree at it (or nothing in both), leave
    the same bytes in their reports, wherever the script and the working
    directory and whatever else the file systems hold. *)
Theorem X9_report_depends_on_picked_tree_only (e1 e2 : env) (w1 w2 w1' w2' : world) :
  PosixPath.isabs (answer e1) = true ->
  answer e2 = answer e1 ->
  FS.resolve (cwd e2) (answer e2) (fs w2) = FS.resolve (cwd e1) (answer e1) (fs w1) ->
  scan_folder_for_filetypes e1 w1 = (Ok tt, w1') ->
  scan_folder_for_filetypes e2 w2 = (Ok tt, w2') ->
  exists b,
    at_path e1 (output_path e1) (fs w1') = Some (FS.File b) /\
    at_path e2 (output_path e2) (fs w2') = Some (FS.File b).
Proof.
  intros Hi Ea Et R1 R2.
  assert (Ha : answer e1 <> []) by (intros E; rewrite E in Hi; discriminate Hi).
  assert (Ha2 : answer e2 <> []) by now rewrite Ea.
  destruct (RerunFacts.scan_ok e1 w1 w1' Ha R1) as [t1 [r1 [b1 [G1 [_ [B1 [W1 _]]]]]]].
  destruct (RerunFacts.scan_ok e2 w2 w2' Ha2 R2) as [t2 [r2 [b2 [G2 [_ [B2 [W2 _]]]]]]].
  unfold at_path in *. rewrite Ea in Et, G2.
  rewrite (RerunFacts.table_abs (cwd e1) (cwd e2) (answer e1) (fs w1) (fs w2) Hi Et),
    G1 in G2.
  injection G2 as <-. rewrite B1 in B2. injection B2 as <-.
  exists b1. split.
  - now apply (FSFacts.lookup_write_file _ _ r1).
  - now apply (FSFacts.lookup_write_file _ _ r2).
Qed.

Lemma X9_report_depends_on_picked_tree_only_witness :
  PosixPath.isabs (answer Example.picked) = true /\
  answer Mishap.picked_elsewhere = answer Example.picked /\
  FS.resolve (cwd Mishap.picked_elsewhere) (answer Mishap.picked_elsewhere)
    (fs Mishap.elsewhere)
    = FS.resolve (cwd Example.picked) (answer Example.picked) (fs Example.before_again) /\
  scan_folder_for_filetypes Example.picked Example.before_again
    = (Ok tt, snd (scan_folder_for_filetypes Example.picked Example.before_again)) /\
  scan_folder_for_filetypes Mishap.picked_elsewhere Mishap.elsewhere
    = (Ok tt, snd (scan_folder_for_filetypes Mishap.picked_elsewhere Mishap.elsewhere)) /\
  exists b,
    at_path Example.picked (output_path Example.picked)
      (fs (snd (scan_folder_for_filetypes Example.picked Example.before_again)))
      = Some (FS.File b) /\
    at_path Mishap.picked_elsewhere (output_path Mishap.picked_elsewhere)
      (fs (snd (scan_folder_for_filetypes Mishap.picked_elsewhere Mishap.elsewhere)))
      = Some (FS.File b).
Proof.
  split; [reflexivity|]. split; [reflexivity|]. split; [vm_compute; reflexivity|].
  split; [vm_compute; reflexivity|]. split; [vm_compute; reflexivity|].
  apply (X9_report_depends_on_picked_tree_only Example.picked Mishap.picked_elsewhere
           Example.before_again Mishap.elsewhere); vm_compute; reflexivity.
Defined.


(** ** Unusual answers *)

Module EdgeFacts.
Import PyStr PyStrFacts PosixPath FS.

Lemma rindex_app_last c s : rindex c (s ++ [c]) = Some (List.length s).
Proof.
  induction s as [|a s IH]; simpl.
  - now rewrite N.eqb_refl.
  - now rewrite IH.
Qed.

Lemma drop_all n : forall s, (List.length s <= n)%nat -> drop n s = [].
Proof.
  induction n as [|n IH]; intros [|a s] H; simpl in *; trivial; try lia.
  apply IH. lia.
Qed.

(** Nothing follows the last separator of a path that ends with one. *)
Lemma basename_trailing p : endswith p sep = true -> basename p = [].
Proof.
  intros H. destruct (PathFacts.endswith_inv sep p H) as [s ->].
  unfold basename, rfind, slice_from. rewrite rindex_app_last.
  replace (Z.of_nat (List.length s) + 1) with (Z.of_nat (S (List.length s))) by lia.
  rewrite clamp_nat by (rewrite List.length_app; simpl; lia).
  apply drop_all. rewrite List.length_app. simpl. lia.
Qed.

Lemma well_named_entries entries :
  well_named (Dir entries) ->
  Forall (fun entry => plain (fst entry) /\ well_named (snd entry)) entries.
Proof.
  induction entries as [|[name child] entries IH]; intros H; constructor.
  - simpl in H. simpl. tauto.
  - apply IH. simpl in H. simpl. tauto.
Qed.

Lemma find_entry_in name entries child :
  find_entry name entries = Some child -> In (name, child) entries.
Proof.
  induction entries as [|[n c] entries IH]; simpl; [discriminate|].
  destruct (str_eqb_spec n name) as [->|N].
  - intros [= ->]. now left.
  - intros H. right. now apply IH.
Qed.

Lemma well_named_lookup q : forall n m,
  well_named n -> lookup q n = Some m -> well_named m.
Proof.
  induction q as [|c q IH]; intros n m H L; simpl in L.
  - now injection L as <-.
  - destruct n as [content|entries]; [discriminate|].
    destruct (find_entry c entries) as [child|] eqn:F; [|discriminate].
    apply (IH child m); trivial.
    apply well_named_entries in H. rewrite Forall_forall in H.
    exact (proj2 (H _ (find_entry_in _ _ _ F))).
Qed.

Lemma _walk_below n : forall top,
  well_named n -> Forall (below top) (enumerate (_walk top n)).
Proof.
  induction n as [content|entries IH] using node_induction; intros top H.
  - constructor.
  - rewrite WalkFacts._walk_dir. apply well_named_entries in H.
    match goal with |- context [enumerate (?x :: ?l)] =>
      change (x :: l) with ([x] ++ l) end.
    rewrite WalkFacts.enumerate_app. apply Forall_app. split.
    + unfold enumerate. simpl. rewrite app_nil_r.
      apply Forall_forall. intros [d f] Hin. apply in_map_iff in Hin.
      destruct Hin as [name [[= <- <-] Hin]]. apply in_map_iff in Hin.
      destruct Hin as [[name' child] [<- Hin]]. apply filter_In in Hin.
      rewrite Forall_forall in H. destruct (H _ (proj1 Hin)) as [P _].
      exists []. simpl in *. split; [constructor | split; [reflexivity | exact P]].
    + apply Forall_forall. intros [d f] Hin. unfold enumerate in Hin.
      apply in_flat_map in Hin. destruct Hin as [item [Hitem Hin]].
      apply in_flat_map in Hitem. destruct Hitem as [[name child] [He Hitem]].
      simpl in Hitem. destruct (is_dir child); [|destruct Hitem].
      rewrite Forall_forall in IH, H. destruct (H _ He) as [P Wc].
      specialize (IH _ He (join top name) Wc). rewrite Forall_forall in IH.
      assert (Hin' : In (d, f) (enumerate (_walk (join top name) child))).
      { unfold enumerate. apply in_flat_map. now exists item. }
      destruct (IH _ Hin') as [ds [Hds [Ed Pf]]].
      exists (name :: ds). simpl in *.
      split; [now constructor | split; [exact Ed | exact Pf]].
Qed.

End EdgeFacts.

(** X10: when the answer ends with a separator (the root [/] does), the
    folder name is empty and the report is named [.txt]. *)
Theorem X10_trailing_separator_names_report_dot_txt (e : env) :
  endswith (answer e) PosixPath.sep = true ->
  PosixPath.basename (answer e) = [] /\
  output_path e = PosixPath.join (output_dir e) (lit ".txt").
Proof.
  intros H. pose proof (EdgeFacts.basename_trailing (answer e) H) as B.
  split; [exact B|]. unfold output_path, output_name. now rewrite B.
Qed.

Lemma X10_trailing_separator_names_report_dot_txt_witness :
  endswith (answer Mishap.picked_slash) PosixPath.sep = true /\
  PosixPath.basename (answer Mishap.picked_slash) = [] /\
  output_path Mishap.picked_slash = PosixPath.join (output_dir Mishap.picked_slash) (lit ".txt").
Proof.
  split; [reflexivity|].
  apply (X10_trailing_separator_names_report_dot_txt Mishap.picked_slash). reflexivity.
Defined.

(** X11: an answer at which there is no directory (nothing, or a regular
    file), or which the system cannot follow to a directory, is no error:
    [os.walk] yields nothing, and with nothing in the way the run returns
    normally and writes a report of zero bytes. *)
Theorem X11_not_a_directory_gives_empty_report (e : env) (w : world) :
  answer e <> [] ->
  can_write_report e (fs w) ->
  (forall entries, at_path e (answer e) (fs w) <> Some (FS.Dir entries)) \/
  (forall entries, FS.resolve (cwd e) (answer e) (fs w) <> Some (FS.Dir entries)) ->
  exists w',
    scan_folder_for_filetypes e w = (Ok tt, w') /\
    at_path e (output_path e) (fs w') = Some (FS.File []).
Proof.
  intros Ha Hc Hn.
  destruct (RunFacts.scan_selected e w Ha Hc) as [t [root' [outputs [Ht [R [P D]]]]]].
  assert (E : FS.walk (cwd e) (answer e) (fs w) = []).
  { unfold FS.walk.
    destruct (FS.resolve (cwd e) (answer e) (fs w)) as [[c|es]|] eqn:L; trivial.
    exfalso. destruct Hn as [Hn|Hn]; [|now destruct (Hn es)].
    apply ResolveFacts.resolve_lookup in L. now destruct (Hn es). }
  rewrite E in Ht. injection Ht as <-.
  eexists. split; [exact R | exact P].
Qed.

Lemma X11_not_a_directory_gives_empty_report_witness :
  answer Mishap.picked_file <> [] /\
  can_write_report Mishap.picked_file (fs Example.before) /\
  ((forall entries,
      at_path Mishap.picked_file (answer Mishap.picked_file) (fs Example.before)
      <> Some (FS.Dir entries)) \/
   (forall entries,
      FS.resolve (cwd Mishap.picked_file) (answer Mishap.picked_file) (fs Example.before)
      <> Some (FS.Dir entries))) /\
  exists w',
    scan_folder_for_filetypes Mishap.picked_file Example.before = (Ok tt, w') /\
    at_path Mishap.picked_file (output_path Mishap.picked_file) (fs w')
      = Some (FS.File []).
Proof.
  assert (C : can_write_report Mishap.picked_file (fs Example.before)).
  { split; [vm_compute; reflexivity | vm_compute; exact I]. }
  assert (N : forall entries,
             at_path Mishap.picked_file (answer Mishap.picked_file) (fs Example.before)
             <> Some (FS.Dir entries)).
  { intros entries H. vm_compute in H. discriminate H. }
  split; [discriminate|]. split; [exact C|]. split; [left; exact N|].
  apply (X11_not_a_directory_gives_empty_report Mishap.picked_file Example.before);
    [discriminate | exact C | left; exact N].
Defined.

(** X12: in a file system whose entries have proper names (not empty, not
    [.] or [..], without [/]), with an absolute working directory, every
    path recorded in the table is made of such names with [/] between them:
    it is relative, and never climbs out of the picked folder. *)
Theorem X12_recorded_paths_are_entry_paths (cwd folder_selected : str)
    (root : FS.node) :
  PosixPath.isabs cwd = true ->
  folder_selected <> [] ->
  well_named root ->
  exists t,
    group_files cwd folder_selected (FS.walk cwd folder_selected root) = Ok t /\
    Forall entry_path (List.concat (map snd t)).
Proof.
  intros Hc Hf Hw.
  destruct (GroupFacts.group_enumerated_holds cwd folder_selected
              (enumerate (FS.walk cwd folder_selected root))) as [t [E [_ _ _ HP]]].
  { apply WalkFacts.enumerate_dirpath. now apply WalkFacts.walk_dirpath. }
  exists t. rewrite GroupFacts.group_files_enumerate. split; [exact E|].
  apply (Permutation_Forall (Permutation_sym HP)).
  apply Forall_map.
  assert (B : Forall (below folder_selected)
                (enumerate (FS.walk cwd folder_selected root))).
  { destruct (ResolveFacts.walk_cases cwd folder_selected root) as [->|[n [L ->]]];
      [constructor|].
    apply EdgeFacts._walk_below. now apply (EdgeFacts.well_named_lookup _ _ _ Hw L). }
  apply (Forall_impl _ (P := below folder_selected)); trivial.
  intros [d f] [ds [Hds [Ed Pf]]]. simpl in Ed, Pf. subst d.
  exists (ds ++ [f]). repeat split.
  - intros A. apply app_eq_nil in A. destruct A as [_ A]. discriminate A.
  - apply Forall_app. split; trivial. now constructor.
  - now apply PathFacts.rel_path_of_entry.
Qed.

Lemma X12_recorded_paths_are_entry_paths_witness :
  PosixPath.isabs (lit "/home/u") = true /\
  (lit "/home/u/data") <> [] /\
  well_named Example.root /\
  exists t,
    group_files (lit "/home/u") (lit "/home/u/data") (FS.walk (lit "/home/u") (lit "/home/u/data") Example.root)
      = Ok t /\
    Forall entry_path (List.concat (map snd t)).
Proof.
  assert (W : well_named Example.root).
  { simpl. unfold plain. repeat split; (discriminate || reflexivity). }
  split; [reflexivity|]. split; [discriminate|]. split; [exact W|].
  apply (X12_recorded_paths_are_entry_paths (lit "/home/u") (lit "/home/u/data") Example.root);
    trivial.
  discriminate.
Defined.
(** ** Names that UTF-8 cannot encode *)

Module EncodeFacts.
Import PyStr ReportFacts.

Lemma encodable_app s t : encodable (s ++ t) <-> encodable s /\ encodable t.
Proof.
  unfold encodable. rewrite utf8_app.
  destruct (utf8 s), (utf8 t); split; try tauto; try (intros [A B]; congruence);
    intros _; split; congruence.
Qed.

Lemma encodable_cat l : encodable (SpecReport.cat l) <-> Forall encodable l.
Proof.
  induction l as [|s l IH]; cbn [SpecReport.cat].
  - split; [constructor | discriminate].
  - rewrite encodable_app, IH. split.
    + intros [A B]. now constructor.
    + intros H. inversion H; subst. now split.
Qed.

Lemma encodable_nl : encodable nl.
Proof. discriminate. Qed.

Lemma encodable_line p : encodable (p ++ nl) <-> encodable p.
Proof. rewrite encodable_app. pose proof encodable_nl. tauto. Qed.

Lemma encodable_header ext :
  encodable (lit "--- " ++ ext ++ lit " ---" ++ nl) <-> encodable ext.
Proof.
  rewrite !encodable_app.
  assert (A : encodable (lit "--- ")) by discriminate.
  assert (B : encodable (lit " ---")) by discriminate.
  pose proof encodable_nl. tauto.
Qed.

Lemma encodable_group_chunks item :
  Forall encodable (group_chunks item) <->
  encodable (fst item) /\ Forall encodable (snd item).
Proof.
  unfold group_chunks.
  rewrite Forall_cons_iff, Forall_app, encodable_header, Forall_map.
  assert (L : Forall (fun p => encodable (p ++ nl)) (snd item)
              <-> Forall encodable (snd item)).
  { split; apply Forall_impl; intros p; apply encodable_line. }
  rewrite L. split.
  - tauto.
  - intros [A B]. repeat split; trivial. repeat constructor. apply encodable_nl.
Qed.

Lemma encodable_chunks items : Forall encodable (chunks items) <-> table_encodable items.
Proof.
  unfold chunks, table_encodable.
  induction items as [|item items IH]; cbn [flat_map].
  - split; constructor.
  - rewrite Forall_app, encodable_group_chunks, IH. split.
    + intros [A B]. now constructor.
    + intros H. inversion H; subst. now split.
Qed.

End EncodeFacts.

(** X13: the writes go through exactly when UTF-8 can encode every key and
    every path of the table, that is when none holds a lone surrogate (the
    trace of a file name that is not valid UTF-8); otherwise they end with
    [UnicodeEncodeError]. *)
Theorem X13_writes_succeed_iff_names_encodable (t : table) :
  (fst (write_results utf8_write t []) = Ok tt <-> table_encodable t) /\
  (fst (write_results utf8_write t []) = Raise UnicodeEncodeError
   <-> ~ table_encodable t).
Proof.
  assert (E : encodable (SpecReport.report (sorted t)) <-> table_encodable t).
  { rewrite <- ReportFacts.cat_chunks, EncodeFacts.encodable_cat,
      EncodeFacts.encodable_chunks.
    unfold table_encodable. split; apply Permutation_Forall.
    - apply ReportFacts.sorted_perm.
    - apply Permutation_sym, ReportFacts.sorted_perm. }
  unfold encodable in E.
  destruct (utf8 (SpecReport.report (sorted t))) as [b|] eqn:U.
  - rewrite (ReportFacts.write_results_utf8 t b U). cbn [fst].
    assert (T : table_encodable t) by (apply E; discriminate).
    split; split; trivial; [discriminate | contradiction].
  - rewrite (ReportFacts.write_results_utf8_fail t U).
    assert (T : ~ table_encodable t) by (intros T; apply E in T; now apply T).
    split; split; trivial; [discriminate | contradiction].
Qed.

Example not_utf8_not_encodable :
  ~ encodable Example.not_utf8 /\ encodable (lit "README").
Proof. split; [intros H; now apply H | discriminate]. Qed.

(** ** More on names beyond ASCII *)

Module AsciiFacts.
Import PyStr PyStrFacts UnicodeFacts.

(** What holds of the 128 characters of ASCII, one by one. *)
Lemma ascii_cases (P : N -> bool) :
  forallb P (map N.of_nat (seq 0 128)) = true ->
  forall c, (c < 128)%N -> P c = true.
Proof.
  intros H c L. rewrite forallb_forall in H. apply H.
  apply in_map_iff. exists (N.to_nat c). split; [apply N2Nat.id|].
  apply in_seq. lia.
Qed.

(** The lower-case form of an ASCII character is an ASCII character, and
    not an upper-case letter. *)
Lemma lower_char_ascii c :
  (c < 128)%N -> (lower_char c < 128)%N /\ Unicode.is_uppercase (lower_char c) = false.
Proof.
  intros L.
  pose proof (ascii_cases
                (fun c => (lower_char c <? 128)%N
                          && negb (Unicode.is_uppercase (lower_char c)))) as A.
  assert (B : (lower_char c <? 128)%N
              && negb (Unicode.is_uppercase (lower_char c)) = true).
  { apply A; [vm_compute; reflexivity | exact L]. }
  apply andb_prop in B. destruct B as [B1 B2]. split.
  - now apply N.ltb_lt.
  - now apply negb_true_iff.
Qed.

Lemma lower_ascii s :
  is_ascii s -> is_ascii (lower s) /\ has_upper (lower s) = false.
Proof.
  intros H. rewrite (lower_letterwise s (is_ascii_letterwise s H)).
  unfold is_ascii in *. induction H as [|c s Hc _ [IH1 IH2]]; cbn [map has_upper].
  - split; [constructor | reflexivity].
  - destruct (lower_char_ascii c Hc) as [L U]. split.
    + now constructor.
    + now rewrite U, IH2.
Qed.

End AsciiFacts.

(** X14: when some key or path of the table cannot be encoded, the report is
    cut short: the writes end with [UnicodeEncodeError] at the first text
    (header line or path line) that cannot be encoded, and the file is left
    with the encoding of the texts before it. *)
Theorem X14_report_cut_at_first_bad_name (t : table) :
  ~ table_encodable t ->
  exists done s rest b,
    chunks (sorted t) = done ++ s :: rest /\
    Forall encodable done /\ ~ encodable s /\
    utf8 (SpecReport.cat done) = Some b /\
    write_results utf8_write t [] = (Raise UnicodeEncodeError, b).
Proof.
  intros H.
  assert (U : utf8 (SpecReport.cat (chunks (sorted t))) = None).
  { destruct (utf8 (SpecReport.cat (chunks (sorted t)))) as [b|] eqn:E; trivial.
    exfalso. apply H.
    assert (C : encodable (SpecReport.cat (chunks (sorted t))))
      by (unfold encodable; now rewrite E).
    rewrite EncodeFacts.encodable_cat, EncodeFacts.encodable_chunks in C.
    unfold table_encodable in *.
    apply (Permutation_Forall (ReportFacts.sorted_perm t)). exact C. }
  destruct (ReportFacts.utf8_writes_fail _ [] U) as [done [rest [s [b [E [N [D R]]]]]]].
  exists done, s, rest, b. split; [exact E|]. split.
  - apply EncodeFacts.encodable_cat. unfold encodable. now rewrite D.
  - split; [intros A; now apply A|]. split; [exact D|].
    now rewrite ReportFacts.write_results_chunks.
Qed.

Lemma X14_report_cut_at_first_bad_name_witness :
  ~ table_encodable [(lit ".txt", [lit "a.TXT"; Example.not_utf8; lit "b.txt"])] /\
  exists done s rest b,
    chunks (sorted [(lit ".txt", [lit "a.TXT"; Example.not_utf8; lit "b.txt"])])
      = done ++ s :: rest /\
    Forall encodable done /\ ~ encodable s /\
    utf8 (SpecReport.cat done) = Some b /\
    write_results utf8_write [(lit ".txt", [lit "a.TXT"; Example.not_utf8; lit "b.txt"])] []
      = (Raise UnicodeEncodeError, b).
Proof.
  assert (H : ~ table_encodable
                [(lit ".txt", [lit "a.TXT"; Example.not_utf8; lit "b.txt"])]).
  { intros T. inversion T as [|? ? [_ P] _]; subst.
    inversion P as [|? ? _ Q]; subst. inversion Q as [|? ? B _]; subst.
    now apply B. }
  split; [exact H|].
  exact (X14_report_cut_at_first_bad_name _ H).
Defined.

Example report_cut_example :
  write_results utf8_write [(lit ".txt", [lit "a.TXT"; Example.not_utf8; lit "b.txt"])] []
  = (Raise UnicodeEncodeError, lit "--- .txt ---" ++ nl ++ lit "a.TXT" ++ nl).
Proof. vm_compute. reflexivity. Qed.

(** X15: the key of an ASCII filename is ASCII and holds no upper-case
    letter. *)
Theorem X15_ascii_key_has_no_upper_case (filename : str) :
  is_ascii filename ->
  is_ascii (ext_of filename) /\ has_upper (ext_of filename) = false.
Proof.
  intros H. unfold ext_of. apply AsciiFacts.lower_ascii.
  unfold is_ascii in *. now apply KeyFacts.snd_splitext_forall.
Qed.

Lemma X15_ascii_key_has_no_upper_case_witness :
  is_ascii (lit "Archive.Tar.GZ") /\
  is_ascii (ext_of (lit "Archive.Tar.GZ")) /\
  has_upper (ext_of (lit "Archive.Tar.GZ")) = false.
Proof.
  assert (H : is_ascii (lit "Archive.Tar.GZ")).
  { unfold is_ascii. repeat constructor. }
  split; [exact H|].
  exact (X15_ascii_key_has_no_upper_case (lit "Archive.Tar.GZ") H).
Defined.

(** A picked path that does not exist: the walk yields nothing. *)
Example walk_missing :
  FS.walk (cwd Mishap.picked_missing) (answer Mishap.picked_missing) Example.root = [].
Proof. vm_compute. reflexivity. Qed.


(** ** The module *)

(** Run as a script, the module is one run of the function; imported, it
    does nothing. *)
Lemma module_body_cases name e w :
  module_body name e w =
  if (name =? (lit "__main__"))%str then scan_folder_for_filetypes e w else (Ok tt, w).
Proof. unfold module_body, ret. now destruct (name =? (lit "__main__"))%str. Qed.
